(** * The record store of the hostblock daemon

    A shallow embedding of [src/hb/src/data.cpp] (class [hb::Data]): the
    on-disk store of per-address suspicion records and log-file bookmarks,
    its loader, its compaction and its byte-wise point mutations.

    Strings ([std::string], file contents) are lists of 8-bit characters,
    unsigned counters are [N], the address index ([std::map]) is a [gmap]
    whose ordered iteration is made explicit, the file system is a [gmap]
    from paths to contents, and a C++ stream is a record holding the buffer,
    the (joint) position and the state bits. *)

From Stdlib Require Import ZArith NArith Ascii String List Lia.
From stdpp Require Import base option list gmap strings sorting.

Local Open Scope char_scope.
Local Open Scope list_scope.

(** ** Characters and strings *)

Abbreviation str := (list ascii).

Definition lit (s : string) : str := list_ascii_of_string s.

Definition NL : ascii := "010".
Definition NUL : ascii := "000".
Definition SP : ascii := " ".

Definition eqc (a b : ascii) : bool := bool_decide (a = b).
Definition eqs (a b : str) : bool := bool_decide (a = b).

Fixpoint drop_while (p : ascii -> bool) (s : str) : str :=
  match s with
  | [] => []
  | c :: s' => if p c then drop_while p s' else s
  end.

Fixpoint take_while (p : ascii -> bool) (s : str) : str :=
  match s with
  | [] => []
  | c :: s' => if p c then c :: take_while p s' else []
  end.

Module Util.

(** Modelled from the spec: [hb::Util::ltrim] (util.h, util.cpp) is not
    under src/.  The spec says fields are "right-justified, space-padded"
    and that the loader must "trim padding": [ltrim] removes the leading
    space characters of its argument. *)
Definition ltrim (s : str) : str := drop_while (fun c => eqc c SP) s.

(** Modelled from the spec: [hb::Util::rtrim] (util.h, util.cpp) is not
    under src/; the mirror image of [ltrim], removing trailing spaces. *)
Definition rtrim (s : str) : str := reverse (ltrim (reverse s)).

End Util.

(** [std::string::substr(pos, n)]: throws [std::out_of_range] ([None]) when
    [pos > size()], otherwise the characters [pos, min (pos+n) size). *)
Definition substr (s : str) (pos n : nat) : option str :=
  if bool_decide (pos <= length s)%nat then Some (take n (drop pos s)) else None.

(** [std::string::substr(pos)]: to the end of the string. *)
Definition substr_from (s : str) (pos : nat) : option str :=
  if bool_decide (pos <= length s)%nat then Some (drop pos s) else None.

(** [s.c_str()] read as a C string, and [std::string(const char* )]: the
    characters before the first NUL. *)
Definition c_str (s : str) : str := take_while (fun c => negb (eqc c NUL)) s.

(** ** Numbers and their text *)

Definition ULLONG_MAX : N := 18446744073709551615%N.

Definition digit_char (d : N) : ascii := ascii_of_N (48 + d).

Definition digit_val (c : ascii) : option N :=
  let n := N_of_ascii c in
  if ((48 <=? n) && (n <=? 57))%N then Some (n - 48)%N else None.

(** decimal digits of [n], most significant first, pushed in front of [acc] *)
Fixpoint to_digits (fuel : nat) (n : N) (acc : str) : str :=
  match fuel with
  | O => acc
  | S fuel' =>
      let acc' := digit_char (n mod 10) :: acc in
      if (n <? 10)%N then acc' else to_digits fuel' (n / 10) acc'
  end.

(** [std::to_string] and [operator<<] on an unsigned integer *)
Definition to_string (n : N) : str := to_digits (S (N.to_nat (N.log2 n))) n [].

(** [std::to_string] on an [int] *)
Definition to_string_int (z : Z) : str :=
  if (z <? 0)%Z then "-" :: to_string (Z.to_N (- z)) else to_string (Z.to_N z).

(** [os << std::right << std::setw(w) << s]: left padding with the fill
    character (a space) up to width [w]; never truncates. *)
Definition setw (w : nat) (s : str) : str := replicate (w - length s) SP ++ s.

Definition isspace (c : ascii) : bool :=
  eqc c SP || eqc c "009" || eqc c "010" || eqc c "011" || eqc c "012" || eqc c "013".

Definition is_digit (c : ascii) : bool :=
  match digit_val c with Some _ => true | None => false end.

(** value of the longest prefix of decimal digits, continuing from [acc] *)
Fixpoint digits_value (acc : N) (s : str) : N :=
  match s with
  | [] => acc
  | c :: s' =>
      match digit_val c with
      | Some d => digits_value (acc * 10 + d) s'
      | None => acc
      end
  end.

(** [strtoull(s, NULL, 10)] of the C library: leading white space, an
    optional sign, then decimal digits; no digits gives 0; a value out of
    range gives [ULLONG_MAX]; a minus sign negates in the unsigned type. *)
Definition strtoull (s : str) : N :=
  let s1 := drop_while isspace s in
  let '(neg, s2) :=
    match s1 with
    | c :: r => if eqc c "-" then (true, r) else if eqc c "+" then (false, r) else (false, s1)
    | [] => (false, s1)
    end in
  let v := digits_value 0 s2 in
  if (ULLONG_MAX <? v)%N then ULLONG_MAX
  else if neg then ((ULLONG_MAX + 1 - v) mod (ULLONG_MAX + 1))%N else v.

(** [strtoul(s, NULL, 10)]: [unsigned long] is the 64-bit type on the LP64
    Linux the daemon is written for. *)
Definition strtoul (s : str) : N := strtoull s.

(** ** Streams

    [std::fstream] over a file: the bytes, one position shared by reads and
    writes (as [std::filebuf] has it), and the [eofbit] and [failbit] of the
    stream state. *)

Record fstream : Type := mkStream {
  buf : str;
  pos : nat;
  eofbit : bool;
  failbit : bool
}.

Definition open_stream (content : str) : fstream := mkStream content 0 false false.

Definition good (f : fstream) : bool := negb (eofbit f) && negb (failbit f).

Definition set_fail (f : fstream) : fstream := mkStream (buf f) (pos f) (eofbit f) true.

(** [f.get(c)]: one character; at end of file sets [eofbit] and [failbit].
    The result is [None] exactly when the stream then tests false. *)
Definition get (f : fstream) : option ascii * fstream :=
  if good f then
    match buf f !! pos f with
    | Some c => (Some c, mkStream (buf f) (S (pos f)) false false)
    | None => (None, mkStream (buf f) (pos f) true true)
    end
  else (None, set_fail f).

(** [f.get(s, n)]: up to [n-1] characters, stopping before a newline, which
    stays in the stream; [failbit] when nothing was stored, [eofbit] when the
    end of the file was seen (libstdc++ looks at the next character even
    after the last one stored).  The array always ends up NUL-terminated. *)
Definition get_n (f : fstream) (n : nat) : str * fstream :=
  if good f then
    let chunk := take_while (fun c => negb (eqc c NL)) (take (n - 1) (drop (pos f) (buf f))) in
    let p := (pos f + length chunk)%nat in
    (chunk, mkStream (buf f) p (bool_decide (length (buf f) <= p)%nat)
                     (bool_decide (length chunk = 0)%nat))
  else ([], set_fail f).

(** [f.seekg(off, f.cur)]: clears [eofbit], then moves unless the stream has
    failed; a move before the start of the file fails. *)
Definition seekg_cur (f : fstream) (off : Z) : fstream :=
  if failbit f then mkStream (buf f) (pos f) false true
  else
    let p := (Z.of_nat (pos f) + off)%Z in
    if (p <? 0)%Z then mkStream (buf f) (pos f) false true
    else mkStream (buf f) (Z.to_nat p) false false.

(** bytes written at position [p]: overwrite in place, extend at the end
    (a position past the end leaves a hole of NUL bytes) *)
Definition overwrite (b : str) (p : nat) (s : str) : str :=
  take p b ++ replicate (p - length b) NUL ++ s ++ drop (p + length s) b.

(** [f << s]: nothing is written unless the stream is good. *)
Definition put (f : fstream) (s : str) : fstream :=
  if good f then
    mkStream (overwrite (buf f) (pos f) s) (pos f + length s) false false
  else set_fail f.

(** the inner loop [while (f.get(c)) { if (c == '\n') break; }] over the
    bytes [rest] that lie ahead of position [p]: the position it stops at
    and whether it ran into the end of the file *)
Fixpoint skip_line (rest : str) (p : nat) : nat * bool :=
  match rest with
  | [] => (p, true)
  | c :: rest' => if eqc c NL then (S p, false) else skip_line rest' (S p)
  end.

Definition read_to_newline (f : fstream) : fstream :=
  if good f then
    let '(p, eof) := skip_line (drop (pos f) (buf f)) (pos f) in
    mkStream (buf f) p eof eof
  else set_fail f.

(** ** Data model *)

(** Modelled from the spec: [hb::SuspiciosAddressType] is declared in
    config.h, which is not under src/.  The spec gives the four numeric
    fields as unsigned integers and the three flags as booleans; data.cpp
    assigns the numeric fields from [strtoull] and [strtoul], so they are
    modelled as [N] holding a 64-bit unsigned value. *)
Record SuspiciosAddressType : Type := mkAddress {
  lastActivity : N;
  activityScore : N;
  activityCount : N;
  refusedCount : N;
  whitelisted : bool;
  blacklisted : bool;
  iptableRule : bool
}.

Global Instance SuspiciosAddressType_eq_dec : EqDecision SuspiciosAddressType.
Proof. solve_decision. Defined.

(** Modelled from the spec: [hb::LogFile], [hb::Pattern] and [hb::LogGroup]
    are declared in config.h, which is not under src/: a log file has a path
    and a bookmark offset/size pair (unsigned 64-bit), a log group has a name,
    an ordered list of log files and an ordered list of patterns.  (The
    fields [path], [bookmark] and [size] carry the prefix [lf_].) *)
Record LogFile : Type := mkLogFile {
  lf_path : str;
  lf_bookmark : N;
  lf_size : N
}.

Record Pattern : Type := mkPattern {
  pattern : str;
  score : N
}.

Record LogGroup : Type := mkLogGroup {
  name : str;
  logFiles : list LogFile;
  patterns : list Pattern
}.

(** The part of [hb::Config] the store reads: the data file path and the
    log groups. *)
Record Config : Type := mkConfig {
  dataFilePath : str;
  logGroups : list LogGroup
}.

(** Modelled from the spec: [hb::Logger] is declared in logger.h, which is
    not under src/.  Every failure and correction is reported as "a
    human-readable log message": the log is the list of messages, oldest
    first, each with the severity of the method that was called. *)
Inductive level : Type := LInfo | LWarning | LError | LDebug.

Global Instance level_eq_dec : EqDecision level.
Proof. solve_decision. Defined.

(** [struct tm] as filled in by [localtime]. *)
Record tm : Type := mkTm {
  tm_sec : Z;
  tm_min : Z;
  tm_hour : Z;
  tm_mday : Z;
  tm_mon : Z;
  tm_year : Z
}.

(** What the operating system decides: the local time, whether the process
    may open the data file for writing, and whether [rename] succeeds. *)
Record env : Type := mkEnv {
  now : tm;
  can_write : bool;
  can_rename : bool
}.

(** The [hb::Data] object with the objects it points to (logger, config) and
    the file system it works on. *)
Record state : Type := mkState {
  log : list (level * str);
  config : Config;
  suspiciousAddresses : gmap str SuspiciosAddressType;
  files : gmap str str
}.

Definition log_msg (l : level) (msg : str) (st : state) : state :=
  mkState (log st ++ [(l, msg)]) (config st) (suspiciousAddresses st) (files st).

Definition set_config (c : Config) (st : state) : state :=
  mkState (log st) c (suspiciousAddresses st) (files st).

Definition set_addresses (m : gmap str SuspiciosAddressType) (st : state) : state :=
  mkState (log st) (config st) m (files st).

Definition set_files (fs : gmap str str) (st : state) : state :=
  mkState (log st) (config st) (suspiciousAddresses st) fs.

(** *** [std::map<std::string, SuspiciosAddressType>] *)

(** [std::string] comparison: lexicographic on the bytes as unsigned values *)
Fixpoint str_leb (a b : str) : bool :=
  match a, b with
  | [], _ => true
  | _ :: _, [] => false
  | x :: a', y :: b' =>
      if (N_of_ascii x <? N_of_ascii y)%N then true
      else if (N_of_ascii y <? N_of_ascii x)%N then false
      else str_leb a' b'
  end.

Definition key_le (x y : str * SuspiciosAddressType) : Prop := str_leb x.1 y.1.

Global Instance key_le_dec x y : Decision (key_le x y).
Proof. unfold key_le. apply _. Defined.

(** iteration from [begin()] to [end()]: the entries in key order *)
Definition entries (m : gmap str SuspiciosAddressType) : list (str * SuspiciosAddressType) :=
  merge_sort key_le (map_to_list m).

(** [m.insert(pair(k, v))]: an existing key is not overwritten; the boolean
    is the [second] of the result. *)
Definition map_insert (k : str) (v : SuspiciosAddressType)
    (m : gmap str SuspiciosAddressType) : gmap str SuspiciosAddressType * bool :=
  match m !! k with
  | Some _ => (m, false)
  | None => (<[k := v]> m, true)
  end.

(** a value-initialised record *)
Definition zero_address : SuspiciosAddressType := mkAddress 0 0 0 0 false false false.

(** [m[k]]: a missing key is first inserted with a value-initialised record. *)
Definition map_index (k : str) (m : gmap str SuspiciosAddressType)
    : SuspiciosAddressType * gmap str SuspiciosAddressType :=
  match m !! k with
  | Some v => (v, m)
  | None => (zero_address, <[k := zero_address]> m)
  end.

(** ** The on-disk format *)

Definition flag_char (b : bool) : str := if b then lit "y" else lit "n".

(** the fields written after the address field *)
Definition payload_fields (d : SuspiciosAddressType) : str :=
  setw 20 (to_string (lastActivity d)) ++
  setw 10 (to_string (activityScore d)) ++
  setw 10 (to_string (activityCount d)) ++
  setw 10 (to_string (refusedCount d)) ++
  flag_char (whitelisted d) ++
  flag_char (blacklisted d).

(** the payload [updateAddress] writes, newline included *)
Definition payload (d : SuspiciosAddressType) : str := payload_fields d ++ [NL].

(** the line [saveData] and [addAddress] write for an address *)
Definition address_line (address : str) (d : SuspiciosAddressType) : str :=
  lit "d" ++ setw 39 address ++ payload d.

(** the line [saveData] writes for a log file *)
Definition bookmark_line (lf : LogFile) : str :=
  lit "b" ++ setw 20 (to_string (lf_bookmark lf)) ++ setw 20 (to_string (lf_size lf)) ++
  lf_path lf ++ [NL].

(** the lines [getline] returns, one after the other, until it fails *)
Fixpoint getlines (s : str) : list str :=
  match s with
  | [] => []
  | c :: s' =>
      if eqc c NL then [] :: getlines s'
      else match getlines s' with
           | [] => [[c]]
           | l :: ls => (c :: l) :: ls
           end
  end.

(** ** [Data::addFile], [Data::updateFile], [Data::removeFile]

    The three bookmark operations have an empty body followed by
    [return false]. *)

Definition addFile (filePath : str) (st : state) : bool * state := (false, st).

Definition updateFile (filePath : str) (st : state) : bool * state := (false, st).

Definition removeFile (filePath : str) (st : state) : bool * state := (false, st).

(** ** [Data::saveData] *)

Definition all_logFiles (c : Config) : list LogFile :=
  concat (map logFiles (logGroups c)).

(** everything the two loops of [saveData] send to the stream *)
Definition store_image (m : gmap str SuspiciosAddressType) (c : Config) : str :=
  concat (map (fun kv => address_line kv.1 kv.2) (entries m)) ++
  concat (map bookmark_line (all_logFiles c)).

Definition saveData (e : env) (st : state) : bool * state :=
  let st := log_msg LInfo (lit "Updating data in " ++ dataFilePath (config st)) st in
  if can_write e then
    (true, set_files (<[dataFilePath (config st) :=
                          store_image (suspiciousAddresses st) (config st)]> (files st)) st)
  else
    (false, log_msg LError (lit "Unable to open datafile for writting!") st).

(** ** [Data::loadData] *)

(** the inner loop over the log files of one group: the first file with the
    given path receives the bookmark and the size *)
Fixpoint mark_logFiles (p : str) (b s : N) (lfs : list LogFile) : option (list LogFile) :=
  match lfs with
  | [] => None
  | lf :: lfs' =>
      if eqs (lf_path lf) p then Some (mkLogFile (lf_path lf) b s :: lfs')
      else option_map (cons lf) (mark_logFiles p b s lfs')
  end.

(** the outer loop over the log groups, left as soon as a file was found *)
Fixpoint mark_logGroups (p : str) (b s : N) (lgs : list LogGroup) : option (list LogGroup) :=
  match lgs with
  | [] => None
  | lg :: lgs' =>
      match mark_logFiles p b s (logFiles lg) with
      | Some lfs => Some (mkLogGroup (name lg) lfs (patterns lg) :: lgs')
      | None => option_map (cons lg) (mark_logGroups p b s lgs')
      end
  end.

(** the fields of a line that passed the test on its type and length;
    [None] stands for [std::out_of_range] *)
Definition parse_address (line : str) : option (str * SuspiciosAddressType * bool) :=
  a ← substr line 1 39;
  la ← substr line 40 20;
  asc ← substr line 60 10;
  ac ← substr line 70 10;
  rc ← substr line 80 10;
  w ← substr line 90 1;
  b ← substr line 91 1;
  let wl := eqs w (lit "y") in
  let bl := eqs b (lit "y") in
  let both := wl && bl in
  Some (Util.ltrim a,
        mkAddress (strtoull (c_str (Util.ltrim la)))
                  (strtoul (c_str (Util.ltrim asc)))
                  (strtoul (c_str (Util.ltrim ac)))
                  (strtoul (c_str (Util.ltrim rc)))
                  wl (if both then false else bl) false,
        both).

Definition parse_bookmark (line : str) : option (N * N * str) :=
  b ← substr line 1 20;
  s ← substr line 21 20;
  p ← substr_from line 41;
  Some (strtoull (c_str (Util.ltrim b)), strtoull (c_str (Util.ltrim s)),
        Util.rtrim (Util.ltrim p)).

(** one turn of the loop [while (getline(f, line))]; the boolean is
    [duplicatesFound]; [None] stands for an uncaught [std::out_of_range] *)
Definition loadLine (line : str) (acc : state * bool) : option (state * bool) :=
  let '(st, duplicatesFound) := acc in
  let recordType := take 1 line in
  if eqs recordType (lit "d") && bool_decide (length line = 92)%nat then
    '(address, data, both) ← parse_address line;
    let st :=
      if both : bool then
        log_msg LWarning (lit "Address " ++ address ++
          lit " is in whitelist and at the same time in blacklist! Removing address from blacklist...") st
      else st in
    let '(m, inserted) := map_insert address data (suspiciousAddresses st) in
    let st := set_addresses m st in
    if inserted then Some (st, duplicatesFound)
    else Some (log_msg LWarning (lit "Address" ++ address ++
                 lit " is duplicated in data file, new datafile without duplicates will be created!") st,
               true)
  else if eqs recordType (lit "b") then
    '(bookmark, size, logFilePath) ← parse_bookmark line;
    match mark_logGroups logFilePath bookmark size (logGroups (config st)) with
    | Some lgs =>
        let st := set_config (mkConfig (dataFilePath (config st)) lgs) st in
        Some (log_msg LDebug (lit "Bookmark: " ++ to_string bookmark ++ lit " Size: " ++
                              to_string size ++ lit " Path: " ++ logFilePath) st,
              duplicatesFound)
    | None =>
        let st := log_msg LWarning (lit "Bookmark information in datafile for log file " ++
                    logFilePath ++
                    lit " found, but file not present in configuration. Removing from datafile...") st in
        Some ((removeFile logFilePath st).2, duplicatesFound)
    end
  else Some (st, duplicatesFound).

Fixpoint loadLines (lines : list str) (acc : state * bool) : option (state * bool) :=
  match lines with
  | [] => Some acc
  | line :: lines' => acc' ← loadLine line acc; loadLines lines' acc'
  end.

(** a number of the time stamp, with the "0" put in front of a single
    character *)
Definition two_chars (z : Z) : str :=
  let s := to_string_int z in
  if bool_decide (length s = 1)%nat then lit "0" ++ s else s.

Definition backup_name (dataFile : str) (t : tm) : str :=
  dataFile ++ lit "_" ++ to_string_int (tm_year t + 1900) ++
  two_chars (tm_mon t + 1) ++ two_chars (tm_mday t) ++ two_chars (tm_hour t) ++
  two_chars (tm_min t) ++ two_chars (tm_sec t) ++ lit ".bck".

(** [std::rename(from, to)]; [true] stands for the result 0 *)
Definition rename (e : env) (from to : str) (st : state) : bool * state :=
  match files st !! from with
  | Some content =>
      if can_rename e then (true, set_files (<[to := content]> (delete from (files st))) st)
      else (false, st)
  | None => (false, st)
  end.

(** the part of [loadData] that follows [if (duplicatesFound)] *)
Definition backup_and_save (e : env) (st : state) : bool * state :=
  let newDataFileName := backup_name (dataFilePath (config st)) (now e) in
  match files st !! newDataFileName with
  | None =>
      let '(renamed, st) := rename e (dataFilePath (config st)) newDataFileName st in
      if renamed then
        let '(saved, st) := saveData e st in
        if saved then
          (true, log_msg LWarning (lit "Duplicate data found while reading data file! Old data file stored as " ++
                   newDataFileName ++
                   lit ", new data file without duplicates saved! Merge manually if needed.") st)
        else
          (false, log_msg LError (lit "Current data file contains duplicate entries, renamed data file successfully, but failed to save new data file!") st)
      else
        (false, log_msg LError (lit "Current data file contains duplicate entries and backup creation failed (file rename failure)!") st)
  | Some _ =>
      (false, log_msg LError (lit "Current data file contains duplicate entries and backup creation failed (backup with same name already exists)!") st)
  end.

Definition loaded_msg (st : state) : state :=
  log_msg LInfo (lit "Loaded " ++ to_string (N.of_nat (size (suspiciousAddresses st))) ++
                 lit " IP address record(s)") st.

(** [None] stands for an uncaught [std::out_of_range] *)
Definition loadData (e : env) (st : state) : option (bool * state) :=
  let st := log_msg LInfo (lit "Loading data from " ++ dataFilePath (config st)) st in
  match files st !! dataFilePath (config st) with
  | Some content =>
      '(st, duplicatesFound) ← loadLines (getlines content) (set_addresses ∅ st, false);
      if duplicatesFound : bool then
        let '(ok, st) := backup_and_save e st in
        if ok then Some (true, loaded_msg st) else Some (false, st)
      else Some (true, loaded_msg st)
  | None =>
      let st := log_msg LWarning (lit "Unable to open datafile for reading!") st in
      let '(saved, st) := saveData e st in
      if saved then Some (true, st)
      else Some (false, log_msg LError (lit "Unable to create new empty data file!") st)
  end.

(** ** [Data::addAddress] *)

Definition addAddress (e : env) (address : str) (st : state) : bool * state :=
  let st := log_msg LDebug (lit "Adding record to " ++ dataFilePath (config st) ++
                            lit ", adding address " ++ address) st in
  if can_write e then
    let '(d, m) := map_index address (suspiciousAddresses st) in
    let old := default [] (files st !! dataFilePath (config st)) in
    (true, set_files (<[dataFilePath (config st) := old ++ address_line address d]> (files st))
             (set_addresses m st))
  else
    (false, log_msg LError (lit "Unable to open datafile for writting!") st).

(** ** [Data::updateAddress] and [Data::removeAddress]

    Both functions run the same loop over the bytes of the file and differ
    in what they do with the stream once the address matched. *)

(** [std::fstream f(path, in | out)]: the file must exist and be writable. *)
Definition open_rw (e : env) (st : state) : option fstream :=
  if can_write e then open_stream <$> files st !! dataFilePath (config st) else None.

Definition match_action : Type :=
  fstream -> gmap str SuspiciosAddressType -> fstream * gmap str SuspiciosAddressType.

(** the loop [while (f.get(c))]; the boolean is [recordFound]; [None] only
    when the fuel runs out *)
Fixpoint scan_loop (on_match : match_action) (address : str) (fuel : nat)
    (f : fstream) (m : gmap str SuspiciosAddressType)
    : option (fstream * gmap str SuspiciosAddressType * bool) :=
  match fuel with
  | O => None
  | S fuel' =>
      match get f with
      | (None, f) => Some (f, m, false)
      | (Some c, f) =>
          if eqc c "d" then
            let '(fAddress, f) := get_n f 40 in
            if eqs (Util.ltrim (c_str fAddress)) address then
              let '(f, m) := on_match f m in Some (f, m, true)
            else scan_loop on_match address fuel' (seekg_cur f 53) m
          else
            scan_loop on_match address fuel' (read_to_newline (seekg_cur f 41)) m
      end
  end.

(** every turn of the loop that does not leave it consumes a byte of the
    file, so one more turn than the file has bytes is enough *)
Definition scan (on_match : match_action) (address : str)
    (f : fstream) (m : gmap str SuspiciosAddressType)
    : fstream * gmap str SuspiciosAddressType * bool :=
  default (f, m, false) (scan_loop on_match address (S (length (buf f))) f m).

(** what [updateAddress] does on a match *)
Definition update_record (address : str) : match_action := fun f m =>
  let '(d, m) := map_index address m in
  let f := put f (setw 20 (to_string (lastActivity d))) in
  let f := put f (setw 10 (to_string (activityScore d))) in
  let f := put f (setw 10 (to_string (activityCount d))) in
  let f := put f (setw 10 (to_string (refusedCount d))) in
  let f := put f (flag_char (whitelisted d)) in
  let f := put f (flag_char (blacklisted d)) in
  let f := put f [NL] in
  (f, m).

(** what [removeAddress] does on a match *)
Definition remove_record : match_action := fun f m =>
  let f := seekg_cur f (-40) in
  let f := put f (lit "r") in
  (f, m).

Definition close_stream (f : fstream) (st : state) : state :=
  set_files (<[dataFilePath (config st) := buf f]> (files st)) st.

Definition updateAddress (e : env) (address : str) (st : state) : bool * state :=
  let st := log_msg LDebug (lit "Updating record in " ++ dataFilePath (config st) ++
                            lit ", updating address " ++ address) st in
  match open_rw e st with
  | Some f =>
      let '(f, m, recordFound) := scan (update_record address) address f (suspiciousAddresses st) in
      let st := close_stream f (set_addresses m st) in
      if recordFound then (true, st)
      else (false, log_msg LError (lit "Unable to update " ++ address ++
                     lit " in data file, record not found in data file!") st)
  | None => (false, log_msg LError (lit "Unable to open datafile for update!") st)
  end.

Definition removeAddress (e : env) (address : str) (st : state) : bool * state :=
  let st := log_msg LDebug (lit "Removing record from " ++ dataFilePath (config st) ++
                            lit ", removing address " ++ address) st in
  match open_rw e st with
  | Some f =>
      let '(f, m, recordFound) := scan remove_record address f (suspiciousAddresses st) in
      let st := close_stream f (set_addresses m st) in
      if recordFound then (true, st)
      else (false, log_msg LError (lit "Tried removing address " ++ address ++
                     lit " from datafile, but record is not present in datafile!") st)
  | None => (false, log_msg LError (lit "Unable to open datafile for update!") st)
  end.

(** the loop on its own: the action on a match leaves the stream and the
    index as they are *)
Definition no_action : match_action := fun f m => (f, m).

(** whether the byte-wise scan of a file with the given content finds a
    live ['d'] record whose address field matches [address] *)
Definition scan_finds (address content : str) : bool :=
  (scan no_action address (open_stream content) ∅).2.

(** ** The records of a store file

    What the loader takes from a file, stated on the lines of the file. *)

(** a line that begins with ['d'] and has the full width of an address
    record: the type byte and 91 bytes of payload *)
Definition full_width (line : str) : Prop :=
  head line = Some "d" /\ length line = (1 + 91)%nat.

Global Instance full_width_dec line : Decision (full_width line).
Proof. unfold full_width. apply _. Defined.

(** the key and the record [loadData] decodes from a line *)
Definition decode_address (line : str) : option (str * SuspiciosAddressType) :=
  (fun r => (r.1.1, r.1.2)) <$> parse_address line.

(** the address records of a file, in file order *)
Definition address_records (content : str) : list (str * SuspiciosAddressType) :=
  omap decode_address (filter full_width (getlines content)).

(** ** The name of the backup file (specification level) *)

(** the [w] low decimal digits of [z], most significant first: a number
    "zero-padded" to [w] digits *)
Fixpoint zero_padded (w : nat) (z : Z) : str :=
  match w with
  | O => []
  | S w' => zero_padded w' (z / 10) ++ [digit_char (Z.to_N (z mod 10))]
  end.

(** YYYYMMDDHHMMSS *)
Definition timestamp (t : tm) : str :=
  zero_padded 4 (tm_year t + 1900) ++ zero_padded 2 (tm_mon t + 1) ++
  zero_padded 2 (tm_mday t) ++ zero_padded 2 (tm_hour t) ++
  zero_padded 2 (tm_min t) ++ zero_padded 2 (tm_sec t).

(** the ranges of the fields [localtime] fills in, for a year of four
    digits *)
Definition valid_tm (t : tm) : Prop :=
  (0 <= tm_sec t <= 60)%Z /\ (0 <= tm_min t <= 59)%Z /\ (0 <= tm_hour t <= 23)%Z /\
  (1 <= tm_mday t <= 31)%Z /\ (0 <= tm_mon t <= 11)%Z /\
  (1000 <= tm_year t + 1900 <= 9999)%Z.

Global Instance valid_tm_dec t : Decision (valid_tm t).
Proof. unfold valid_tm. apply _. Defined.

(** ** Well-formed store files (specification level) *)

(** the bytes of a file made of the given lines, each ended by a newline *)
Definition lines_image (ls : list str) : str :=
  concat (map (fun l => l ++ [NL]) ls).

(** the address field of a line, trimmed *)
Definition line_address (line : str) : str := Util.ltrim (take 39 (drop 1 line)).

(** a live address line for [address] *)
Definition matches (address : str) (line : str) : Prop :=
  head line = Some "d" /\ line_address line = address.

(** a line as the store writes it: without a newline inside, and either an
    address line of full width whose address field has no NUL byte, or a
    line of another type (bookmark, tombstone) of at least 42 bytes, which
    for a bookmark line means a path that is not empty *)
Definition scannable (line : str) : Prop :=
  (NL ∉ line) /\
  ((full_width line /\ (NUL ∉ take 39 (drop 1 line))) \/
   (head line <> Some "d" /\ (42 <= length line)%nat)).

Global Instance matches_dec address line : Decision (matches address line).
Proof. unfold matches. apply _. Defined.

Global Instance scannable_dec line : Decision (scannable line).
Proof. unfold scannable. apply _. Defined.

(** the values of a record fit their type and their columns *)
Definition fits_columns (d : SuspiciosAddressType) : Prop :=
  (lastActivity d <= ULLONG_MAX)%N /\
  (activityScore d < 10 ^ 10)%N /\
  (activityCount d < 10 ^ 10)%N /\
  (refusedCount d < 10 ^ 10)%N.

Global Instance fits_columns_dec d : Decision (fits_columns d).
Proof. unfold fits_columns. apply _. Defined.

(** ** Round trip (specification level) *)

(** the persisted fields of a record: [iptableRule] is not written, and is
    [false] after a load *)
Definition persisted (d : SuspiciosAddressType) : SuspiciosAddressType :=
  mkAddress (lastActivity d) (activityScore d) (activityCount d) (refusedCount d)
            (whitelisted d) (blacklisted d) false.

(** an address the format can carry: at most 39 characters, no newline,
    no space in front *)
Definition storable_address (a : str) : Prop :=
  (length a <= 39)%nat /\ (NL ∉ a) /\ Util.ltrim a = a.

Global Instance storable_address_dec a : Decision (storable_address a).
Proof. unfold storable_address. apply _. Defined.

(** the lines of the file [saveData] writes, without their newlines *)
Definition stored_address (kv : str * SuspiciosAddressType) : str :=
  lit "d" ++ setw 39 kv.1 ++ payload_fields kv.2.

Definition stored_bookmark (lf : LogFile) : str :=
  lit "b" ++ setw 20 (to_string (lf_bookmark lf)) ++ setw 20 (to_string (lf_size lf)) ++
  lf_path lf.

(** ** Concrete stores *)

Module Examples.

Definition dataFile : str := lit "/var/lib/hostblock/hostblock.db".

(** 2026-01-02 03:04:05; the data file may be written and renamed *)
Definition os : env := mkEnv (mkTm 5 4 3 2 0 126) true true.

Definition cfg : Config :=
  mkConfig dataFile
    [mkLogGroup (lit "OpenSSH") [mkLogFile (lit "/var/log/auth.log") 0 0] []].

Definition addr : str := lit "203.0.113.5".
Definition other : str := lit "198.51.100.7".

Definition rec1 : SuspiciosAddressType := mkAddress 1700000000 1 1 0 false false false.
Definition rec7 : SuspiciosAddressType := mkAddress 1700000300 7 4 2 false true false.
Definition rec_both : SuspiciosAddressType := mkAddress 1700000000 3 2 0 true true false.

Definition with_file (m : gmap str SuspiciosAddressType) (c : Config) (content : str) : state :=
  mkState [] c m {[ dataFilePath c := content ]}.

Definition loaded (e : env) (st : state) : state :=
  match loadData e st with Some (_, st') => st' | None => st end.

(** a full line for [addr], a ['d'] line cut short, a bookmark line *)
Definition short_line : str := lit "d     203.0.113.5".
Definition mixed : str :=
  address_line addr rec1 ++ short_line ++ [NL] ++
  bookmark_line (mkLogFile (lit "/var/log/auth.log") 120 4096).
Definition st_mixed : state := with_file ∅ cfg mixed.

(** an orphaned bookmark *)
Definition orphan : str := bookmark_line (mkLogFile (lit "/var/log/old.log") 5 10).
Definition st_orphan : state := with_file ∅ cfg orphan.

(** two lines for one address *)
Definition line1 : str := stored_address (addr, rec1).
Definition line7 : str := stored_address (addr, rec7).
Definition twice : str := lines_image [line1; line7].
Definition st_twice : state := with_file ∅ cfg twice.

(** a line with both flags set *)
Definition line_both : str := stored_address (addr, rec_both).
Definition st_both : state := with_file ∅ cfg (lines_image [line_both]).

(** a store with a tombstone, a bookmark and two addresses *)
Definition tomb : str := "r" :: drop 1 (stored_address (lit "192.0.2.1", rec1)).
Definition bm : str := stored_bookmark (mkLogFile (lit "/var/log/auth.log") 120 4096).
Definition line_other : str := stored_address (other, rec7).
Definition st_store : state :=
  with_file {[ addr := rec7; other := rec7 ]} cfg
            (lines_image ([tomb; bm; line_other] ++ line1 :: [bm])).

(** a store without a line for [addr] *)
Definition st_missing : state :=
  with_file {[ addr := rec7 ]} cfg (lines_image [tomb; bm; line_other]).

(** an index ready for compaction *)
Definition st_index : state := mkState [] cfg {[ addr := rec7; other := rec1 ]} ∅.

(** an address with a space in front; a record with both flags; a record
    with a firewall rule; a log file whose path holds a newline and the
    text of a record *)
Definition st_space : state := mkState [] cfg {[ lit " 203.0.113.5" := rec1 ]} ∅.
Definition st_flags : state := mkState [] cfg {[ addr := rec_both ]} ∅.
Definition st_rule : state :=
  mkState [] cfg {[ addr := mkAddress 1700000000 1 1 0 false false true ]} ∅.
Definition cfg_newline : Config :=
  mkConfig dataFile
    [mkLogGroup (lit "OpenSSH") [mkLogFile (lit "x" ++ [NL] ++ line1) 0 0] []].
Definition st_newline : state := mkState [] cfg_newline ∅ ∅.

(** a configuration that declares a log file with an empty path; the store
    after compaction and the append of [addr] *)
Definition cfg_empty : Config :=
  mkConfig dataFile [mkLogGroup (lit "OpenSSH") [mkLogFile [] 0 0] []].
Definition st_empty_path : state :=
  (addAddress os addr
     (set_addresses {[ addr := rec1 ]} (saveData os (mkState [] cfg_empty ∅ ∅)).2)).2.

(** the same store once the record of [addr] has new values in memory *)
Definition st_empty_update : state := set_addresses {[ addr := rec7 ]} st_empty_path.

(** the content of the data file *)
Definition content_of (st : state) : str := default [] (files st !! dataFile).

(** a score of eleven digits *)
Definition rec_wide : SuspiciosAddressType := mkAddress 1700000000 10000000000 1 0 false false false.
Definition st_wide : state :=
  with_file {[ addr := rec_wide ]} cfg (lines_image [line1; line_other]).

End Examples.

(** * Configurations up to their bookmarks (specification level) *)

(** the configuration with [f] applied to every log file *)
Definition map_logFiles (f : LogFile -> LogFile) (c : Config) : Config :=
  mkConfig (dataFilePath c)
    (map (fun lg => mkLogGroup (name lg) (map f (logFiles lg)) (patterns lg)) (logGroups c)).

(** a log file of which nothing was read yet *)
Definition unread (lf : LogFile) : LogFile := mkLogFile (lf_path lf) 0 0.

(** the log file of [lfs] that has the path of [lf0], if there is one *)
Fixpoint restore (lfs : list LogFile) (lf0 : LogFile) : LogFile :=
  match lfs with
  | [] => lf0
  | lf :: lfs' => if eqs (lf_path lf0) (lf_path lf) then lf else restore lfs' lf0
  end.

(** a bookmark the format can carry: a path without a newline and without
    spaces around it, and two values of the 64-bit type *)
Definition storable_logFile (lf : LogFile) : Prop :=
  (NL ∉ lf_path lf) /\ Util.rtrim (Util.ltrim (lf_path lf)) = lf_path lf /\
  (lf_bookmark lf <= ULLONG_MAX)%N /\ (lf_size lf <= ULLONG_MAX)%N.

Global Instance storable_logFile_dec lf : Decision (storable_logFile lf).
Proof. unfold storable_logFile. apply _. Defined.

(** [lf'] is [lf], or [lf] with the bookmark and the size of a bookmark
    line among [lines] that names the path of [lf] *)
Definition read_from (lines : list str) (lf lf' : LogFile) : Prop :=
  lf' = lf \/
  exists line b s, line ∈ lines /\ head line = Some "b" /\
    parse_bookmark line = Some (b, s, lf_path lf) /\ lf' = mkLogFile (lf_path lf) b s.

(** ** More concrete stores *)

Module Scenarios.

(** a first start: no data file, nothing configured, nothing in memory *)
Definition cfg_fresh : Config := mkConfig Examples.dataFile [].
Definition st_fresh : state := mkState [] cfg_fresh ∅ ∅.

(** a bookmark line cut short after its first number *)
Definition short_bookmark : str := lit "b                   5" ++ [NL].
Definition st_short_bookmark : state := Examples.with_file ∅ Examples.cfg short_bookmark.

(** an address of 44 characters *)
Definition long_addr : str := lit "2001:0db8:85a3:0000:0000:8a2e:0370:7334%eth0".

(** the lines of [Examples.st_missing] *)
Definition lines_missing : list str := [Examples.tomb; Examples.bm; Examples.line_other].

(** two log files that were read from, and the same configuration as it is
    after a restart *)
Definition cfg_read : Config :=
  mkConfig Examples.dataFile
    [mkLogGroup (lit "OpenSSH") [mkLogFile (lit "/var/log/auth.log") 120 4096] [];
     mkLogGroup (lit "Dovecot") [mkLogFile (lit "/var/log/mail.log") 77 900] []].
Definition cfg_restart : Config := map_logFiles unread cfg_read.
Definition st_read : state := mkState [] cfg_read {[ Examples.addr := Examples.rec7 ]} ∅.

(** what follows the line of [Examples.addr] in a ragged store: a bookmark
    line with an empty path, as [saveData] writes it for a log file
    without a path, and a last line cut short *)
Definition ragged_rest : str :=
  stored_bookmark (mkLogFile [] 0 0) ++ [NL] ++ lit "d        203.0.113.5  1700".
Definition st_ragged : state :=
  Examples.with_file {[ Examples.addr := Examples.rec1 ]} Examples.cfg
    (lines_image [Examples.line1] ++ ragged_rest).

End Scenarios.


(** * Properties *)

(** closed goals about concrete stores are settled by evaluation *)
Ltac by_computation := apply (bool_decide_unpack _); vm_compute; exact I.

Ltac split_all := repeat match goal with |- _ /\ _ => split end.

Ltac settle :=
  match goal with
  | |- _ = _ => vm_compute; reflexivity
  | _ => by_computation
  end.

(** ** Decimal text *)

Lemma to_digits_S fuel n acc :
  to_digits (S fuel) n acc =
  if (n <? 10)%N then digit_char (n mod 10) :: acc
  else to_digits fuel (n / 10) (digit_char (n mod 10) :: acc).
Proof. reflexivity. Qed.

Lemma to_digits_acc fuel n acc : to_digits fuel n acc = to_digits fuel n [] ++ acc.
Proof.
  revert n acc. induction fuel as [|fuel IH]; intros n acc; [done|].
  rewrite !to_digits_S. destruct (n <? 10)%N; [done|].
  rewrite IH, (IH _ [_]). by rewrite <- app_assoc.
Qed.

Lemma to_digits_fuel f1 f2 n acc :
  (n < 2 ^ N.of_nat f1)%N -> f1 <> O ->
  (n < 2 ^ N.of_nat f2)%N -> f2 <> O ->
  to_digits f1 n acc = to_digits f2 n acc.
Proof.
  revert f2 n acc. induction f1 as [|f1 IH]; intros f2 n acc H1 N1 H2 N2; [done|].
  destruct f2 as [|f2]; [done|].
  rewrite !to_digits_S. destruct (n <? 10)%N eqn:E; [done|].
  apply N.ltb_ge in E.
  rewrite Nat2N.inj_succ, N.pow_succ_r' in H1, H2.
  apply IH.
  - apply N.Div0.div_lt_upper_bound; lia.
  - intros ->. simpl in H1. lia.
  - apply N.Div0.div_lt_upper_bound; lia.
  - intros ->. simpl in H2. lia.
Qed.

Lemma to_string_lt10 n : (n < 10)%N -> to_string n = [digit_char n].
Proof.
  intros H. unfold to_string. rewrite to_digits_S.
  apply N.ltb_lt in H as H'. rewrite H'. by rewrite N.mod_small.
Qed.

Lemma log2_bound n : (n < 2 ^ N.of_nat (S (N.to_nat (N.log2 n))))%N.
Proof.
  rewrite Nat2N.inj_succ, N2Nat.id.
  destruct (decide (n = 0%N)) as [->|Hn]; [done|].
  apply N.log2_spec. lia.
Qed.

Lemma to_string_ge10 n :
  (10 <= n)%N -> to_string n = to_string (n / 10) ++ [digit_char (n mod 10)].
Proof.
  intros H. unfold to_string at 1. rewrite to_digits_S.
  apply N.ltb_ge in H as H'. rewrite H'.
  rewrite to_digits_acc. f_equal. unfold to_string.
  pose proof (log2_bound n) as Hn. pose proof (log2_bound (n / 10)) as Hd.
  rewrite Nat2N.inj_succ, N.pow_succ_r' in Hn.
  apply to_digits_fuel; try done.
  - apply N.Div0.div_lt_upper_bound; lia.
  - intros E. rewrite E in Hn. simpl in Hn. lia.
Qed.

Lemma to_string_ind (P : N -> str -> Prop) :
  (forall n, (n < 10)%N -> P n [digit_char n]) ->
  (forall n, (10 <= n)%N -> P (n / 10)%N (to_string (n / 10)) ->
             P n (to_string (n / 10) ++ [digit_char (n mod 10)])) ->
  forall n, P n (to_string n).
Proof.
  intros Hsmall Hstep n.
  induction n as [n IH] using (well_founded_induction N.lt_wf_0).
  destruct (decide (n < 10)%N) as [Hn|Hn].
  - rewrite to_string_lt10 by done. by apply Hsmall.
  - rewrite to_string_ge10 by lia. apply Hstep; [lia|].
    apply IH. apply N.div_lt; lia.
Qed.

Lemma is_digit_plain c :
  is_digit c = true ->
  c <> SP /\ c <> NL /\ c <> NUL /\ isspace c = false /\ c <> "-" /\ c <> "+".
Proof.
  destruct c as [[] [] [] [] [] [] [] []]; vm_compute; intros H;
    try discriminate H; repeat split; congruence.
Qed.

Lemma digit_char_val d : (d < 10)%N -> digit_val (digit_char d) = Some d.
Proof.
  intros H.
  assert (d = 0 \/ d = 1 \/ d = 2 \/ d = 3 \/ d = 4 \/ d = 5 \/ d = 6 \/ d = 7 \/
          d = 8 \/ d = 9)%N as Hd by lia.
  repeat destruct Hd as [-> | Hd]; try subst d; reflexivity.
Qed.

Lemma digit_char_is_digit d : (d < 10)%N -> is_digit (digit_char d) = true.
Proof. intros H. unfold is_digit. by rewrite digit_char_val. Qed.

Lemma to_string_digits n : Forall (fun c => is_digit c = true) (to_string n).
Proof.
  apply (to_string_ind (fun _ s => Forall (fun c => is_digit c = true) s)).
  - intros m Hm. repeat constructor. by apply digit_char_is_digit.
  - intros m Hm IH. apply Forall_app. split; [done|].
    repeat constructor. apply digit_char_is_digit. by apply N.mod_lt.
Qed.

Lemma to_string_nonempty n : to_string n <> [].
Proof.
  apply (to_string_ind (fun _ s => s <> [])); [done|].
  intros m _ _. by destruct (to_string (m / 10)).
Qed.

Lemma to_string_length n w :
  (n < 10 ^ N.of_nat w)%N -> (1 <= w)%nat -> (length (to_string n) <= w)%nat.
Proof.
  revert w.
  apply (to_string_ind (fun n s => forall w, (n < 10 ^ N.of_nat w)%N -> (1 <= w)%nat ->
                                   (length s <= w)%nat)).
  - intros m _ w _ Hw. simpl. lia.
  - intros m Hm IH w Hlt Hw. rewrite length_app. simpl.
    destruct w as [|w]; [lia|].
    rewrite Nat2N.inj_succ, N.pow_succ_r' in Hlt.
    destruct w as [|w]; [simpl in Hlt; lia|].
    specialize (IH (S w)). 
    assert (m / 10 < 10 ^ N.of_nat (S w))%N by (apply N.Div0.div_lt_upper_bound; lia).
    lia.
Qed.

Lemma digits_value_to_string n a rest :
  digits_value a (to_string n ++ rest) =
  digits_value (a * 10 ^ N.of_nat (length (to_string n)) + n) rest.
Proof.
  revert a rest.
  apply (to_string_ind (fun n s => forall a rest,
    digits_value a (s ++ rest) = digits_value (a * 10 ^ N.of_nat (length s) + n) rest)).
  - intros m Hm a rest. simpl. rewrite digit_char_val by done.
    f_equal.
  - intros m Hm IH a rest. rewrite <- app_assoc, IH. simpl.
    rewrite digit_char_val by (by apply N.mod_lt).
    f_equal. rewrite length_app. simpl.
    rewrite Nat.add_1_r, Nat2N.inj_succ, N.pow_succ_r'.
    pose proof (N.div_mod m 10). lia.
Qed.

Lemma digits_value_to_string_0 n : digits_value 0 (to_string n) = n.
Proof.
  pose proof (digits_value_to_string n 0 []) as H.
  rewrite app_nil_r in H. rewrite H. simpl. done.
Qed.

(** ** Streams and the scan *)

Lemma eqc_true a b : eqc a b = true <-> a = b.
Proof. unfold eqc. apply bool_decide_eq_true. Qed.

Lemma eqc_false a b : eqc a b = false <-> a <> b.
Proof. unfold eqc. apply bool_decide_eq_false. Qed.

Lemma eqs_true a b : eqs a b = true <-> a = b.
Proof. unfold eqs. apply bool_decide_eq_true. Qed.

Lemma eqs_false a b : eqs a b = false <-> a <> b.
Proof. unfold eqs. apply bool_decide_eq_false. Qed.

Lemma get_Some f c f' :
  get f = (Some c, f') ->
  buf f !! pos f = Some c /\ f' = mkStream (buf f) (S (pos f)) false false.
Proof.
  unfold get. destruct (good f); [|discriminate].
  destruct (buf f !! pos f) as [c'|]; [|discriminate].
  intros [= -> <-]. done.
Qed.

Lemma get_None_buf f f' : get f = (None, f') -> buf f' = buf f.
Proof.
  unfold get. destruct (good f).
  - destruct (buf f !! pos f); [discriminate|]. by intros [= <-].
  - by intros [= <-].
Qed.

Lemma get_n_buf f n : buf (get_n f n).2 = buf f.
Proof. unfold get_n. by destruct (good f). Qed.

Lemma get_n_pos f n : (pos f <= pos (get_n f n).2)%nat.
Proof. unfold get_n. destruct (good f); simpl; lia. Qed.

Lemma seekg_cur_buf f off : buf (seekg_cur f off) = buf f.
Proof.
  unfold seekg_cur. destruct (failbit f); [done|].
  by destruct (_ <? 0)%Z.
Qed.

Lemma seekg_cur_pos f off : (0 <= off)%Z -> (pos f <= pos (seekg_cur f off))%nat.
Proof.
  intros Hoff. unfold seekg_cur. destruct (failbit f); [done|].
  destruct (_ <? 0)%Z eqn:E; simpl; lia.
Qed.

Lemma skip_line_pos rest p : (p <= (skip_line rest p).1)%nat.
Proof.
  revert p. induction rest as [|c rest IH]; intros p; simpl; [lia|].
  destruct (eqc c NL); simpl; [lia|]. specialize (IH (S p)). lia.
Qed.

Lemma read_to_newline_buf f : buf (read_to_newline f) = buf f.
Proof.
  unfold read_to_newline. destruct (good f); [|done].
  by destruct (skip_line _ _).
Qed.

Lemma read_to_newline_pos f : (pos f <= pos (read_to_newline f))%nat.
Proof.
  unfold read_to_newline. destruct (good f); [|done].
  pose proof (skip_line_pos (drop (pos f) (buf f)) (pos f)).
  by destruct (skip_line _ _).
Qed.

(** The fuel given by [scan] is never used up. *)
Lemma scan_loop_fuel_enough on_match address fuel f m :
  (length (buf f) - pos f < fuel)%nat ->
  is_Some (scan_loop on_match address fuel f m).
Proof.
  revert f m. induction fuel as [|fuel IH]; intros f m Hfuel; [lia|].
  simpl. destruct (get f) as [[c|] f1] eqn:Hget; [|done].
  apply get_Some in Hget as [Hc ->].
  apply lookup_lt_Some in Hc.
  destruct (eqc c "d").
  - destruct (get_n _ 40) as [fAddress f2] eqn:Hn.
    destruct (eqs _ address).
    + by destruct (on_match f2 m).
    + apply IH. rewrite seekg_cur_buf.
      pose proof (get_n_buf (mkStream (buf f) (S (pos f)) false false) 40) as Hb.
      pose proof (get_n_pos (mkStream (buf f) (S (pos f)) false false) 40) as Hp.
      rewrite Hn in Hb, Hp. simpl in Hb, Hp. rewrite Hb.
      pose proof (seekg_cur_pos f2 53). lia.
  - apply IH. rewrite read_to_newline_buf, seekg_cur_buf. simpl.
    pose proof (read_to_newline_pos
      (seekg_cur (mkStream (buf f) (S (pos f)) false false) 41)).
    pose proof (seekg_cur_pos (mkStream (buf f) (S (pos f)) false false) 41).
    simpl in *. lia.
Qed.

(** so [scan] returns what the loop returns *)
Lemma scan_runs on_match address f m :
  scan_loop on_match address (S (length (buf f))) f m = Some (scan on_match address f m).
Proof.
  unfold scan.
  destruct (scan_loop_fuel_enough on_match address (S (length (buf f))) f m) as [r ->];
    [lia|done].
Qed.

(** The loop is a search followed, on a match, by the action. *)
Lemma scan_loop_factor on_match address fuel f m :
  scan_loop on_match address fuel f m =
  match scan_loop no_action address fuel f m with
  | Some (f0, _, true) => let '(f1, m1) := on_match f0 m in Some (f1, m1, true)
  | Some (f0, _, false) => Some (f0, m, false)
  | None => None
  end.
Proof.
  revert f. induction fuel as [|fuel IH]; intros f; [done|].
  simpl. destruct (get f) as [[c|] f1]; [|done].
  destruct (eqc c "d").
  - destruct (get_n f1 40) as [fAddress f2].
    destruct (eqs _ address); [done|]. apply IH.
  - apply IH.
Qed.

(** The search reads only, and its result does not depend on the index. *)
Lemma scan_loop_search_frame address fuel f m f0 m0 b :
  scan_loop no_action address fuel f m = Some (f0, m0, b) ->
  buf f0 = buf f /\ m0 = m.
Proof.
  revert f. induction fuel as [|fuel IH]; intros f; [done|].
  simpl. destruct (get f) as [[c|] f1] eqn:Hget.
  - apply get_Some in Hget as [_ ->].
    destruct (eqc c "d").
    + destruct (get_n _ 40) as [fAddress f2] eqn:Hn.
      pose proof (get_n_buf (mkStream (buf f) (S (pos f)) false false) 40) as Hb.
      rewrite Hn in Hb. simpl in Hb.
      destruct (eqs _ address).
      * unfold no_action. intros [= <- <- <-]. done.
      * intros H. apply IH in H as [H1 H2]. by rewrite H1, seekg_cur_buf.
    + intros H. apply IH in H as [H1 H2].
      by rewrite H1, read_to_newline_buf, seekg_cur_buf.
  - intros [= <- <- <-]. split; [|done]. by eapply get_None_buf.
Qed.

Lemma scan_loop_search_index address fuel f m m' :
  scan_loop no_action address fuel f m' =
  (fun r => (r.1.1, m', r.2)) <$> scan_loop no_action address fuel f m.
Proof.
  revert f. induction fuel as [|fuel IH]; intros f; [done|].
  simpl. destruct (get f) as [[c|] f1]; [|done].
  destruct (eqc c "d").
  - destruct (get_n f1 40) as [fAddress f2].
    destruct (eqs _ address); [done|]. apply IH.
  - apply IH.
Qed.

Lemma scan_factor on_match address f m :
  scan on_match address f m =
  match scan no_action address f m with
  | (f0, _, true) => let '(f1, m1) := on_match f0 m in (f1, m1, true)
  | (f0, _, false) => (f0, m, false)
  end.
Proof.
  unfold scan. rewrite scan_loop_factor.
  destruct (scan_loop no_action address _ f m) as [[[f0 m0] [|]]|]; simpl; try done.
  by destruct (on_match f0 m).
Qed.

Lemma scan_search_frame address f m f0 m0 b :
  scan no_action address f m = (f0, m0, b) -> buf f0 = buf f /\ m0 = m.
Proof.
  unfold scan.
  destruct (scan_loop no_action address _ f m) as [[[f1 m1] b1]|] eqn:E; simpl.
  - intros [= <- <- <-]. by eapply scan_loop_search_frame.
  - by intros [= <- <- <-].
Qed.

Lemma scan_search_found address f m :
  (scan no_action address f m).2 = (scan no_action address f ∅).2.
Proof.
  unfold scan. rewrite (scan_loop_search_index address _ f ∅ m).
  by destruct (scan_loop no_action address _ f ∅) as [[[f1 m1] b1]|].
Qed.

Lemma open_rw_Some e st f :
  open_rw e st = Some f ->
  exists content, files st !! dataFilePath (config st) = Some content /\ f = open_stream content.
Proof.
  unfold open_rw. destruct (can_write e); [|done].
  destruct (files st !! _) as [content|]; [|done].
  intros [= <-]. eauto.
Qed.

Lemma open_rw_found e st content :
  files st !! dataFilePath (config st) = Some content ->
  open_rw e st = if can_write e then Some (open_stream content) else None.
Proof. unfold open_rw. intros ->. by destruct (can_write e). Qed.

(** ** The bookmark operations *)

(** C3 (evaluation of the code): each of the three bookmark operations
    returns [false] and leaves the object and the file system untouched;
    no line is appended, overwritten or tombstoned. *)
Theorem bookmark_operations_do_nothing (filePath : str) (st : state) :
  addFile filePath st = (false, st) /\
  updateFile filePath st = (false, st) /\
  removeFile filePath st = (false, st).
Proof. by unfold addFile, updateFile, removeFile. Qed.

(** ** Failed point mutations *)

(** C10: when [updateAddress] or [removeAddress] returns failure, the file
    system (so every byte of the store file), the address index and the
    configuration are what they were before the call. *)
Theorem failed_mutation_changes_nothing
    (op : env -> str -> state -> bool * state) (e : env) (address : str) (st : state) :
  op = updateAddress \/ op = removeAddress ->
  (op e address st).1 = false ->
  files (op e address st).2 = files st /\
  suspiciousAddresses (op e address st).2 = suspiciousAddresses st /\
  config (op e address st).2 = config st.
Proof.
  intros [-> | ->].
  - unfold updateAddress.
    set (st1 := log_msg LDebug _ st).
    destruct (open_rw e st1) as [f|] eqn:Hopen; [|done].
    apply open_rw_Some in Hopen as (content & Hfile & ->).
    rewrite scan_factor.
    destruct (scan no_action address _ _) as [[f0 m0] [|]] eqn:Hscan.
    + by destruct (update_record address f0 _).
    + apply scan_search_frame in Hscan as [Hbuf _]. simpl. intros _.
      split; [|done]. rewrite Hbuf. by apply insert_id.
  - unfold removeAddress.
    set (st1 := log_msg LDebug _ st).
    destruct (open_rw e st1) as [f|] eqn:Hopen; [|done].
    apply open_rw_Some in Hopen as (content & Hfile & ->).
    rewrite scan_factor.
    destruct (scan no_action address _ _) as [[f0 m0] [|]] eqn:Hscan.
    + by destruct (remove_record f0 _).
    + apply scan_search_frame in Hscan as [Hbuf _]. simpl. intros _.
      split; [|done]. rewrite Hbuf. by apply insert_id.
Qed.

(** C9: when the byte-wise scan of the store file finds no live ['d'] line
    with the target address, [updateAddress] and [removeAddress] both return
    failure, and the last thing each of them does is to log the error. *)
Theorem missing_record_is_reported (e : env) (address : str) (st : state) (content : str) :
  files st !! dataFilePath (config st) = Some content ->
  scan_finds address content = false ->
  (updateAddress e address st).1 = false /\
  last (log (updateAddress e address st).2) =
    Some (LError,
          if can_write e
          then lit "Unable to update " ++ address ++
               lit " in data file, record not found in data file!"
          else lit "Unable to open datafile for update!") /\
  (removeAddress e address st).1 = false /\
  last (log (removeAddress e address st).2) =
    Some (LError,
          if can_write e
          then lit "Tried removing address " ++ address ++
               lit " from datafile, but record is not present in datafile!"
          else lit "Unable to open datafile for update!").
Proof.
  intros Hfile Hfind. unfold scan_finds in Hfind.
  unfold updateAddress, removeAddress.
  set (st1 := log_msg LDebug _ st). set (st2 := log_msg LDebug _ st).
  rewrite (open_rw_found e st1 content), (open_rw_found e st2 content) by done.
  destruct (can_write e).
  - rewrite (scan_factor (update_record address)), (scan_factor remove_record).
    change (suspiciousAddresses st1) with (suspiciousAddresses st).
    change (suspiciousAddresses st2) with (suspiciousAddresses st).
    pose proof (scan_search_found address (open_stream content) (suspiciousAddresses st)) as Hm.
    rewrite Hfind in Hm.
    destruct (scan no_action address (open_stream content) (suspiciousAddresses st))
      as [[f0 m0] b].
    simpl in Hm. rewrite Hm. simpl. by rewrite !last_snoc.
  - simpl. by rewrite !last_snoc.
Qed.

(** ** Padding and trimming *)

Lemma drop_while_replicate p k c s :
  p c = true -> drop_while p (replicate k c ++ s) = drop_while p s.
Proof. intros Hp. induction k as [|k IH]; simpl; [done|]. by rewrite Hp. Qed.

Lemma take_while_all p s :
  Forall (fun c => p c = true) s -> take_while p s = s.
Proof. induction 1 as [|c s Hc _ IH]; simpl; [done|]. by rewrite Hc, IH. Qed.

Lemma length_setw w s : (length s <= w)%nat -> length (setw w s) = w.
Proof. intros H. unfold setw. rewrite length_app, length_replicate. lia. Qed.

Lemma ltrim_setw w s : Util.ltrim s = s -> Util.ltrim (setw w s) = s.
Proof.
  intros H. unfold setw, Util.ltrim in *. by rewrite drop_while_replicate.
Qed.

Lemma ltrim_digits s :
  Forall (fun c => is_digit c = true) s -> Util.ltrim s = s.
Proof.
  intros [|c s' Hc _]; [done|]. unfold Util.ltrim. simpl.
  apply is_digit_plain in Hc as (Hsp & _).
  apply eqc_false in Hsp. by rewrite Hsp.
Qed.

Lemma c_str_digits s :
  Forall (fun c => is_digit c = true) s -> c_str s = s.
Proof.
  intros H. apply take_while_all. eapply Forall_impl; [exact H|].
  intros c Hc. apply is_digit_plain in Hc as (_ & _ & Hnul & _).
  apply eqc_false in Hnul. by rewrite Hnul.
Qed.

Lemma strtoull_to_string n : (n <= ULLONG_MAX)%N -> strtoull (to_string n) = n.
Proof.
  intros Hn. unfold strtoull.
  pose proof (to_string_digits n) as Hd. pose proof (to_string_nonempty n) as Hne.
  pose proof (digits_value_to_string_0 n) as Hv.
  destruct (to_string n) as [|c s]; [done|].
  apply Forall_cons in Hd as [Hc _].
  apply is_digit_plain in Hc as (_ & _ & _ & Hsp & Hminus & Hplus).
  simpl drop_while. rewrite Hsp.
  apply eqc_false in Hminus, Hplus. rewrite Hminus, Hplus, Hv.
  apply N.ltb_ge in Hn. by rewrite Hn.
Qed.

(** what the loader reads back from a number written with [setw] *)
Lemma read_number w n :
  (n <= ULLONG_MAX)%N ->
  strtoull (c_str (Util.ltrim (setw w (to_string n)))) = n.
Proof.
  intros Hn. pose proof (to_string_digits n) as Hd.
  rewrite ltrim_setw by by apply ltrim_digits.
  rewrite c_str_digits by done. by apply strtoull_to_string.
Qed.

Lemma substr_in s pos n :
  (pos <= length s)%nat -> substr s pos n = Some (take n (drop pos s)).
Proof. intros H. unfold substr. by rewrite bool_decide_eq_true_2. Qed.

Lemma take1_d line : eqs (take 1 line) (lit "d") = true <-> head line = Some "d".
Proof.
  rewrite eqs_true. destruct line as [|c line]; [done|].
  change (take 1 (c :: line)) with (c :: take 0 line). rewrite take_0.
  split; intros [= ->]; done.
Qed.

(** the fields of a line of full width *)
Lemma parse_address_full line :
  length line = 92%nat ->
  parse_address line =
  let wl := eqs (take 1 (drop 90 line)) (lit "y") in
  let bl := eqs (take 1 (drop 91 line)) (lit "y") in
  Some (Util.ltrim (take 39 (drop 1 line)),
        mkAddress (strtoull (c_str (Util.ltrim (take 20 (drop 40 line)))))
                  (strtoul (c_str (Util.ltrim (take 10 (drop 60 line)))))
                  (strtoul (c_str (Util.ltrim (take 10 (drop 70 line)))))
                  (strtoul (c_str (Util.ltrim (take 10 (drop 80 line)))))
                  wl (if wl && bl then false else bl) false,
        wl && bl).
Proof.
  intros Hlen. unfold parse_address.
  rewrite !substr_in by lia. reflexivity.
Qed.

(** ** The loader, line by line *)

Lemma full_width_test line :
  eqs (take 1 line) (lit "d") && bool_decide (length line = 92%nat) = true <-> full_width line.
Proof.
  unfold full_width. rewrite andb_true_iff, take1_d, bool_decide_eq_true. done.
Qed.

Lemma decode_address_full line :
  length line = 92%nat -> is_Some (decode_address line).
Proof.
  intros H. unfold decode_address. rewrite parse_address_full by done. simpl. eauto.
Qed.

(** a line of full width is decoded and inserted unless its key is there *)
Lemma loadLine_address line st dup k d :
  full_width line -> decode_address line = Some (k, d) ->
  exists st', loadLine line (st, dup) =
              Some (st', dup || bool_decide (is_Some (suspiciousAddresses st !! k))) /\
    suspiciousAddresses st' = (map_insert k d (suspiciousAddresses st)).1 /\
    files st' = files st /\ config st' = config st /\
    exists extra, log st' = log st ++ extra /\
      (whitelisted d = true -> eqs (take 1 (drop 91 line)) (lit "y") = true ->
       (LWarning, lit "Address " ++ k ++
          lit " is in whitelist and at the same time in blacklist! Removing address from blacklist...")
       ∈ extra).
Proof.
  intros Hfw Hdec. pose proof Hfw as [_ Hlen].
  apply full_width_test in Hfw. unfold loadLine. rewrite Hfw.
  unfold decode_address in Hdec. rewrite parse_address_full in Hdec |- * by done.
  simpl in Hdec. injection Hdec as <- <-. simpl.
  set (k := Util.ltrim _). set (wl := eqs (take 1 (drop 90 line)) _).
  set (bl := eqs (take 1 (drop 91 line)) _). set (d := mkAddress _ _ _ _ _ _ _).
  unfold map_insert.
  destruct (wl && bl) eqn:Hboth; simpl;
    destruct (suspiciousAddresses st !! k) eqn:Hk; simpl;
    rewrite ?orb_true_r, ?orb_false_r;
    eexists; (split; [reflexivity|]); simpl; repeat split; try done.
  - eexists. split; [by rewrite <- app_assoc|]. intros _ _. set_solver.
  - eexists. split; [done|]. intros _ _. set_solver.
  - eexists. split; [done|]. intros Hwl Hbl. rewrite Hwl, Hbl in Hboth. done.
  - exists []. split; [by rewrite app_nil_r|].
    intros Hwl Hbl. rewrite Hwl, Hbl in Hboth. done.
Qed.

(** any other line leaves the index, the files and the flag as they are *)
Lemma loadLine_other line st dup st' dup' :
  ~ full_width line -> loadLine line (st, dup) = Some (st', dup') ->
  suspiciousAddresses st' = suspiciousAddresses st /\ files st' = files st /\
  dataFilePath (config st') = dataFilePath (config st) /\ dup' = dup /\
  exists extra, log st' = log st ++ extra.
Proof.
  intros Hfw. rewrite <- full_width_test in Hfw. apply not_true_is_false in Hfw.
  unfold loadLine. rewrite Hfw.
  destruct (eqs (take 1 line) (lit "b")).
  - destruct (parse_bookmark line) as [[[b s] p]|]; [|done]. simpl.
    destruct (mark_logGroups _ _ _ _); intros [= <- <-]; simpl;
      repeat split; eauto.
  - intros [= <- <-]. repeat split. exists []. by rewrite app_nil_r.
Qed.

(** a ['d'] line of any other length is skipped in silence *)
Lemma loadLine_short line acc :
  head line = Some "d" -> length line <> (1 + 91)%nat -> loadLine line acc = Some acc.
Proof.
  intros Hd Hlen. destruct acc as [st dup]. unfold loadLine.
  apply take1_d in Hd. rewrite Hd. rewrite bool_decide_eq_false_2 by done. simpl.
  apply eqs_true in Hd. rewrite Hd. done.
Qed.

Lemma take1_b line : eqs (take 1 line) (lit "b") = true <-> head line = Some "b".
Proof.
  rewrite eqs_true. destruct line as [|c line]; [done|].
  change (take 1 (c :: line)) with (c :: take 0 line). rewrite take_0.
  split; intros [= ->]; done.
Qed.

(** the loader throws on no line but a bookmark line cut short *)
Lemma loadLine_total line acc :
  (head line = Some "b" -> (41 <= length line)%nat) -> is_Some (loadLine line acc).
Proof.
  intros Hb. destruct acc as [st dup].
  destruct (decide (full_width line)) as [Hfw|Hfw].
  - destruct (decode_address_full line) as [[k d] Hdec]; [apply Hfw|].
    destruct (loadLine_address line st dup k d Hfw Hdec) as (st' & -> & _). eauto.
  - rewrite <- full_width_test in Hfw. apply not_true_is_false in Hfw.
    unfold loadLine. rewrite Hfw.
    destruct (eqs (take 1 line) (lit "b")) eqn:E; [|eauto].
    apply take1_b in E. specialize (Hb E).
    unfold parse_bookmark, substr_from. rewrite !substr_in by lia.
    rewrite bool_decide_eq_true_2 by lia. simpl.
    destruct (mark_logGroups _ _ _ _); eauto.
Qed.

Lemma loadLines_total lines acc :
  Forall (fun line => head line = Some "b" -> (41 <= length line)%nat) lines ->
  is_Some (loadLines lines acc).
Proof.
  intros H. revert acc. induction H as [|line lines Hl _ IH]; intros acc; simpl; [eauto|].
  destruct (loadLine_total line acc Hl) as [acc' ->]. simpl. apply IH.
Qed.

Lemma loadLines_app l1 l2 acc :
  loadLines (l1 ++ l2) acc = loadLines l1 acc ≫= loadLines l2.
Proof.
  revert acc. induction l1 as [|line l1 IH]; intros acc; simpl; [done|].
  destruct (loadLine line acc) as [acc'|]; simpl; [apply IH|done].
Qed.

Lemma map_insert_union (k : str) (d : SuspiciosAddressType)
    (m M : gmap str SuspiciosAddressType) :
  (map_insert k d m).1 ∪ M = m ∪ <[k := d]> M.
Proof.
  unfold map_insert. destruct (m !! k) as [v|] eqn:Hk; simpl.
  - apply map_eq. intros i. rewrite !lookup_union.
    destruct (decide (i = k)) as [->|Hne].
    + rewrite lookup_insert_eq, Hk. by destruct (M !! k).
    + by rewrite lookup_insert_ne.
  - by rewrite <- insert_union_r, insert_union_l.
Qed.

(** The index after the loop: what was there, then the first record of
    each new key. *)
Lemma loadLines_spec lines st dup st' dup' :
  loadLines lines (st, dup) = Some (st', dup') ->
  suspiciousAddresses st' =
    suspiciousAddresses st ∪ list_to_map (omap decode_address (filter full_width lines)) /\
  files st' = files st /\
  dataFilePath (config st') = dataFilePath (config st) /\
  (exists extra, log st' = log st ++ extra) /\
  (dup = true -> dup' = true).
Proof.
  revert st dup. induction lines as [|line lines IH]; intros st dup; cbn [loadLines].
  - intros [= <- <-]. simpl. rewrite (right_id_L ∅ (∪)). repeat split; try done.
    exists []. by rewrite app_nil_r.
  - destruct (loadLine line (st, dup)) as [[st1 dup1]|] eqn:Hline; [|done].
    cbn [mbind option_bind].
    intros Hrest. apply IH in Hrest as (Hidx & Hfiles & Hpath & [extra Hlog] & Hdup).
    destruct (decide (full_width line)) as [Hfw|Hfw].
    + destruct (decode_address_full line) as [[k d] Hdec]; [apply Hfw|].
      destruct (loadLine_address line st dup k d Hfw Hdec)
        as (st1' & Hline' & Hidx1 & Hfiles1 & Hcfg1 & extra1 & Hlog1 & _).
      rewrite Hline in Hline'. injection Hline' as <- ->.
      rewrite filter_cons_True by done. simpl. rewrite Hdec. simpl.
      rewrite Hidx, Hidx1, Hfiles, Hfiles1, Hpath, Hcfg1, Hlog, Hlog1.
      rewrite map_insert_union. repeat split; try done.
      * exists (extra1 ++ extra). by rewrite app_assoc.
      * intros ->. by apply Hdup.
    + apply (loadLine_other _ _ _ _ _ Hfw) in Hline
        as (Hidx1 & Hfiles1 & Hpath1 & -> & extra1 & Hlog1).
      rewrite filter_cons_False by done.
      rewrite Hidx, Hidx1, Hfiles, Hfiles1, Hpath, Hpath1, Hlog, Hlog1.
      repeat split; try done. exists (extra1 ++ extra). by rewrite app_assoc.
Qed.

(** a second line for a key already in the index raises the flag *)
Lemma loadLines_duplicate pre line post st dup st' dup' k d :
  loadLines (pre ++ line :: post) (st, dup) = Some (st', dup') ->
  full_width line -> decode_address line = Some (k, d) ->
  is_Some ((suspiciousAddresses st ∪
            list_to_map (omap decode_address (filter full_width pre))) !! k) ->
  dup' = true.
Proof.
  intros Hload Hfw Hdec Hk. rewrite loadLines_app in Hload.
  destruct (loadLines pre (st, dup)) as [[st1 dup1]|] eqn:Hpre; [|done].
  cbn [mbind option_bind loadLines] in Hload.
  apply loadLines_spec in Hpre as (Hidx & _).
  destruct (loadLine_address line st1 dup1 k d Hfw Hdec) as (st2 & Hline & _).
  rewrite Hline in Hload. cbn [mbind option_bind] in Hload.
  apply loadLines_spec in Hload as (_ & _ & _ & _ & Hdup).
  apply Hdup. rewrite Hidx. rewrite bool_decide_eq_true_2 by done. apply orb_true_r.
Qed.

(** without a key read twice the flag stays down *)
Lemma loadLines_distinct lines st dup st' dup' :
  loadLines lines (st, dup) = Some (st', dup') ->
  NoDup (omap decode_address (filter full_width lines)).*1 ->
  (forall k, k ∈ (omap decode_address (filter full_width lines)).*1 ->
             suspiciousAddresses st !! k = None) ->
  dup' = dup.
Proof.
  revert st dup. induction lines as [|line lines IH]; intros st dup; cbn [loadLines].
  - by intros [= <- <-].
  - destruct (loadLine line (st, dup)) as [[st1 dup1]|] eqn:Hline; [|done].
    cbn [mbind option_bind].
    intros Hrest.
    destruct (decide (full_width line)) as [Hfw|Hfw].
    + destruct (decode_address_full line) as [[k d] Hdec]; [apply Hfw|].
      rewrite filter_cons_True by done. simpl. rewrite Hdec. simpl.
      intros Hnd Hfresh. apply NoDup_cons in Hnd as [Hk Hnd].
      destruct (loadLine_address line st dup k d Hfw Hdec)
        as (st1' & Hline' & Hidx1 & _).
      rewrite Hline in Hline'. injection Hline' as <- ->.
      assert (suspiciousAddresses st !! k = None) as Hnone
        by (apply Hfresh, elem_of_cons; by left).
      rewrite (IH _ _ Hrest Hnd).
      * rewrite Hnone.
        rewrite bool_decide_eq_false_2; [apply orb_false_r|]. by intros [? ?].
      * intros k' Hk'. rewrite Hidx1. unfold map_insert. rewrite Hnone. simpl.
        rewrite lookup_insert_ne by (intros ->; done).
        apply Hfresh, elem_of_cons. by right.
    + rewrite filter_cons_False by done. intros Hnd Hfresh.
      apply (loadLine_other _ _ _ _ _ Hfw) in Hline as (Hidx1 & _ & _ & -> & _).
      apply (IH _ _ Hrest Hnd). intros k Hk. rewrite Hidx1. by apply Hfresh.
Qed.

(** ** [loadData] as a whole *)

Lemma saveData_spec e st :
  suspiciousAddresses (saveData e st).2 = suspiciousAddresses st /\
  config (saveData e st).2 = config st /\
  (exists extra, log (saveData e st).2 = log st ++ extra) /\
  if can_write e
  then (saveData e st).1 = true /\
       files (saveData e st).2 =
         <[dataFilePath (config st) := store_image (suspiciousAddresses st) (config st)]> (files st)
  else (saveData e st).1 = false /\ files (saveData e st).2 = files st.
Proof.
  unfold saveData. destruct (can_write e); simpl; repeat split; eauto.
  eexists. by rewrite <- app_assoc.
Qed.

Lemma backup_and_save_spec e st content :
  files st !! dataFilePath (config st) = Some content ->
  let backup := backup_name (dataFilePath (config st)) (now e) in
  let r := backup_and_save e st in
  suspiciousAddresses r.2 = suspiciousAddresses st /\
  config r.2 = config st /\
  (exists extra, log r.2 = log st ++ extra) /\
  match files st !! backup with
  | Some _ => r.1 = false /\ files r.2 = files st
  | None =>
      if can_rename e then
        if can_write e then
          r.1 = true /\
          files r.2 = <[dataFilePath (config st) :=
                          store_image (suspiciousAddresses st) (config st)]>
                        (<[backup := content]> (delete (dataFilePath (config st)) (files st)))
        else
          r.1 = false /\
          files r.2 = <[backup := content]> (delete (dataFilePath (config st)) (files st))
      else r.1 = false /\ files r.2 = files st
  end.
Proof.
  intros Hfile backup r. subst r. unfold backup_and_save. fold backup.
  destruct (files st !! backup) eqn:Hb.
  - simpl. repeat split; eauto.
  - unfold rename. rewrite Hfile. destruct (can_rename e).
    + set (st2 := set_files _ st).
      pose proof (saveData_spec e st2) as (Hi & Hc & [extra Hl] & Hs).
      destruct (saveData e st2) as [saved st3]. simpl in Hi, Hc, Hl, Hs.
      destruct (can_write e); destruct Hs as [-> Hf]; simpl;
        rewrite Hi, Hc, Hl, Hf; repeat split; try done;
        eexists; by rewrite <- app_assoc.
    + simpl. repeat split; eauto.
Qed.

Lemma loadData_spec e st content ok st' :
  files st !! dataFilePath (config st) = Some content ->
  loadData e st = Some (ok, st') ->
  exists st1 dup,
    loadLines (getlines content)
      (set_addresses ∅ (log_msg LInfo (lit "Loading data from " ++ dataFilePath (config st)) st),
       false) = Some (st1, dup) /\
    suspiciousAddresses st' = suspiciousAddresses st1 /\
    config st' = config st1 /\
    (exists extra, log st' = log st1 ++ extra) /\
    if dup then ok = (backup_and_save e st1).1 /\ files st' = files (backup_and_save e st1).2
    else ok = true /\ files st' = files st.
Proof.
  intros Hfile. unfold loadData. simpl. rewrite Hfile.
  destruct (loadLines _ _) as [[st1 dup]|] eqn:Hlines; [|done].
  cbn [mbind option_bind]. intros Hres. exists st1, dup. split; [done|].
  pose proof Hlines as Hspec. apply loadLines_spec in Hspec as (_ & Hfiles & Hpath & _).
  simpl in Hfiles, Hpath.
  destruct dup.
  - assert (files st1 !! dataFilePath (config st1) = Some content) as Hfile1
      by by rewrite Hfiles, Hpath.
    pose proof (backup_and_save_spec e st1 content Hfile1) as (Hi & Hc & [extra Hl] & _).
    destruct (backup_and_save e st1) as [[|] st2]; simpl in *;
      injection Hres as <- <-; simpl; rewrite ?Hi, ?Hc, ?Hl; repeat split; eauto.
    eexists. by rewrite <- app_assoc.
  - injection Hres as <- <-. simpl. repeat split; eauto.
Qed.

(** C1: the index [loadData] builds holds the records of the lines that
    begin with ['d'] and are exactly one type byte and 91 payload bytes long,
    and of no other line; a ['d'] line of any other length passes through
    the loop without a trace. *)
Theorem loadData_takes_full_width_lines (e : env) (st : state) (content : str)
    (ok : bool) (st' : state) :
  files st !! dataFilePath (config st) = Some content ->
  loadData e st = Some (ok, st') ->
  suspiciousAddresses st' =
    list_to_map (omap decode_address
      (filter (fun line => head line = Some "d" /\ length line = (1 + 91)%nat)
              (getlines content))) /\
  forall line acc,
    head line = Some "d" -> length line <> (1 + 91)%nat -> loadLine line acc = Some acc.
Proof.
  intros Hfile Hload. split; [|apply loadLine_short].
  destruct (loadData_spec e st content ok st' Hfile Hload) as (st1 & dup & Hlines & -> & _).
  apply loadLines_spec in Hlines as (-> & _). simpl.
  by rewrite (left_id_L ∅ (∪)).
Qed.

(** ** The backup name *)

Lemma two_chars_padded z : (0 <= z <= 99)%Z -> two_chars z = zero_padded 2 z.
Proof.
  intros Hz.
  assert (forallb (fun n => eqs (two_chars (Z.of_nat n)) (zero_padded 2 (Z.of_nat n)))
                  (seq 0 100) = true) as Hall by (vm_compute; reflexivity).
  rewrite forallb_forall in Hall. specialize (Hall (Z.to_nat z)).
  rewrite Z2Nat.id in Hall by lia. apply eqs_true, Hall, in_seq. lia.
Qed.

(** a number that needs all of its [w] digits is written as it is *)
Lemma to_string_padded w n :
  (n < 10 ^ N.of_nat (S w))%N -> (w = O \/ 10 ^ N.of_nat w <= n)%N ->
  to_string n = zero_padded (S w) (Z.of_N n).
Proof.
  revert n. induction w as [|w IH]; intros n Hlt Hge.
  - change (10 ^ N.of_nat 1)%N with 10%N in Hlt.
    rewrite to_string_lt10 by done. simpl.
    rewrite Z.mod_small by lia. by rewrite N2Z.id.
  - destruct Hge as [|Hge]; [done|].
    rewrite Nat2N.inj_succ, N.pow_succ_r' in Hlt, Hge.
    assert (10 <= n)%N.
    { pose proof (N.pow_nonzero 10 (N.of_nat w)). lia. }
    rewrite to_string_ge10 by done.
    change (zero_padded (S (S w)) (Z.of_N n)) with
      (zero_padded (S w) (Z.of_N n / 10) ++ [digit_char (Z.to_N (Z.of_N n mod 10))]).
    change 10%Z with (Z.of_N 10). rewrite <- N2Z.inj_div, <- N2Z.inj_mod, N2Z.id.
    f_equal. apply IH.
    + apply N.Div0.div_lt_upper_bound. lia.
    + right. apply N.div_le_lower_bound; lia.
Qed.

Lemma year_padded z : (1000 <= z <= 9999)%Z -> to_string_int z = zero_padded 4 z.
Proof.
  intros Hz. unfold to_string_int.
  destruct (z <? 0)%Z eqn:E; [lia|].
  rewrite (to_string_padded 3).
  - by rewrite Z2N.id by lia.
  - change (10 ^ N.of_nat 4)%N with 10000%N. lia.
  - right. change (10 ^ N.of_nat 3)%N with 1000%N. lia.
Qed.

Lemma backup_name_format dataFile t :
  valid_tm t -> backup_name dataFile t = dataFile ++ lit "_" ++ timestamp t ++ lit ".bck".
Proof.
  intros (Hs & Hm & Hh & Hd & Hmo & Hy). unfold backup_name, timestamp.
  rewrite year_padded by lia. rewrite !two_chars_padded by lia.
  by rewrite <- !app_assoc.
Qed.

Lemma length_zero_padded w z : length (zero_padded w z) = w.
Proof.
  revert z. induction w as [|w IH]; intros z; simpl; [done|].
  rewrite length_app, IH. simpl. lia.
Qed.

(** ** First occurrence, whitelist, duplicates *)

Lemma decode_address_flags line k r :
  decode_address line = Some (k, r) -> whitelisted r && blacklisted r = false.
Proof.
  unfold decode_address, parse_address.
  destruct (substr line 1 39) as [a|]; [|done].
  destruct (substr line 40 20) as [la|]; [|done].
  destruct (substr line 60 10) as [asc|]; [|done].
  destruct (substr line 70 10) as [ac|]; [|done].
  destruct (substr line 80 10) as [rc|]; [|done].
  destruct (substr line 90 1) as [w|]; [|done].
  destruct (substr line 91 1) as [b|]; [|done]. simpl.
  intros [= <- <-]. simpl. by destruct (eqs _ _), (eqs _ _).
Qed.

Lemma take1_lookup (line : str) i c : line !! i = Some c -> take 1 (drop i line) = [c].
Proof. intros H. rewrite (drop_S _ _ _ H). simpl. by rewrite take_0. Qed.

(** the record of the first line of full width with a given key is the one
    in the index *)
Lemma first_record_wins pre line post k r :
  full_width line -> decode_address line = Some (k, r) ->
  (forall l r', l ∈ pre -> full_width l -> decode_address l <> Some (k, r')) ->
  (list_to_map (omap decode_address (filter full_width (pre ++ line :: post)))
     : gmap str SuspiciosAddressType) !! k = Some r.
Proof.
  intros Hfw Hdec Hpre.
  rewrite filter_app, omap_app, list_to_map_app, filter_cons_True by done.
  simpl. rewrite Hdec. simpl.
  rewrite lookup_union_r; [by rewrite lookup_insert_eq|].
  apply not_elem_of_list_to_map_1. intros Hin.
  apply list_elem_of_fmap in Hin as ([k' r'] & -> & Hin). simpl in Hpre.
  apply list_elem_of_omap in Hin as (l & Hl & Hdl).
  apply list_elem_of_filter in Hl as [Hlfw Hl].
  by eapply Hpre.
Qed.

(** C8: after [loadData] no record of the index has both flags set; a line
    of full width whose two flag bytes are ['y'] is decoded to a record that
    is whitelisted and not blacklisted, the warning about it is in the log,
    and that record is the one in the index when the line is the first of
    its address. *)
Theorem whitelist_wins_on_load (e : env) (st : state) (content : str)
    (ok : bool) (st' : state) :
  files st !! dataFilePath (config st) = Some content ->
  loadData e st = Some (ok, st') ->
  (forall k r, suspiciousAddresses st' !! k = Some r ->
               ~ (whitelisted r = true /\ blacklisted r = true)) /\
  (forall pre line post,
     getlines content = pre ++ line :: post ->
     head line = Some "d" -> length line = (1 + 91)%nat ->
     line !! 90%nat = Some "y" -> line !! 91%nat = Some "y" ->
     exists k r,
       decode_address line = Some (k, r) /\
       whitelisted r = true /\ blacklisted r = false /\
       (LWarning, lit "Address " ++ k ++
          lit " is in whitelist and at the same time in blacklist! Removing address from blacklist...")
         ∈ log st' /\
       ((forall l r', l ∈ pre -> full_width l -> decode_address l <> Some (k, r')) ->
        suspiciousAddresses st' !! k = Some r)).
Proof.
  intros Hfile Hload.
  destruct (loadData_spec e st content ok st' Hfile Hload)
    as (st1 & dup & Hlines & Hidx & _ & [extra Hlog] & _).
  pose proof Hlines as Hspec.
  apply loadLines_spec in Hspec as (Hidx1 & _). simpl in Hidx1.
  rewrite (left_id_L ∅ (∪)) in Hidx1. rewrite Hidx, Hidx1. split.
  - intros k r Hk [Hw Hb]. apply elem_of_list_to_map_2 in Hk.
    apply list_elem_of_omap in Hk as (l & _ & Hdl).
    apply decode_address_flags in Hdl. by rewrite Hw, Hb in Hdl.
  - intros pre line post Hsplit Hd Hlen Hw Hb.
    assert (full_width line) as Hfw by done.
    destruct (decode_address_full line Hlen) as [[k r] Hdec].
    exists k, r. split; [done|].
    pose proof Hdec as Hdec'. unfold decode_address in Hdec'.
    rewrite parse_address_full in Hdec' by done. simpl in Hdec'.
    rewrite (take1_lookup _ _ _ Hw), (take1_lookup _ _ _ Hb) in Hdec'.
    injection Hdec' as Hk Hr. split; [by rewrite <- Hr|]. split; [by rewrite <- Hr|].
    split.
    + rewrite Hsplit, loadLines_app in Hlines.
      destruct (loadLines pre _) as [[st2 dup2]|]; [|done].
      cbn [mbind option_bind loadLines] in Hlines.
      destruct (loadLine_address line st2 dup2 k r Hfw Hdec)
        as (st3 & Hline & _ & _ & _ & extra3 & Hlog3 & Hwarn).
      rewrite Hline in Hlines. cbn [mbind option_bind] in Hlines.
      apply loadLines_spec in Hlines as (_ & _ & _ & [extra4 Hlog4] & _).
      rewrite Hlog, Hlog4, Hlog3. rewrite !elem_of_app. left. left. right.
      apply Hwarn; [by rewrite <- Hr|]. by rewrite (take1_lookup _ _ _ Hb).
    + intros Hfirst. rewrite Hsplit. by apply first_record_wins.
Qed.

Lemma entries_Permutation (m : gmap str SuspiciosAddressType) : entries m ≡ₚ map_to_list m.
Proof. apply merge_sort_Permutation. Qed.

(** the file [saveData] writes has one line for each address *)
Lemma NoDup_entries (m : gmap str SuspiciosAddressType) : NoDup (entries m).*1.
Proof. rewrite entries_Permutation. apply NoDup_fst_map_to_list. Qed.

(** ** The scan over a well-formed file *)

Lemma skip_line_app s rest p :
  NL ∉ s -> skip_line (s ++ NL :: rest) p = ((p + length s + 1)%nat, false).
Proof.
  revert p. induction s as [|c s IH]; intros p Hs; cbn [skip_line app].
  - assert (eqc NL NL = true) as -> by by apply eqc_true. simpl. f_equal. lia.
  - apply not_elem_of_cons in Hs as [Hc Hs].
    assert (eqc c NL = false) as -> by (apply eqc_false; congruence).
    rewrite IH by done. f_equal. simpl. lia.
Qed.

Lemma get_at A c rest :
  get (mkStream (A ++ c :: rest) (length A) false false) =
  (Some c, mkStream (A ++ c :: rest) (S (length A)) false false).
Proof. unfold get. cbn [good eofbit failbit negb andb buf pos]. by rewrite list_lookup_middle. Qed.

Lemma drop_after A (c : ascii) rest : drop (S (length A)) (A ++ c :: rest) = rest.
Proof. rewrite cons_middle, app_assoc. apply drop_app_length'. rewrite length_app. simpl. lia. Qed.

(** reading the address field of a line *)
Lemma get_n_field A c fld rest :
  length fld = 39%nat -> NL ∉ fld -> rest <> [] ->
  get_n (mkStream (A ++ c :: fld ++ rest) (S (length A)) false false) 40 =
  (fld, mkStream (A ++ c :: fld ++ rest) (length A + 40) false false).
Proof.
  intros Hlen Hnl Hrest. unfold get_n.
  cbn [good eofbit failbit negb andb buf pos].
  change (40 - 1)%nat with 39%nat.
  rewrite drop_after, take_app_length' by done.
  rewrite take_while_all.
  2:{ apply Forall_forall. intros x Hx. apply negb_true_iff, eqc_false. by intros ->. }
  rewrite Hlen. f_equal.
  rewrite bool_decide_eq_false_2.
  2:{ rewrite length_app, length_cons, length_app, Hlen.
      destruct rest; [done|]. rewrite length_cons. lia. }
  rewrite bool_decide_eq_false_2 by done.
  f_equal. lia.
Qed.

Lemma c_str_plain s : NUL ∉ s -> c_str s = s.
Proof.
  intros H. apply take_while_all, Forall_forall. intros x Hx.
  apply negb_true_iff, eqc_false. by intros ->.
Qed.

Lemma seekg_cur_forward b p (off : nat) :
  seekg_cur (mkStream b p false false) (Z.of_nat off) = mkStream b (p + off) false false.
Proof.
  unfold seekg_cur. cbn [failbit pos buf].
  rewrite (proj2 (Z.ltb_ge _ _)) by lia. f_equal. lia.
Qed.

(** the loop finds the record when it stands at the start of its line *)
Lemma scan_loop_match on_match address fuel A fld rest m :
  length fld = 39%nat -> NL ∉ fld -> NUL ∉ fld -> rest <> [] ->
  Util.ltrim fld = address ->
  scan_loop on_match address (S fuel)
    (mkStream (A ++ "d" :: fld ++ rest) (length A) false false) m =
  let '(f, m') := on_match (mkStream (A ++ "d" :: fld ++ rest) (length A + 40) false false) m in
  Some (f, m', true).
Proof.
  intros Hlen Hnl Hnul Hrest Haddr. cbn [scan_loop].
  rewrite get_at. assert (eqc "d" "d" = true) as -> by by apply eqc_true.
  rewrite get_n_field by done. rewrite c_str_plain by done.
  assert (eqs (Util.ltrim fld) address = true) as -> by by apply eqs_true.
  done.
Qed.

(** one turn of the loop over an address line for another address *)
Lemma scan_loop_step_address on_match address fuel A fld more tail m :
  length fld = 39%nat -> length more = 52%nat -> NL ∉ fld -> NUL ∉ fld ->
  Util.ltrim fld <> address ->
  scan_loop on_match address (S fuel)
    (mkStream (A ++ "d" :: fld ++ more ++ NL :: tail) (length A) false false) m =
  scan_loop on_match address fuel
    (mkStream (A ++ "d" :: fld ++ more ++ NL :: tail) (length A + 93) false false) m.
Proof.
  intros Hlen Hmore Hnl Hnul Haddr. cbn [scan_loop].
  rewrite get_at. assert (eqc "d" "d" = true) as -> by by apply eqc_true.
  rewrite get_n_field by (try done; by destruct more).
  rewrite c_str_plain by done.
  assert (eqs (Util.ltrim fld) address = false) as -> by by apply eqs_false.
  change 53%Z with (Z.of_nat 53). rewrite seekg_cur_forward.
  f_equal. f_equal. lia.
Qed.

(** one turn of the loop over a line of another type *)
Lemma scan_loop_step_other on_match address fuel A c body tail m :
  c <> "d" -> (41 <= length body)%nat -> NL ∉ body ->
  scan_loop on_match address (S fuel)
    (mkStream (A ++ c :: body ++ NL :: tail) (length A) false false) m =
  scan_loop on_match address fuel
    (mkStream (A ++ c :: body ++ NL :: tail) (length A + length body + 2) false false) m.
Proof.
  intros Hc Hlen Hnl. cbn [scan_loop].
  rewrite get_at. assert (eqc c "d" = false) as -> by by apply eqc_false.
  change 41%Z with (Z.of_nat 41). rewrite seekg_cur_forward.
  unfold read_to_newline. cbn [good eofbit failbit negb andb buf pos].
  replace (S (length A) + 41)%nat with (S (length A) + 41 + 0)%nat at 1 by lia.
  rewrite <- Nat.add_assoc, <- drop_drop, drop_after.
  rewrite Nat.add_0_r, drop_app_le by lia.
  rewrite skip_line_app by (intros Hin; by apply Hnl, (subseteq_drop 41)).
  rewrite length_drop. f_equal. f_equal. lia.
Qed.

(** the two shapes of a line as the store writes it *)
Lemma scannable_cases line :
  scannable line ->
  (exists fld more, line = "d" :: fld ++ more /\ length fld = 39%nat /\
     length more = 52%nat /\ (NL ∉ fld) /\ (NL ∉ more) /\ (NUL ∉ fld) /\
     line_address line = Util.ltrim fld) \/
  (exists c body, line = c :: body /\ c <> "d" /\ (41 <= length body)%nat /\ (NL ∉ body)).
Proof.
  intros [Hnl [[[Hd Hlen] Hnul]|[Hd Hlen]]].
  - left. destruct line as [|c line']; [done|]. injection Hd as ->.
    exists (take 39 line'), (drop 39 line').
    cbn [drop length] in *. rewrite drop_0 in Hnul.
    apply not_elem_of_cons in Hnl as [_ Hnl].
    rewrite take_drop, length_take, length_drop.
    repeat split; try done; try lia.
    + intros Hin. by apply Hnl, (subseteq_take 39).
    + intros Hin. by apply Hnl, (subseteq_drop 39).
  - right. destruct line as [|c line']; [simpl in Hlen; lia|].
    exists c, line'. apply not_elem_of_cons in Hnl as [_ Hnl].
    cbn [length] in Hlen. repeat split; try done; try lia.
    intros ->. done.
Qed.

(** one turn of the loop over a line that is not the one looked for *)
Lemma scan_loop_step on_match address fuel A line tail m :
  scannable line -> ~ matches address line ->
  scan_loop on_match address (S fuel)
    (mkStream (A ++ line ++ NL :: tail) (length A) false false) m =
  scan_loop on_match address fuel
    (mkStream (A ++ line ++ NL :: tail) (length (A ++ line ++ [NL])) false false) m.
Proof.
  intros Hline Hno.
  destruct (scannable_cases line Hline)
    as [(fld & more & -> & Hfld & Hmore & Hnl & _ & Hnul & Haddr)
       |(c & body & -> & Hc & Hlen & Hnl)].
  - replace (length (A ++ ("d" :: fld ++ more) ++ [NL])) with (length A + 93)%nat
      by (rewrite !length_app, length_cons, length_app, Hfld, Hmore; simpl; lia).
    cbn [app]. rewrite <- app_assoc.
    apply scan_loop_step_address; try done.
    intros E. apply Hno. split; [done|]. by rewrite Haddr.
  - replace (length (A ++ (c :: body) ++ [NL])) with (length A + length body + 2)%nat
      by (rewrite !length_app, length_cons; simpl; lia).
    cbn [app]. by apply scan_loop_step_other.
Qed.

Lemma lines_image_cons line ls : lines_image (line :: ls) = line ++ NL :: lines_image ls.
Proof. unfold lines_image. simpl. by rewrite <- app_assoc. Qed.

Lemma lines_image_app l1 l2 : lines_image (l1 ++ l2) = lines_image l1 ++ lines_image l2.
Proof. unfold lines_image. by rewrite map_app, concat_app. Qed.

Lemma length_lines_image ls : (length ls <= length (lines_image ls))%nat.
Proof.
  induction ls as [|l ls IH]; [done|].
  rewrite lines_image_cons, length_app, !length_cons. lia.
Qed.

(** the loop steps over the lines before the one looked for *)
Lemma scan_loop_skip on_match address fuel A pre tail m :
  Forall scannable pre -> Forall (fun l => ~ matches address l) pre ->
  scan_loop on_match address (length pre + fuel)
    (mkStream (A ++ lines_image pre ++ tail) (length A) false false) m =
  scan_loop on_match address fuel
    (mkStream (A ++ lines_image pre ++ tail) (length (A ++ lines_image pre)) false false) m.
Proof.
  intros Hpre. revert A. induction Hpre as [|line pre Hline _ IH]; intros A Hno.
  - by rewrite app_nil_r.
  - apply Forall_cons in Hno as [Hno1 Hno].
    rewrite lines_image_cons. cbn [length Nat.add]. rewrite <- app_assoc. cbn [app].
    rewrite scan_loop_step by done.
    specialize (IH (A ++ line ++ [NL]) Hno).
    rewrite <- !app_assoc in IH. cbn [app] in IH. by rewrite IH.
Qed.

(** the scan of a well-formed file finds the first line of the address and
    stops behind its address field *)
Lemma scan_first_match on_match address pre line rest m :
  Forall scannable pre -> Forall (fun l => ~ matches address l) pre ->
  scannable line -> matches address line ->
  scan on_match address (open_stream (lines_image pre ++ line ++ NL :: rest)) m =
  let '(f, m') :=
    on_match (mkStream (lines_image pre ++ line ++ NL :: rest)
                       (length (lines_image pre) + 40) false false) m in
  (f, m', true).
Proof.
  intros Hpre Hno Hline [Hd Haddr]. unfold scan, open_stream. cbn [buf].
  set (content := lines_image pre ++ line ++ NL :: rest).
  assert (length pre < S (length content))%nat as Hfuel.
  { subst content. rewrite length_app. pose proof (length_lines_image pre). lia. }
  replace (S (length content)) with (length pre + S (length content - length pre))%nat by lia.
  pose proof (scan_loop_skip on_match address (S (length content - length pre))
                [] pre (line ++ NL :: rest) m Hpre Hno) as Hskip.
  cbn [app length] in Hskip. fold content in Hskip. rewrite Hskip.
  destruct (scannable_cases line Hline)
    as [(fld & more & Hl & Hfld & Hmore & Hnl & _ & Hnul & Hla)
       |(c & body & -> & Hc & _)]; [|by injection Hd].
  subst content. rewrite Hl. cbn [app]. rewrite <- app_assoc.
  rewrite scan_loop_match; try done.
  - by destruct (on_match _ m).
  - by destruct more.
  - by rewrite <- Hla.
Qed.

(** ** What the scan finds in a well-formed file *)

Lemma scan_finds_none address ls :
  Forall scannable ls -> Forall (fun l => ~ matches address l) ls ->
  scan_finds address (lines_image ls) = false.
Proof.
  intros Hls Hno. unfold scan_finds, scan, open_stream. cbn [buf].
  set (content := lines_image ls).
  pose proof (length_lines_image ls) as Hlen. fold content in Hlen.
  replace (S (length content)) with (length ls + S (length content - length ls))%nat by lia.
  pose proof (scan_loop_skip no_action address (S (length content - length ls))
                [] ls [] ∅ Hls Hno) as Hskip.
  cbn [app length] in Hskip. rewrite app_nil_r in Hskip. fold content in Hskip.
  rewrite Hskip. cbn [scan_loop]. unfold get.
  cbn [good eofbit failbit negb andb buf pos].
  by rewrite lookup_ge_None_2.
Qed.

Lemma scan_finds_first address pre line rest :
  Forall scannable pre -> Forall (fun l => ~ matches address l) pre ->
  scannable line -> matches address line ->
  scan_finds address (lines_image pre ++ line ++ NL :: rest) = true.
Proof.
  intros Hpre Hno Hline Hm. unfold scan_finds.
  by rewrite scan_first_match.
Qed.

(** ** Writing in place *)

Lemma put_good b p s :
  put (mkStream b p false false) s = mkStream (overwrite b p s) (p + length s) false false.
Proof. done. Qed.

Lemma overwrite_split (X R s : str) :
  overwrite (X ++ R) (length X) s = X ++ s ++ drop (length s) R.
Proof.
  unfold overwrite. rewrite take_app_length, length_app.
  replace (length X - (length X + length R))%nat with O by lia.
  cbn [replicate app]. by rewrite drop_app_add.
Qed.

Lemma overwrite_app b p s1 s2 :
  (p <= length b)%nat ->
  overwrite (overwrite b p s1) (p + length s1) s2 = overwrite b p (s1 ++ s2).
Proof.
  intros Hp. rewrite <- (take_drop p b).
  assert (length (take p b) = p) as Hlen by (rewrite length_take; lia).
  set (X := take p b) in *. set (R := drop p b). rewrite <- Hlen.
  rewrite !overwrite_split.
  replace (length X + length s1)%nat with (length (X ++ s1)) by by rewrite length_app.
  rewrite app_assoc, overwrite_split, drop_drop, length_app, <- !app_assoc. done.
Qed.

Lemma put_put b p s1 s2 :
  (p <= length b)%nat ->
  put (put (mkStream b p false false) s1) s2 = put (mkStream b p false false) (s1 ++ s2).
Proof.
  intros Hp. rewrite !put_good, overwrite_app by done.
  by rewrite length_app, Nat.add_assoc.
Qed.

Lemma overwrite_middle (X Y Z s : str) :
  length s = length Y -> overwrite (X ++ Y ++ Z) (length X) s = X ++ s ++ Z.
Proof.
  intros Hlen. by rewrite overwrite_split, Hlen, drop_app_length.
Qed.

(** what [updateAddress] does to the stream on a match *)
Lemma update_record_spec address b p m :
  (p <= length b)%nat ->
  update_record address (mkStream b p false false) m =
  (put (mkStream b p false false) (payload (map_index address m).1), (map_index address m).2).
Proof.
  intros Hp. unfold update_record. destruct (map_index address m) as [d m'].
  cbn [fst snd]. rewrite !put_put by done.
  unfold payload, payload_fields. by rewrite <- !app_assoc.
Qed.

(** what [removeAddress] does to the stream on a match *)
Lemma remove_record_spec b p m :
  remove_record (mkStream b (p + 40) false false) m =
  (put (mkStream b p false false) (lit "r"), m).
Proof.
  unfold remove_record, seekg_cur. cbn [failbit pos buf].
  rewrite (proj2 (Z.ltb_ge _ _)) by lia.
  replace (Z.to_nat (Z.of_nat (p + 40) + -40)) with p by lia. done.
Qed.

Lemma length_flag_char b : length (flag_char b) = 1%nat.
Proof. by destruct b. Qed.

Lemma length_payload_fields d : fits_columns d -> length (payload_fields d) = 52%nat.
Proof.
  intros (Hla & Hsc & Hac & Hrc). unfold payload_fields.
  rewrite !length_app, !length_flag_char.
  rewrite (length_setw 20), !(length_setw 10); [done| | | |];
    apply to_string_length; try lia; try done.
  change (10 ^ N.of_nat 20)%N with 100000000000000000000%N.
  unfold ULLONG_MAX in Hla. lia.
Qed.

Lemma scannable_full_width line :
  scannable line -> head line = Some "d" -> length line = 92%nat.
Proof. intros [_ [[[_ Hlen] _]|[Hd _]]] Hh; [done|by destruct Hd]. Qed.

(** C7 (amended): in a store file whose lines up to the first line for the
    address are as the store writes them, and for values that fit their
    columns, [updateAddress] succeeds and replaces that line by a line of the
    same length made of its first 40 bytes (type byte and address field) and
    the freshly formatted fields; every other byte of the file, and with it
    the length of the file, the newline of the line and the offset of every
    other record, stays as it was. *)
Theorem updateAddress_in_place (e : env) (address : str) (st : state)
    (pre : list str) (line rest : str) :
  can_write e = true ->
  files st !! dataFilePath (config st) = Some (lines_image pre ++ line ++ NL :: rest) ->
  Forall scannable pre -> Forall (fun l => ~ matches address l) pre ->
  scannable line -> matches address line ->
  fits_columns (map_index address (suspiciousAddresses st)).1 ->
  let d := (map_index address (suspiciousAddresses st)).1 in
  let line' := take 40 line ++ payload_fields d in
  (updateAddress e address st).1 = true /\
  files (updateAddress e address st).2 =
    <[dataFilePath (config st) := lines_image pre ++ line' ++ NL :: rest]> (files st) /\
  length line' = length line /\
  length (lines_image pre ++ line' ++ NL :: rest) =
    length (lines_image pre ++ line ++ NL :: rest) /\
  suspiciousAddresses (updateAddress e address st).2 =
    (map_index address (suspiciousAddresses st)).2.
Proof.
  intros Hw Hfile Hpre Hno Hline Hm Hfits d line'.
  pose proof (scannable_full_width line Hline (proj1 Hm)) as Hlen.
  assert (length line' = length line) as Hlen'.
  { subst line'. rewrite length_app, length_take, length_payload_fields by done. lia. }
  unfold updateAddress. set (st1 := log_msg LDebug _ st).
  rewrite (open_rw_found e st1 _ Hfile), Hw.
  rewrite scan_first_match by done.
  rewrite update_record_spec by (rewrite !length_app; lia).
  change (suspiciousAddresses st1) with (suspiciousAddresses st). fold d.
  rewrite put_good. cbn [fst snd close_stream set_addresses set_files buf files config].
  repeat split; try done.
  - f_equal.
    rewrite <- (take_drop 40 line) at 1.
    replace (length (lines_image pre) + 40)%nat with (length (lines_image pre ++ take 40 line))
      by (rewrite length_app, length_take; lia).
    rewrite <- (app_assoc (take 40 line)), (app_assoc (lines_image pre)).
    change (drop 40 line ++ NL :: rest) with (drop 40 line ++ [NL] ++ rest).
    rewrite (app_assoc (drop 40 line)).
    rewrite overwrite_middle.
    + subst line'. unfold payload. by rewrite <- !app_assoc.
    + unfold payload. rewrite !length_app, length_payload_fields, length_drop by done.
      simpl. lia.
  - rewrite !length_app, !length_cons. lia.
Qed.

(** ** Reading a well-formed file back *)

Lemma getlines_line line tail :
  NL ∉ line -> getlines (line ++ NL :: tail) = line :: getlines tail.
Proof.
  induction line as [|c line IH]; intros Hnl; cbn [app getlines].
  - by assert (eqc NL NL = true) as -> by by apply eqc_true.
  - apply not_elem_of_cons in Hnl as [Hc Hnl].
    assert (eqc c NL = false) as -> by (apply eqc_false; congruence).
    by rewrite IH.
Qed.

Lemma getlines_image ls :
  Forall (fun l => NL ∉ l) ls -> getlines (lines_image ls) = ls.
Proof.
  induction 1 as [|l ls Hl _ IH]; [done|].
  by rewrite lines_image_cons, getlines_line, IH.
Qed.

Lemma decode_address_key line k r :
  length line = 92%nat -> decode_address line = Some (k, r) -> k = line_address line.
Proof.
  intros Hlen. unfold decode_address. rewrite parse_address_full by done.
  simpl. by intros [= <- _].
Qed.

Lemma loadData_total e st content :
  files st !! dataFilePath (config st) = Some content ->
  Forall (fun line => head line = Some "b" -> (41 <= length line)%nat) (getlines content) ->
  exists ok st', loadData e st = Some (ok, st').
Proof.
  intros Hfile Hlines. unfold loadData. set (st0 := log_msg LInfo _ st).
  assert (files st0 !! dataFilePath (config st0) = Some content) as -> by exact Hfile.
  destruct (loadLines_total (getlines content) (set_addresses ∅ st0, false) Hlines)
    as [[st1 dup] ->].
  cbn [mbind option_bind].
  destruct dup; [|eauto].
  destruct (backup_and_save e st1) as [[|] st2]; eauto.
Qed.

Lemma scannable_loadable line :
  scannable line -> head line = Some "b" -> (41 <= length line)%nat.
Proof. intros [_ [[[_ Hlen] _]|[_ Hlen]]] _; simpl in *; lia. Qed.

(** no line that is not a live line for the address puts it in the index *)
Lemma records_without_address address lines :
  Forall (fun l => ~ matches address l) lines ->
  address ∉ (omap decode_address (filter full_width lines)).*1.
Proof.
  intros Hno Hin.
  apply list_elem_of_fmap in Hin as ([k r] & -> & Hin).
  apply list_elem_of_omap in Hin as (l & Hl & Hdec).
  apply list_elem_of_filter in Hl as [[Hd Hlen] Hl].
  rewrite Forall_forall in Hno. apply (Hno l Hl). split; [done|].
  symmetry. by eapply decode_address_key.
Qed.

(** ** Compaction and reload *)

Lemma field_at (X Y Z : str) n k :
  length X = n -> length Y = k -> take k (drop n (X ++ Y ++ Z)) = Y.
Proof. intros <- <-. by rewrite drop_app_length, take_app_length. Qed.

Lemma eqs_single (x y : ascii) : eqs [x] [y] = eqc x y.
Proof.
  unfold eqs, eqc. apply bool_decide_ext. split; [by intros [= ->]|by intros ->].
Qed.

(** the fields of a line put together from pieces of the right widths *)
Lemma parse_address_fields (a la sc ac rc : str) (w b : ascii) :
  length a = 39%nat -> length la = 20%nat -> length sc = 10%nat ->
  length ac = 10%nat -> length rc = 10%nat ->
  decode_address ("d" :: a ++ la ++ sc ++ ac ++ rc ++ [w; b]) =
  Some (Util.ltrim a,
        mkAddress (strtoull (c_str (Util.ltrim la))) (strtoul (c_str (Util.ltrim sc)))
                  (strtoul (c_str (Util.ltrim ac))) (strtoul (c_str (Util.ltrim rc)))
                  (eqc w "y") (if eqc w "y" && eqc b "y" then false else eqc b "y") false).
Proof.
  intros Ha Hla Hsc Hac Hrc. unfold decode_address.
  set (line := "d" :: a ++ la ++ sc ++ ac ++ rc ++ [w; b]).
  assert (length line = 92%nat) as Hlen
    by (subst line; cbn [length]; rewrite !length_app; cbn [length]; lia).
  rewrite parse_address_full by done.
  assert (take 39 (drop 1 line) = a) as ->.
  { change line with (["d"] ++ a ++ (la ++ sc ++ ac ++ rc ++ [w; b])). by apply field_at. }
  assert (take 20 (drop 40 line) = la) as ->.
  { change line with (("d" :: a) ++ la ++ (sc ++ ac ++ rc ++ [w; b])).
    apply field_at; cbn [length]; lia. }
  assert (take 10 (drop 60 line) = sc) as ->.
  { replace line with (("d" :: a ++ la) ++ sc ++ (ac ++ rc ++ [w; b]))
      by (subst line; cbn [app]; by rewrite <- !app_assoc).
    apply field_at; cbn [length]; rewrite ?length_app; lia. }
  assert (take 10 (drop 70 line) = ac) as ->.
  { replace line with (("d" :: a ++ la ++ sc) ++ ac ++ (rc ++ [w; b]))
      by (subst line; cbn [app]; by rewrite <- !app_assoc).
    apply field_at; cbn [length]; rewrite ?length_app; lia. }
  assert (take 10 (drop 80 line) = rc) as ->.
  { replace line with (("d" :: a ++ la ++ sc ++ ac) ++ rc ++ [w; b])
      by (subst line; cbn [app]; by rewrite <- !app_assoc).
    apply field_at; cbn [length]; rewrite ?length_app; lia. }
  assert (take 1 (drop 90 line) = [w]) as ->.
  { replace line with (("d" :: a ++ la ++ sc ++ ac ++ rc) ++ [w] ++ [b])
      by (subst line; cbn [app]; by rewrite <- !app_assoc).
    apply field_at; cbn [length]; rewrite ?length_app; lia. }
  assert (take 1 (drop 91 line) = [b]) as ->.
  { replace line with (("d" :: a ++ la ++ sc ++ ac ++ rc ++ [w]) ++ [b] ++ [])
      by (subst line; cbn [app]; by rewrite <- !app_assoc).
    apply field_at; cbn [length]; rewrite ?length_app; cbn [length]; lia. }
  change (lit "y") with ["y"]. by rewrite !eqs_single.
Qed.

Lemma flag_chars w b :
  flag_char w ++ flag_char b = [if w then "y" else "n"; if b then "y" else "n"].
Proof. by destruct w, b. Qed.

Lemma to_string_fits n : (n <= ULLONG_MAX)%N -> (length (to_string n) <= 20)%nat.
Proof.
  intros H. apply to_string_length; [|lia].
  change (10 ^ N.of_nat 20)%N with 100000000000000000000%N.
  unfold ULLONG_MAX in H. lia.
Qed.

Lemma to_string_fits_10 n : (n < 10 ^ 10)%N -> (length (to_string n) <= 10)%nat.
Proof. intros H. apply to_string_length; [exact H|lia]. Qed.

(** what the loader decodes from a line [saveData] wrote *)
Lemma decode_stored k d :
  storable_address k -> fits_columns d -> whitelisted d && blacklisted d = false ->
  decode_address (stored_address (k, d)) = Some (k, persisted d).
Proof.
  intros (Hk & _ & Htrim) (Hla & Hsc & Hac & Hrc) Hflags.
  unfold stored_address, payload_fields. cbn [fst snd].
  rewrite flag_chars. change (lit "d") with ["d"]. cbn [app].
  rewrite parse_address_fields; try (apply length_setw); try done;
    try (by apply to_string_fits); try (by apply to_string_fits_10).
  rewrite ltrim_setw by done. unfold strtoul. rewrite !read_number.
  - f_equal. f_equal. unfold persisted. destruct d as [? ? ? ? [|] [|] ?]; try done.
  - change (10 ^ 10)%N with 10000000000%N in Hrc. unfold ULLONG_MAX. lia.
  - change (10 ^ 10)%N with 10000000000%N in Hac. unfold ULLONG_MAX. lia.
  - change (10 ^ 10)%N with 10000000000%N in Hsc. unfold ULLONG_MAX. lia.
  - done.
Qed.

Lemma NL_setw w s : NL ∉ s -> NL ∉ setw w s.
Proof.
  intros Hs. unfold setw. apply not_elem_of_app. split; [|done].
  intros Hin. by apply elem_of_replicate in Hin as [? _].
Qed.

Lemma NL_to_string n : NL ∉ to_string n.
Proof.
  intros Hin. pose proof (to_string_digits n) as Hd.
  rewrite Forall_forall in Hd. apply Hd in Hin. by apply is_digit_plain in Hin as (_ & ? & _).
Qed.

Lemma NL_flag_char b : NL ∉ flag_char b.
Proof. destruct b; intros Hin; apply list_elem_of_singleton in Hin; discriminate. Qed.

Lemma NL_stored_address kv : NL ∉ kv.1 -> NL ∉ stored_address kv.
Proof.
  intros Hk. unfold stored_address, payload_fields.
  rewrite !not_elem_of_app. repeat split;
    try (apply NL_setw); try apply NL_to_string; try apply NL_flag_char; try done.
  intros Hin. apply list_elem_of_singleton in Hin. discriminate.
Qed.

Lemma NL_stored_bookmark lf : NL ∉ lf_path lf -> NL ∉ stored_bookmark lf.
Proof.
  intros Hp. unfold stored_bookmark.
  rewrite !not_elem_of_app. repeat split;
    try (apply NL_setw); try apply NL_to_string; try done.
  intros Hin. apply list_elem_of_singleton in Hin. discriminate.
Qed.

Lemma length_setw_ge w s : (w <= length (setw w s))%nat.
Proof. unfold setw. rewrite length_app, length_replicate. lia. Qed.

Lemma stored_bookmark_long lf : (41 <= length (stored_bookmark lf))%nat.
Proof.
  unfold stored_bookmark. rewrite !length_app.
  pose proof (length_setw_ge 20 (to_string (lf_bookmark lf))).
  pose proof (length_setw_ge 20 (to_string (lf_size lf))).
  simpl. lia.
Qed.

(** the file [saveData] writes, line by line *)
Lemma store_image_lines m c :
  store_image m c =
  lines_image (map stored_address (entries m) ++ map stored_bookmark (all_logFiles c)).
Proof.
  unfold store_image. rewrite lines_image_app. unfold lines_image. f_equal.
  - f_equal. rewrite map_map. apply map_ext. intros [k d].
    unfold address_line, stored_address, payload. cbn [fst snd]. by rewrite <- !app_assoc.
  - f_equal. rewrite map_map. apply map_ext. intros lf.
    unfold bookmark_line, stored_bookmark. by rewrite <- !app_assoc.
Qed.

Lemma list_to_map_entries (m : gmap str SuspiciosAddressType) : list_to_map (entries m) = m.
Proof.
  rewrite <- (list_to_map_to_list m) at 2.
  apply list_to_map_proper; [apply NoDup_entries|apply entries_Permutation].
Qed.

Lemma elem_of_entries (m : gmap str SuspiciosAddressType) k d :
  (k, d) ∈ entries m <-> m !! k = Some d.
Proof. rewrite entries_Permutation. apply elem_of_map_to_list. Qed.

Lemma stored_address_full_width kv :
  (length kv.1 <= 39)%nat -> fits_columns kv.2 -> full_width (stored_address kv).
Proof.
  intros Hk Hd. unfold stored_address. split; [done|].
  rewrite !length_app, length_setw, length_payload_fields by done. done.
Qed.

Lemma omap_cons_Some {A B} (f : A -> option B) x y l :
  f x = Some y -> omap f (x :: l) = y :: omap f l.
Proof. intros H. simpl. by rewrite H. Qed.

(** the address records of the file [saveData] writes *)
Lemma records_of_store (es : list (str * SuspiciosAddressType)) (lfs : list LogFile) :
  Forall (fun kv => storable_address kv.1 /\ fits_columns kv.2 /\
                    whitelisted kv.2 && blacklisted kv.2 = false) es ->
  omap decode_address (filter full_width (map stored_address es ++ map stored_bookmark lfs)) =
  prod_map id persisted <$> es.
Proof.
  intros Hes. rewrite filter_app, omap_app.
  assert (filter full_width (map stored_bookmark lfs) = []) as ->.
  { induction lfs as [|lf lfs IH]; [done|]. cbn [map].
    rewrite filter_cons_False; [done|]. by intros [? _]. }
  rewrite app_nil_r.
  induction Hes as [|[k d] es (Hk & Hd & Hf) _ IH]; [done|]. cbn [map].
  rewrite filter_cons_True by (apply stored_address_full_width; [apply Hk|done]).
  rewrite (omap_cons_Some _ _ _ _ (decode_stored k d Hk Hd Hf)).
  rewrite fmap_cons. by rewrite IH.
Qed.

(** C5 (amended): compaction followed by a reload gives back the index, on
    every persisted field, when each address has at most 39 characters, no
    newline and no space in front, when the values fit their columns, when
    no record is both whitelisted and blacklisted, and when no configured
    log-file path holds a newline; [iptableRule] is [false] after the load. *)
Theorem compaction_round_trip (e : env) (st : state) :
  can_write e = true ->
  map_Forall (fun k d => storable_address k /\ fits_columns d /\
                         whitelisted d && blacklisted d = false)
             (suspiciousAddresses st) ->
  Forall (fun lf => NL ∉ lf_path lf) (all_logFiles (config st)) ->
  exists st',
    loadData e (saveData e st).2 = Some (true, st') /\
    suspiciousAddresses st' = persisted <$> suspiciousAddresses st.
Proof.
  intros Hw Hidx Hpaths. unfold map_Forall in Hidx. rewrite Forall_forall in Hpaths.
  pose proof (saveData_spec e st) as (Hi & Hc & _ & Hs). rewrite Hw in Hs.
  destruct Hs as [_ Hfiles]. set (st1 := (saveData e st).2) in *.
  set (lines := map stored_address (entries (suspiciousAddresses st)) ++
                map stored_bookmark (all_logFiles (config st))).
  assert (files st1 !! dataFilePath (config st1) = Some (lines_image lines)) as Hfile.
  { rewrite Hfiles, Hc, lookup_insert_eq. by rewrite store_image_lines. }
  assert (Forall (fun kv => storable_address kv.1 /\ fits_columns kv.2 /\
                            whitelisted kv.2 && blacklisted kv.2 = false)
                 (entries (suspiciousAddresses st))) as Hes.
  { apply Forall_forall. intros [k d] Hin. apply Hidx. by apply elem_of_entries. }
  assert (getlines (lines_image lines) = lines) as Hlines.
  { apply getlines_image. subst lines. apply Forall_app. split.
    - apply Forall_map. eapply Forall_impl; [exact Hes|].
      intros kv ((_ & Hnl & _) & _). by apply NL_stored_address.
    - apply Forall_map, Forall_forall. intros lf Hlf. by apply NL_stored_bookmark, Hpaths. }
  destruct (loadData_total e st1 (lines_image lines) Hfile) as (ok & st2 & Hload).
  { rewrite Hlines. subst lines. apply Forall_app. split.
    - apply Forall_map, Forall_forall. by intros kv _.
    - apply Forall_map, Forall_forall. intros lf _ _. apply stored_bookmark_long. }
  destruct (loadData_spec e st1 _ ok st2 Hfile Hload) as (st3 & dup & Hl & Hidx2 & _ & _ & Hres).
  rewrite Hlines in Hl.
  pose proof Hl as Hspec. apply loadLines_spec in Hspec as (Hidx3 & _).
  cbn [set_addresses suspiciousAddresses] in Hidx3.
  rewrite (left_id_L ∅ (∪)) in Hidx3.
  subst lines. rewrite records_of_store in Hidx3 by done.
  rewrite list_to_map_fmap, list_to_map_entries in Hidx3.
  assert (dup = false) as ->.
  { eapply loadLines_distinct; [exact Hl| |].
    - rewrite records_of_store by done. rewrite <- list_fmap_compose.
      rewrite (list_fmap_ext _ fst (entries (suspiciousAddresses st))) by (by intros ? []).
      apply NoDup_entries.
    - intros k _. apply lookup_empty. }
  destruct Hres as [-> _]. exists st2. split; [done|]. by rewrite Hidx2, Hidx3.
Qed.

(** ** The code on concrete stores *)


(** C2 (evaluation of the code): a store file that holds one bookmark line
    for a log file the configuration does not declare.  [loadData] succeeds
    and warns that it removes the bookmark, the configured log files are as
    before, but the file system, and so the leading ['b'] of the line, is
    unchanged: nothing is tombstoned. *)
Theorem orphan_bookmark_is_not_tombstoned :
  let st := Examples.st_orphan in
  let st' := Examples.loaded Examples.os st in
  files st !! dataFilePath (config st) = Some Examples.orphan /\
  head Examples.orphan = Some "b" /\
  loadData Examples.os st = Some (true, st') /\
  files st' = files st /\
  config st' = config st /\
  (LWarning, lit "Bookmark information in datafile for log file /var/log/old.log found, but file not present in configuration. Removing from datafile...")
    ∈ log st'.
Proof. intros st st'. split_all; settle. Qed.

Lemma loadData_takes_full_width_lines_witness :
  let st := Examples.st_mixed in
  let st' := Examples.loaded Examples.os st in
  files st !! dataFilePath (config st) = Some Examples.mixed /\
  loadData Examples.os st = Some (true, st') /\
  suspiciousAddresses st' =
    list_to_map (omap decode_address
      (filter (fun line => head line = Some "d" /\ length line = (1 + 91)%nat)
              (getlines Examples.mixed))) /\
  forall line acc,
    head line = Some "d" -> length line <> (1 + 91)%nat -> loadLine line acc = Some acc.
Proof.
  split; [vm_compute; reflexivity|]. split; [vm_compute; reflexivity|].
  apply (loadData_takes_full_width_lines Examples.os Examples.st_mixed Examples.mixed true
           (Examples.loaded Examples.os Examples.st_mixed)); vm_compute; reflexivity.
Defined.

Lemma whitelist_wins_on_load_witness :
  let st := Examples.st_both in
  let st' := Examples.loaded Examples.os st in
  (files st !! dataFilePath (config st) = Some (lines_image [Examples.line_both]) /\
   loadData Examples.os st = Some (true, st')) /\
  (forall k r, suspiciousAddresses st' !! k = Some r ->
               ~ (whitelisted r = true /\ blacklisted r = true)) /\
  exists k r,
    decode_address Examples.line_both = Some (k, r) /\
    whitelisted r = true /\ blacklisted r = false /\
    (LWarning, lit "Address " ++ k ++
       lit " is in whitelist and at the same time in blacklist! Removing address from blacklist...")
      ∈ log st' /\
    suspiciousAddresses st' !! k = Some r.
Proof.
  intros st st'.
  assert (files st !! dataFilePath (config st) = Some (lines_image [Examples.line_both])) as H1
    by (vm_compute; reflexivity).
  assert (loadData Examples.os st = Some (true, st')) as H2 by (vm_compute; reflexivity).
  split; [exact (conj H1 H2)|].
  destruct (whitelist_wins_on_load Examples.os st _ true st' H1 H2) as [Hinv Hline].
  split; [exact Hinv|].
  destruct (Hline [] Examples.line_both []) as (k & r & Hdec & Hw & Hb & Hlog & Hidx);
    try (vm_compute; reflexivity).
  exists k, r. split; [exact Hdec|]. split; [exact Hw|]. split; [exact Hb|].
  split; [exact Hlog|]. apply Hidx.
  intros l r' Hl. destruct (proj1 (elem_of_nil l) Hl).
Defined.

Lemma missing_record_is_reported_witness :
  let st := Examples.st_missing in
  let content := lines_image [Examples.tomb; Examples.bm; Examples.line_other] in
  (files st !! dataFilePath (config st) = Some content /\
   scan_finds Examples.addr content = false) /\
  (updateAddress Examples.os Examples.addr st).1 = false /\
  (removeAddress Examples.os Examples.addr st).1 = false.
Proof.
  intros st content.
  assert (files st !! dataFilePath (config st) = Some content) as H1 by (vm_compute; reflexivity).
  assert (scan_finds Examples.addr content = false) as H2 by (vm_compute; reflexivity).
  split; [exact (conj H1 H2)|].
  destruct (missing_record_is_reported Examples.os Examples.addr st content H1 H2)
    as (Hu & _ & Hr & _).
  exact (conj Hu Hr).
Defined.

Lemma failed_mutation_changes_nothing_witness :
  let st := Examples.st_missing in
  ((updateAddress Examples.os Examples.addr st).1 = false /\
   (removeAddress Examples.os Examples.addr st).1 = false) /\
  files (updateAddress Examples.os Examples.addr st).2 = files st /\
  suspiciousAddresses (updateAddress Examples.os Examples.addr st).2 = suspiciousAddresses st /\
  files (removeAddress Examples.os Examples.addr st).2 = files st /\
  suspiciousAddresses (removeAddress Examples.os Examples.addr st).2 = suspiciousAddresses st.
Proof.
  intros st.
  assert ((updateAddress Examples.os Examples.addr st).1 = false) as H1
    by (vm_compute; reflexivity).
  assert ((removeAddress Examples.os Examples.addr st).1 = false) as H2
    by (vm_compute; reflexivity).
  split; [exact (conj H1 H2)|].
  destruct (failed_mutation_changes_nothing updateAddress Examples.os Examples.addr st
              (or_introl eq_refl) H1) as (Hf1 & Hi1 & _).
  destruct (failed_mutation_changes_nothing removeAddress Examples.os Examples.addr st
              (or_intror eq_refl) H2) as (Hf2 & Hi2 & _).
  exact (conj Hf1 (conj Hi1 (conj Hf2 Hi2))).
Defined.

Lemma compaction_round_trip_witness :
  let st := Examples.st_index in
  (can_write Examples.os = true /\
   map_Forall (fun k d => storable_address k /\ fits_columns d /\
                          whitelisted d && blacklisted d = false)
              (suspiciousAddresses st) /\
   Forall (fun lf => NL ∉ lf_path lf) (all_logFiles (config st))) /\
  exists st',
    loadData Examples.os (saveData Examples.os st).2 = Some (true, st') /\
    suspiciousAddresses st' = persisted <$> suspiciousAddresses st.
Proof.
  intros st.
  assert (can_write Examples.os = true) as H1 by reflexivity.
  assert (map_Forall (fun k d => storable_address k /\ fits_columns d /\
                                 whitelisted d && blacklisted d = false)
                     (suspiciousAddresses st)) as H2 by by_computation.
  assert (Forall (fun lf => NL ∉ lf_path lf) (all_logFiles (config st))) as H3
    by by_computation.
  split; [exact (conj H1 (conj H2 H3))|].
  exact (compaction_round_trip Examples.os st H1 H2 H3).
Defined.

Lemma updateAddress_in_place_witness :
  let st := Examples.st_store in
  let pre := [Examples.tomb; Examples.bm; Examples.line_other] in
  let rest := lines_image [Examples.bm] in
  let line' := take 40 Examples.line1 ++ payload_fields Examples.rec7 in
  (can_write Examples.os = true /\
   files st !! dataFilePath (config st) =
     Some (lines_image pre ++ Examples.line1 ++ NL :: rest) /\
   Forall scannable pre /\
   Forall (fun l => ~ matches Examples.addr l) pre /\
   scannable Examples.line1 /\
   matches Examples.addr Examples.line1 /\
   fits_columns (map_index Examples.addr (suspiciousAddresses st)).1) /\
  (updateAddress Examples.os Examples.addr st).1 = true /\
  files (updateAddress Examples.os Examples.addr st).2 =
    <[dataFilePath (config st) := lines_image pre ++ line' ++ NL :: rest]> (files st) /\
  length line' = length Examples.line1.
Proof.
  intros st pre rest line'.
  assert (can_write Examples.os = true) as H1 by reflexivity.
  assert (files st !! dataFilePath (config st) =
            Some (lines_image pre ++ Examples.line1 ++ NL :: rest)) as H2
    by (vm_compute; reflexivity).
  assert (Forall scannable pre) as H3 by by_computation.
  assert (Forall (fun l => ~ matches Examples.addr l) pre) as H4 by by_computation.
  assert (scannable Examples.line1) as H5 by by_computation.
  assert (matches Examples.addr Examples.line1) as H6 by by_computation.
  assert (fits_columns (map_index Examples.addr (suspiciousAddresses st)).1) as H7
    by by_computation.
  split; [exact (conj H1 (conj H2 (conj H3 (conj H4 (conj H5 (conj H6 H7))))))|].
  destruct (updateAddress_in_place Examples.os Examples.addr st pre Examples.line1 rest
              H1 H2 H3 H4 H5 H6 H7) as (Hok & Hfiles & Hlen & _).
  exact (conj Hok (conj Hfiles Hlen)).
Defined.

(** C5 (counterexample): four indexes whose addresses are ASCII strings of
    at most 39 characters and whose counters fit their columns, and which
    compaction followed by a reload does not give back: an address with a
    space in front comes back without it; a record with both flags comes
    back not blacklisted; a record with a firewall rule comes back without
    it; and with a log-file path that holds a newline an empty index comes
    back with a record. *)
Lemma round_trip_counterexample :
  let reload st := Examples.loaded Examples.os (saveData Examples.os st).2 in
  let in_domain st :=
    map_Forall (fun k d => (length k <= 39)%nat /\
                           Forall (fun c => (N_of_ascii c < 128)%N) k /\ fits_columns d)
               (suspiciousAddresses st) in
  (in_domain Examples.st_space /\
   loadData Examples.os (saveData Examples.os Examples.st_space).2 =
     Some (true, reload Examples.st_space) /\
   suspiciousAddresses Examples.st_space !! lit " 203.0.113.5" = Some Examples.rec1 /\
   suspiciousAddresses (reload Examples.st_space) !! lit " 203.0.113.5" = None /\
   suspiciousAddresses (reload Examples.st_space) <> suspiciousAddresses Examples.st_space) /\
  (in_domain Examples.st_flags /\
   loadData Examples.os (saveData Examples.os Examples.st_flags).2 =
     Some (true, reload Examples.st_flags) /\
   blacklisted <$> suspiciousAddresses Examples.st_flags !! Examples.addr = Some true /\
   blacklisted <$> suspiciousAddresses (reload Examples.st_flags) !! Examples.addr = Some false) /\
  (in_domain Examples.st_rule /\
   loadData Examples.os (saveData Examples.os Examples.st_rule).2 =
     Some (true, reload Examples.st_rule) /\
   iptableRule <$> suspiciousAddresses Examples.st_rule !! Examples.addr = Some true /\
   iptableRule <$> suspiciousAddresses (reload Examples.st_rule) !! Examples.addr = Some false) /\
  (in_domain Examples.st_newline /\
   loadData Examples.os (saveData Examples.os Examples.st_newline).2 =
     Some (true, reload Examples.st_newline) /\
   suspiciousAddresses Examples.st_newline = ∅ /\
   suspiciousAddresses (reload Examples.st_newline) !! Examples.addr = Some Examples.rec1).
Proof.
  intros reload in_domain.
  split_all; settle.
Qed.

(** C6 (counterexample): two store files with a live line for the address.
    In the first the address has two lines: [removeAddress] tombstones the
    first, and the [loadData] that follows still has the address, with the
    record of the second line.  The second is what compaction and the append
    of the address write when the configuration declares a log file with an
    empty path: the scan steps over the address line together with the
    bookmark line, [removeAddress] returns failure and no byte changes. *)
Lemma tombstone_counterexample :
  let st1 := (removeAddress Examples.os Examples.addr Examples.st_twice).2 in
  let st2 := Examples.st_empty_path in
  (files Examples.st_twice !! Examples.dataFile =
     Some (lines_image [Examples.line1; Examples.line7]) /\
   full_width Examples.line1 /\ matches Examples.addr Examples.line1 /\
   (removeAddress Examples.os Examples.addr Examples.st_twice).1 = true /\
   files st1 !! Examples.dataFile =
     Some (lines_image [("r" : ascii) :: drop 1 Examples.line1; Examples.line7]) /\
   loadData Examples.os st1 = Some (true, Examples.loaded Examples.os st1) /\
   suspiciousAddresses (Examples.loaded Examples.os st1) !! Examples.addr =
     Some Examples.rec7) /\
  (files st2 !! Examples.dataFile =
     Some (lines_image [stored_bookmark (mkLogFile [] 0 0); Examples.line1]) /\
   full_width Examples.line1 /\ matches Examples.addr Examples.line1 /\
   suspiciousAddresses (Examples.loaded Examples.os st2) !! Examples.addr =
     Some Examples.rec1 /\
   (removeAddress Examples.os Examples.addr st2).1 = false /\
   files (removeAddress Examples.os Examples.addr st2).2 = files st2).
Proof.
  intros st1 st2.
  split_all; settle.
Qed.

(** C7 (counterexample): two store files with a live line for the address.
    The first is what compaction and the append of the address write when
    the configuration declares a log file with an empty path:
    [updateAddress] returns failure and no byte changes, though the index
    holds new values.  In the second the score needs eleven digits: the
    write runs one byte past the line, the newline of the line becomes
    ['n'] and the type byte of the next record becomes the newline. *)
Lemma update_counterexample :
  let st := Examples.st_empty_update in
  let old := Examples.content_of Examples.st_wide in
  let new := Examples.content_of (updateAddress Examples.os Examples.addr Examples.st_wide).2 in
  (files st !! Examples.dataFile =
     Some (lines_image [stored_bookmark (mkLogFile [] 0 0); Examples.line1]) /\
   full_width Examples.line1 /\ matches Examples.addr Examples.line1 /\
   suspiciousAddresses st !! Examples.addr = Some Examples.rec7 /\
   (updateAddress Examples.os Examples.addr st).1 = false /\
   files (updateAddress Examples.os Examples.addr st).2 = files st) /\
  (old = lines_image [Examples.line1; Examples.line_other] /\
   matches Examples.addr Examples.line1 /\
   suspiciousAddresses Examples.st_wide !! Examples.addr = Some Examples.rec_wide /\
   (updateAddress Examples.os Examples.addr Examples.st_wide).1 = true /\
   old !! 92%nat = Some NL /\ new !! 92%nat = Some ("n" : ascii) /\
   old !! 93%nat = Some ("d" : ascii) /\ new !! 93%nat = Some NL).
Proof.
  intros st old new.
  split_all; settle.
Qed.

(** * Further properties of the store *)

(** ** The loader at its edges *)

(** X2: a store file in which no address is read twice is only read:
    [loadData] succeeds and the file system is what it was, whatever else
    the file holds (tombstones, orphaned or matching bookmarks, lines of a
    wrong length). *)
Theorem loadData_without_duplicates_is_read_only (e : env) (st : state) (content : str)
    (ok : bool) (st' : state) :
  files st !! dataFilePath (config st) = Some content ->
  NoDup (address_records content).*1 ->
  loadData e st = Some (ok, st') ->
  ok = true /\ files st' = files st.
Proof.
  intros Hfile Hnd Hload.
  destruct (loadData_spec e st content ok st' Hfile Hload) as (st1 & dup & Hl & _ & _ & _ & Hres).
  assert (dup = false) as ->.
  { eapply loadLines_distinct; [exact Hl|exact Hnd|]. intros k _. apply lookup_empty. }
  exact Hres.
Qed.

Lemma loadLine_short_bookmark line acc :
  head line = Some "b" -> (length line < 41)%nat -> loadLine line acc = None.
Proof.
  intros Hb Hlen. destruct acc as [st dup]. unfold loadLine.
  assert (eqs (take 1 line) (lit "d") = false) as ->.
  { apply not_true_is_false. rewrite take1_d, Hb. by intros [=]. }
  apply take1_b in Hb. rewrite Hb. cbn [andb].
  unfold parse_bookmark, substr_from.
  rewrite (bool_decide_eq_false_2 (41 <= length line)%nat) by lia.
  destruct (substr line 1 20); [|done]. cbn [mbind option_bind].
  by destruct (substr line 21 20).
Qed.

Lemma loadLines_throws lines acc :
  Exists (fun line => head line = Some "b" /\ (length line < 41)%nat) lines ->
  loadLines lines acc = None.
Proof.
  intros Hex. revert acc. induction Hex as [line lines [Hb Hlen]|line lines _ IH]; intros acc;
    cbn [loadLines].
  - by rewrite loadLine_short_bookmark.
  - destruct (loadLine line acc) as [acc'|]; [|done]. apply IH.
Qed.

(** X3: [loadData] ends in an uncaught [std::out_of_range] exactly when the
    store file has a line that begins with ['b'] and is shorter than 41
    bytes, the width of the type byte and the two numbers. *)
Theorem loadData_throws_on_short_bookmark (e : env) (st : state) (content : str) :
  files st !! dataFilePath (config st) = Some content ->
  loadData e st = None <->
  Exists (fun line => head line = Some "b" /\ (length line < 41)%nat) (getlines content).
Proof.
  intros Hfile. split.
  - intros Hnone.
    destruct (decide (Exists (fun line => head line = Some "b" /\ (length line < 41)%nat)
                             (getlines content))) as [|Hno]; [done|].
    apply not_Exists_Forall in Hno; [|apply _].
    destruct (loadData_total e st content Hfile) as (ok & st' & Hload); [|congruence].
    eapply Forall_impl; [exact Hno|]. cbn. intros line Hl Hb.
    destruct (decide (41 <= length line)%nat); [done|]. exfalso. apply Hl. split; [done|lia].
  - intros Hex. unfold loadData. set (st0 := log_msg LInfo _ st).
    assert (files st0 !! dataFilePath (config st0) = Some content) as -> by exact Hfile.
    by rewrite loadLines_throws.
Qed.

(** ** What the point mutations do to any file *)

Lemma length_take_while p s : (length (take_while p s) <= length s)%nat.
Proof. induction s as [|c s IH]; simpl; [lia|]. destruct (p c); simpl; lia. Qed.

Lemma get_n_within f n :
  (pos f <= length (buf f))%nat -> (pos (get_n f n).2 <= length (buf f))%nat.
Proof.
  intros Hp. unfold get_n. destruct (good f); [|done]. cbn [snd pos].
  pose proof (length_take_while (fun c => negb (eqc c NL)) (take (n - 1) (drop (pos f) (buf f)))).
  rewrite length_take, length_drop in H. lia.
Qed.

(** where the search stops on a match, the position lies within the file *)
Lemma scan_loop_match_within address fuel f m f0 m0 :
  scan_loop no_action address fuel f m = Some (f0, m0, true) ->
  (pos f0 <= length (buf f0))%nat.
Proof.
  revert f. induction fuel as [|fuel IH]; intros f; [done|].
  cbn [scan_loop]. destruct (get f) as [[c|] f1] eqn:Hget; [|by intros [= _ _ ?]].
  apply get_Some in Hget as [Hc ->]. apply lookup_lt_Some in Hc.
  destruct (eqc c "d"); [|apply IH].
  destruct (get_n _ 40) as [fAddress f2] eqn:Hn.
  destruct (eqs _ address); [|apply IH].
  unfold no_action. intros [= <- _].
  pose proof (get_n_within (mkStream (buf f) (S (pos f)) false false) 40) as Hw.
  pose proof (get_n_buf (mkStream (buf f) (S (pos f)) false false) 40) as Hb.
  rewrite Hn in Hw, Hb. cbn [snd buf pos] in Hw, Hb. rewrite Hb. apply Hw. lia.
Qed.

Lemma overwrite_single (b : str) p c : (p < length b)%nat -> overwrite b p [c] = <[p := c]> b.
Proof.
  intros Hp. pose proof (take_drop p b) as Hb.
  assert (length (take p b) = p) as Hlen by (rewrite length_take; lia).
  destruct (drop p b) as [|x r] eqn:E.
  { apply (f_equal length) in E. rewrite length_drop in E. simpl in E. lia. }
  set (X := take p b) in *. rewrite <- Hb, <- Hlen.
  rewrite overwrite_split. cbn [length drop app].
  rewrite <- (Nat.add_0_r (length X)). by rewrite insert_app_r.
Qed.

(** what the match action of [removeAddress] can do to a buffer *)
Lemma remove_record_effect f m :
  (pos f <= length (buf f))%nat ->
  buf (remove_record f m).1 = buf f \/
  exists i, (i < length (buf f))%nat /\ buf (remove_record f m).1 = <[i := "r"]> (buf f).
Proof.
  intros Hp. unfold remove_record, seekg_cur. cbn [fst].
  destruct (failbit f); [by left|].
  destruct (Z.of_nat (pos f) + -40 <? 0)%Z eqn:E; [by left|].
  apply Z.ltb_ge in E. right. exists (Z.to_nat (Z.of_nat (pos f) + -40)).
  split; [lia|]. rewrite put_good. cbn [buf]. change (lit "r") with ["r"].
  apply overwrite_single. lia.
Qed.

(** X4: on any file whatsoever, well-formed or not, [removeAddress] leaves
    the length of the data file as it is and changes at most one of its
    bytes, which then is ['r']; no other file is touched. *)
Theorem removeAddress_alters_at_most_one_byte (e : env) (address : str) (st : state)
    (content : str) :
  files st !! dataFilePath (config st) = Some content ->
  exists content',
    files (removeAddress e address st).2 = <[dataFilePath (config st) := content']> (files st) /\
    length content' = length content /\
    (content' = content \/
     exists i, (i < length content)%nat /\ content' = <[i := "r"]> content).
Proof.
  intros Hfile. unfold removeAddress. set (st0 := log_msg LDebug _ st).
  rewrite (open_rw_found e st0 content Hfile).
  destruct (can_write e).
  2:{ exists content. cbn [snd log_msg files]. rewrite insert_id by done. auto. }
  rewrite (scan_factor remove_record).
  destruct (scan no_action address (open_stream content) (suspiciousAddresses st0))
    as [[f0 m0] found] eqn:Hscan.
  pose proof Hscan as Hframe. apply scan_search_frame in Hframe as [Hbuf _].
  cbn [buf open_stream] in Hbuf.
  destruct found.
  - assert (pos f0 <= length (buf f0))%nat as Hpos.
    { unfold scan in Hscan.
      pose proof (scan_runs no_action address (open_stream content) (suspiciousAddresses st0))
        as Hruns.
      unfold scan in Hruns. rewrite Hscan in Hruns.
      by apply scan_loop_match_within in Hruns. }
    pose proof (remove_record_effect f0 (suspiciousAddresses st0) Hpos) as Heff.
    destruct (remove_record f0 (suspiciousAddresses st0)) as [f1 m1].
    cbn [fst] in Heff. exists (buf f1). cbn [snd close_stream set_files set_addresses files config].
    split; [done|]. rewrite Hbuf in Heff.
    destruct Heff as [-> | (i & Hi & ->)]; [auto|].
    split; [apply length_insert|]. right. eauto.
  - exists content. cbn [snd close_stream set_files set_addresses log_msg files config].
    rewrite Hbuf. auto.
Qed.

(** ** The point mutations on a well-formed file *)

(** the state after a successful [removeAddress] *)
Lemma removeAddress_found e address st pre line rest :
  can_write e = true ->
  files st !! dataFilePath (config st) = Some (lines_image pre ++ line ++ NL :: rest) ->
  Forall scannable pre -> Forall (fun l => ~ matches address l) pre ->
  scannable line -> matches address line ->
  (removeAddress e address st).1 = true /\
  files (removeAddress e address st).2 =
    <[dataFilePath (config st) := lines_image pre ++ ("r" :: drop 1 line) ++ NL :: rest]>
      (files st) /\
  config (removeAddress e address st).2 = config st /\
  suspiciousAddresses (removeAddress e address st).2 = suspiciousAddresses st.
Proof.
  intros Hw Hfile Hpre Hno Hline Hm.
  unfold removeAddress. set (st0 := log_msg LDebug _ st).
  rewrite (open_rw_found e st0 _ Hfile), Hw.
  rewrite scan_first_match by done.
  rewrite remove_record_spec, put_good.
  cbn [fst snd close_stream set_addresses set_files buf files config suspiciousAddresses].
  split; [done|]. split; [|done]. f_equal.
  destruct line as [|c line0]; [by destruct Hm|].
  destruct Hm as [Hd _]. injection Hd as ->.
  rewrite <- (app_nil_r (lines_image pre)) at 1.
  rewrite <- app_assoc. cbn [app drop].
  change ("d" :: line0 ++ NL :: rest) with ([("d" : ascii)] ++ (line0 ++ NL :: rest)).
  by rewrite overwrite_middle.
Qed.

(** the state after a successful [updateAddress] *)
Lemma updateAddress_found e address st pre line rest :
  can_write e = true ->
  files st !! dataFilePath (config st) = Some (lines_image pre ++ line ++ NL :: rest) ->
  Forall scannable pre -> Forall (fun l => ~ matches address l) pre ->
  scannable line -> matches address line ->
  fits_columns (map_index address (suspiciousAddresses st)).1 ->
  (updateAddress e address st).1 = true /\
  files (updateAddress e address st).2 =
    <[dataFilePath (config st) :=
        lines_image pre ++
        (take 40 line ++ payload_fields (map_index address (suspiciousAddresses st)).1) ++
        NL :: rest]> (files st) /\
  config (updateAddress e address st).2 = config st /\
  suspiciousAddresses (updateAddress e address st).2 =
    (map_index address (suspiciousAddresses st)).2.
Proof.
  intros Hw Hfile Hpre Hno Hline Hm Hfits.
  pose proof (scannable_full_width line Hline (proj1 Hm)) as Hlen.
  unfold updateAddress. set (st0 := log_msg LDebug _ st).
  rewrite (open_rw_found e st0 _ Hfile), Hw.
  rewrite scan_first_match by done.
  rewrite update_record_spec by (rewrite !length_app; lia).
  change (suspiciousAddresses st0) with (suspiciousAddresses st).
  rewrite put_good.
  cbn [fst snd close_stream set_addresses set_files buf files config suspiciousAddresses].
  split; [done|]. split; [|done]. f_equal.
  rewrite <- (take_drop 40 line) at 1.
  replace (length (lines_image pre) + 40)%nat with (length (lines_image pre ++ take 40 line))
    by (rewrite length_app, length_take; lia).
  rewrite <- (app_assoc (take 40 line)), (app_assoc (lines_image pre)).
  change (drop 40 line ++ NL :: rest) with (drop 40 line ++ [NL] ++ rest).
  rewrite (app_assoc (drop 40 line)).
  rewrite overwrite_middle.
  - unfold payload. by rewrite <- !app_assoc.
  - unfold payload. rewrite !length_app, length_payload_fields, length_drop by done.
    simpl. lia.
Qed.

(** the state after a scan that finds nothing *)
Lemma mutation_not_found e address st content :
  files st !! dataFilePath (config st) = Some content ->
  scan_finds address content = false ->
  ((updateAddress e address st).1 = false /\
   files (updateAddress e address st).2 = files st /\
   suspiciousAddresses (updateAddress e address st).2 = suspiciousAddresses st) /\
  ((removeAddress e address st).1 = false /\
   files (removeAddress e address st).2 = files st /\
   suspiciousAddresses (removeAddress e address st).2 = suspiciousAddresses st).
Proof.
  intros Hfile Hfind. unfold scan_finds in Hfind.
  pose proof (scan_search_found address (open_stream content) (suspiciousAddresses st)) as Hm.
  rewrite Hfind in Hm.
  destruct (scan no_action address (open_stream content) (suspiciousAddresses st))
    as [[f0 m0] found] eqn:Hscan.
  cbn [snd] in Hm. subst found.
  apply scan_search_frame in Hscan as Hframe. destruct Hframe as [Hbuf _].
  cbn [buf open_stream] in Hbuf.
  unfold updateAddress, removeAddress.
  set (st1 := log_msg LDebug _ st). set (st2 := log_msg LDebug _ st).
  rewrite (open_rw_found e st1 content), (open_rw_found e st2 content) by done.
  destruct (can_write e); [|done].
  rewrite (scan_factor (update_record address)), (scan_factor remove_record).
  change (suspiciousAddresses st1) with (suspiciousAddresses st).
  change (suspiciousAddresses st2) with (suspiciousAddresses st).
  rewrite Hscan.
  cbn [fst snd close_stream set_addresses set_files log_msg files config suspiciousAddresses].
  change (files st1) with (files st). change (files st2) with (files st).
  change (config st1) with (config st). change (config st2) with (config st).
  rewrite Hbuf, insert_id by done. done.
Qed.

Lemma tombstone_scannable line :
  scannable line -> head line = Some "d" -> scannable ("r" :: drop 1 line).
Proof.
  intros Hline Hd. pose proof (scannable_full_width line Hline Hd) as Hlen.
  destruct Hline as [Hnl _]. destruct line as [|c line0]; [done|].
  cbn [drop]. rewrite drop_0. cbn [length] in Hlen.
  apply not_elem_of_cons in Hnl as [_ Hnl].
  split; [apply not_elem_of_cons; split; [done|exact Hnl]|].
  right. split; [done|]. cbn [length]. lia.
Qed.

(** X5: once [removeAddress] has tombstoned the only live line of an
    address in a well-formed store file, the record is out of reach: a
    further [updateAddress] or [removeAddress] for the address returns
    failure and leaves the file system and the index as they are. *)
Theorem removed_record_is_out_of_reach (e e2 : env) (address : str) (st : state)
    (pre post : list str) (line : str) :
  can_write e = true ->
  files st !! dataFilePath (config st) = Some (lines_image (pre ++ line :: post)) ->
  Forall scannable (pre ++ post) ->
  Forall (fun l => ~ matches address l) (pre ++ post) ->
  scannable line -> matches address line ->
  let st1 := (removeAddress e address st).2 in
  ((updateAddress e2 address st1).1 = false /\
   files (updateAddress e2 address st1).2 = files st1 /\
   suspiciousAddresses (updateAddress e2 address st1).2 = suspiciousAddresses st1) /\
  ((removeAddress e2 address st1).1 = false /\
   files (removeAddress e2 address st1).2 = files st1 /\
   suspiciousAddresses (removeAddress e2 address st1).2 = suspiciousAddresses st1).
Proof.
  intros Hw Hfile Hscan Hno Hline Hm st1.
  apply Forall_app in Hscan as [Hpre Hpost]. apply Forall_app in Hno as [Hnopre Hnopost].
  rewrite lines_image_app, lines_image_cons in Hfile.
  destruct (removeAddress_found e address st pre line (lines_image post)
              Hw Hfile Hpre Hnopre Hline Hm) as (_ & Hfiles & Hcfg & _).
  fold st1 in Hfiles, Hcfg.
  apply (mutation_not_found e2 address st1
           (lines_image (pre ++ ("r" :: drop 1 line) :: post))).
  - rewrite Hfiles, Hcfg, lookup_insert_eq.
    by rewrite lines_image_app, lines_image_cons.
  - apply scan_finds_none.
    + apply Forall_app. split; [done|]. apply Forall_cons. split; [|done].
      apply tombstone_scannable; [done|apply Hm].
    + apply Forall_app. split; [done|]. apply Forall_cons. split; [|done].
      by intros [? _].
Qed.

(** ** Mutation followed by a load *)

(** the index a returning [loadData] leaves behind *)
Lemma loadData_index e st content ok st' :
  files st !! dataFilePath (config st) = Some content ->
  loadData e st = Some (ok, st') ->
  suspiciousAddresses st' = list_to_map (address_records content).
Proof.
  intros Hfile Hload.
  destruct (loadData_spec e st content ok st' Hfile Hload) as (st1 & dup & Hl & -> & _).
  apply loadLines_spec in Hl as (-> & _).
  cbn [suspiciousAddresses set_addresses]. by rewrite (left_id ∅ (∪)).
Qed.

(** [loadData] on a file given by its lines *)
Lemma loadData_lines e st ls :
  files st !! dataFilePath (config st) = Some (lines_image ls) ->
  Forall (fun l => NL ∉ l) ls ->
  Forall (fun l => head l = Some "b" -> (41 <= length l)%nat) ls ->
  exists ok st', loadData e st = Some (ok, st') /\
    suspiciousAddresses st' = list_to_map (omap decode_address (filter full_width ls)).
Proof.
  intros Hfile Hnl Hb.
  destruct (loadData_total e st _ Hfile) as (ok & st' & Hload).
  { by rewrite getlines_image. }
  exists ok, st'. split; [done|].
  rewrite (loadData_index _ _ _ _ _ Hfile Hload). unfold address_records.
  by rewrite getlines_image.
Qed.

Lemma address_line_stored a d : address_line a d = stored_address (a, d) ++ [NL].
Proof. unfold address_line, stored_address, payload. cbn [fst snd]. by rewrite <- !app_assoc. Qed.

Lemma length_drop_while p s : (length (drop_while p s) <= length s)%nat.
Proof. induction s as [|c s IH]; simpl; [lia|]. destruct (p c); simpl; lia. Qed.

(** a field whose trimmed content is [a] is [a] padded on the left *)
Lemma ltrim_field s : s = setw (length s) (Util.ltrim s).
Proof.
  unfold Util.ltrim, setw. induction s as [|c s IH]; [done|].
  cbn [drop_while]. destruct (eqc c SP) eqn:E.
  - apply eqc_true in E as ->.
    pose proof (length_drop_while (fun c => eqc c SP) s) as Hle.
    cbn [length]. replace (S (length s) - length (drop_while (fun c => eqc c SP) s))%nat
      with (S (length s - length (drop_while (fun c => eqc c SP) s))) by lia.
    cbn [replicate app]. by rewrite <- IH.
  - by rewrite Nat.sub_diag.
Qed.

Lemma ltrim_idemp s : Util.ltrim (Util.ltrim s) = Util.ltrim s.
Proof.
  unfold Util.ltrim. induction s as [|c s IH]; [done|].
  cbn [drop_while]. destruct (eqc c SP) eqn:E; [done|]. cbn [drop_while]. by rewrite E.
Qed.

Lemma ltrim_suffix s : Util.ltrim s `suffix_of` s.
Proof.
  unfold Util.ltrim. induction s as [|c s IH]; [done|].
  cbn [drop_while]. destruct (eqc c SP); [by apply suffix_cons_r|done].
Qed.

(** the first 40 bytes of a live line, and its address *)
Lemma matched_line_head address line :
  scannable line -> matches address line ->
  take 40 line = lit "d" ++ setw 39 address /\ storable_address address.
Proof.
  intros Hline [Hd Ha]. pose proof (scannable_full_width line Hline Hd) as Hlen.
  destruct Hline as [Hnl _]. destruct line as [|c line0]; [done|].
  injection Hd as ->. cbn [length] in Hlen. unfold line_address in Ha. cbn [drop] in Ha.
  rewrite drop_0 in Ha. apply not_elem_of_cons in Hnl as [_ Hnl].
  assert (length (take 39 line0) = 39%nat) as Hl39 by (rewrite length_take; lia).
  split.
  - cbn [take]. change (lit "d") with ["d"]. cbn [app]. f_equal.
    rewrite (ltrim_field (take 39 line0)) at 1. by rewrite Hl39, Ha.
  - pose proof (ltrim_suffix (take 39 line0)) as Hsuf. rewrite Ha in Hsuf.
    split; [|split].
    + apply suffix_length in Hsuf. lia.
    + intros Hin. apply Hnl. destruct Hsuf as [k Hk].
      apply (subseteq_take 39 line0). rewrite Hk. apply elem_of_app. by right.
    + rewrite <- Ha. apply ltrim_idemp.
Qed.

Lemma map_index_again (k : str) (m : gmap str SuspiciosAddressType) :
  map_index k (map_index k m).2 = ((map_index k m).1, (map_index k m).2).
Proof.
  unfold map_index. destruct (m !! k) eqn:E; cbn [fst snd].
  - by rewrite E.
  - by rewrite lookup_insert_eq.
Qed.

Lemma records_snoc ls line k r :
  full_width line -> decode_address line = Some (k, r) ->
  (list_to_map (omap decode_address (filter full_width (ls ++ [line])))
     : gmap str SuspiciosAddressType) =
  list_to_map (omap decode_address (filter full_width ls)) ∪ {[k := r]}.
Proof.
  intros Hfw Hdec. rewrite filter_app, omap_app, filter_cons_True, filter_nil by done.
  rewrite (omap_cons_Some _ _ _ _ Hdec). cbn [omap].
  rewrite list_to_map_app. f_equal.
Qed.

(** X6: [addAddress] followed by [loadData].  On a file of complete lines,
    the append adds exactly the line [saveData] would write for the record,
    and the next load returns the records of the old lines, plus the
    persisted fields of the new record under its address if no old line
    holds that address (a line already in the file wins). *)
Theorem addAddress_then_load (e e2 : env) (address : str) (st : state) (ls : list str) :
  can_write e = true ->
  default [] (files st !! dataFilePath (config st)) = lines_image ls ->
  Forall (fun l => NL ∉ l) ls ->
  Forall (fun l => head l = Some "b" -> (41 <= length l)%nat) ls ->
  storable_address address ->
  let d := (map_index address (suspiciousAddresses st)).1 in
  fits_columns d -> whitelisted d && blacklisted d = false ->
  let st1 := (addAddress e address st).2 in
  files st1 = <[dataFilePath (config st) := lines_image (ls ++ [stored_address (address, d)])]>
                (files st) /\
  exists ok st',
    loadData e2 st1 = Some (ok, st') /\
    suspiciousAddresses st' =
      list_to_map (omap decode_address (filter full_width ls)) ∪ {[address := persisted d]}.
Proof.
  intros Hw Hold Hnl Hb Ha d Hfits Hflags st1.
  assert (files st1 = <[dataFilePath (config st) :=
                          lines_image (ls ++ [stored_address (address, d)])]> (files st) /\
          config st1 = config st) as [Hfiles Hcfg].
  { subst st1 d. unfold addAddress. rewrite Hw.
    cbn [log_msg suspiciousAddresses files config].
    destruct (map_index address (suspiciousAddresses st)) as [d m].
    cbn [fst snd set_files set_addresses files config]. split; [|done].
    rewrite Hold, address_line_stored, lines_image_app. f_equal. f_equal.
    unfold lines_image. cbn [map concat]. by rewrite app_nil_r. }
  split; [done|].
  destruct (loadData_lines e2 st1 (ls ++ [stored_address (address, d)])) as (ok & st' & Hl & Hi).
  - by rewrite Hcfg, Hfiles, lookup_insert_eq.
  - apply Forall_app. split; [done|]. apply Forall_singleton.
    apply NL_stored_address. apply Ha.
  - apply Forall_app. split; [done|]. apply Forall_singleton. by intros [=].
  - exists ok, st'. split; [done|]. rewrite Hi.
    apply records_snoc.
    + apply stored_address_full_width; [apply Ha|done].
    + by apply decode_stored.
Qed.

(** X7: [addAddress] does not check the length of the address.  For an
    address of more than 39 characters the appended line is longer than an
    address record, and [loadData] never reads it back: the next load
    returns the records of the old lines only. *)
Theorem long_address_is_not_loaded (e e2 : env) (address : str) (st : state) (ls : list str) :
  can_write e = true ->
  default [] (files st !! dataFilePath (config st)) = lines_image ls ->
  Forall (fun l => NL ∉ l) ls ->
  Forall (fun l => head l = Some "b" -> (41 <= length l)%nat) ls ->
  (NL ∉ address) -> (39 < length address)%nat ->
  let st1 := (addAddress e address st).2 in
  (addAddress e address st).1 = true /\
  (length (default [] (files st1 !! dataFilePath (config st))) >
   length (lines_image ls) + 93)%nat /\
  exists ok st',
    loadData e2 st1 = Some (ok, st') /\
    suspiciousAddresses st' = list_to_map (omap decode_address (filter full_width ls)).
Proof.
  intros Hw Hold Hnl Hb Ha Hlong st1.
  set (d := (map_index address (suspiciousAddresses st)).1).
  assert ((addAddress e address st).1 = true /\
          files st1 = <[dataFilePath (config st) :=
                          lines_image (ls ++ [stored_address (address, d)])]> (files st) /\
          config st1 = config st) as (Hret & Hfiles & Hcfg).
  { subst st1 d. unfold addAddress. rewrite Hw.
    cbn [log_msg suspiciousAddresses files config].
    destruct (map_index address (suspiciousAddresses st)) as [d m].
    cbn [fst snd set_files set_addresses files config]. split; [done|]. split; [|done].
    rewrite Hold, address_line_stored, lines_image_app. f_equal. f_equal.
    unfold lines_image. cbn [map concat]. by rewrite app_nil_r. }
  assert (92 < length (stored_address (address, d)))%nat as Hlen.
  { unfold stored_address, payload_fields. cbn [fst snd]. rewrite !length_app.
    pose proof (length_setw_ge 39 address). unfold setw in *.
    rewrite !length_app, !length_replicate in *.
    destruct (whitelisted d), (blacklisted d); simpl; lia. }
  split; [done|]. split.
  { rewrite Hfiles, lookup_insert_eq. unfold default. cbn [from_option id].
    rewrite lines_image_app, length_app, lines_image_cons, length_app. cbn [length]. lia. }
  destruct (loadData_lines e2 st1 (ls ++ [stored_address (address, d)])) as (ok & st' & Hl & Hi).
  - by rewrite Hcfg, Hfiles, lookup_insert_eq.
  - apply Forall_app. split; [done|]. apply Forall_singleton. by apply NL_stored_address.
  - apply Forall_app. split; [done|]. apply Forall_singleton. by intros [=].
  - exists ok, st'. split; [done|]. rewrite Hi.
    rewrite filter_app, filter_cons_False, filter_nil, app_nil_r; [done|].
    intros [_ Hfw]. lia.
Qed.

(** the line [updateAddress] leaves behind is the line [saveData] writes *)
Lemma updated_line address line d :
  scannable line -> matches address line ->
  take 40 line ++ payload_fields d = stored_address (address, d).
Proof.
  intros Hline Hm. destruct (matched_line_head address line Hline Hm) as [-> _].
  unfold stored_address. cbn [fst snd]. by rewrite <- app_assoc.
Qed.

Lemma scannable_lines ls :
  Forall scannable ls ->
  Forall (fun l => NL ∉ l) ls /\
  Forall (fun l => head l = Some "b" -> (41 <= length l)%nat) ls.
Proof.
  intros H. split; eapply Forall_impl; try exact H.
  - by intros l [? _].
  - intros l Hl. by apply scannable_loadable.
Qed.

Lemma records_middle pre line post k r :
  full_width line -> decode_address line = Some (k, r) ->
  Forall (fun l => ~ matches k l) pre ->
  (list_to_map (omap decode_address (filter full_width (pre ++ line :: post)))
     : gmap str SuspiciosAddressType) =
  list_to_map (omap decode_address (filter full_width pre)) ∪
  <[k := r]> (list_to_map (omap decode_address (filter full_width post))).
Proof.
  intros Hfw Hdec Hno. rewrite filter_app, omap_app, filter_cons_True by done.
  rewrite (omap_cons_Some _ _ _ _ Hdec). by rewrite list_to_map_app.
Qed.

(** X8: [updateAddress] followed by [loadData].  On a well-formed file the
    line of the address becomes, byte for byte, the line [saveData] writes
    for the in-memory record, and the next load returns what a load would
    have returned before, with the address mapped to the persisted fields
    of the in-memory record. *)
Theorem updateAddress_then_load (e e2 : env) (address : str) (st : state)
    (pre post : list str) (line : str) :
  can_write e = true ->
  files st !! dataFilePath (config st) = Some (lines_image (pre ++ line :: post)) ->
  Forall scannable (pre ++ line :: post) ->
  Forall (fun l => ~ matches address l) pre ->
  matches address line ->
  let d := (map_index address (suspiciousAddresses st)).1 in
  fits_columns d -> whitelisted d && blacklisted d = false ->
  let st1 := (updateAddress e address st).2 in
  files st1 = <[dataFilePath (config st) :=
                  lines_image (pre ++ stored_address (address, d) :: post)]> (files st) /\
  exists ok st',
    loadData e2 st1 = Some (ok, st') /\
    suspiciousAddresses st' =
      <[address := persisted d]>
        (list_to_map (address_records (lines_image (pre ++ line :: post)))).
Proof.
  intros Hw Hfile Hscan Hno Hm d Hfits Hflags st1.
  apply Forall_app in Hscan as [Hpre Hrest]. apply Forall_cons in Hrest as [Hline Hpost].
  destruct (matched_line_head address line Hline Hm) as [_ Ha].
  pose proof (scannable_full_width line Hline (proj1 Hm)) as Hlen.
  assert (files st1 = <[dataFilePath (config st) :=
                          lines_image (pre ++ stored_address (address, d) :: post)]> (files st) /\
          config st1 = config st) as [Hfiles Hcfg].
  { rewrite lines_image_app, lines_image_cons in Hfile.
    destruct (updateAddress_found e address st pre line (lines_image post)
                Hw Hfile Hpre Hno Hline Hm Hfits) as (_ & Hf & Hc & _).
    fold d in Hf. fold st1 in Hf, Hc. split; [|done].
    rewrite Hf, (updated_line address line d Hline Hm).
    by rewrite lines_image_app, lines_image_cons. }
  split; [done|].
  destruct (scannable_lines pre Hpre) as [Hnlpre Hbpre].
  destruct (scannable_lines post Hpost) as [Hnlpost Hbpost].
  assert (NL ∉ stored_address (address, d)) as Hnl by (apply NL_stored_address, Ha).
  destruct (loadData_lines e2 st1 (pre ++ stored_address (address, d) :: post))
    as (ok & st' & Hl & Hi).
  - by rewrite Hcfg, Hfiles, lookup_insert_eq.
  - apply Forall_app. split; [done|]. by apply Forall_cons.
  - apply Forall_app. split; [done|]. apply Forall_cons. split; [by intros [=]|done].
  - exists ok, st'. split; [done|]. rewrite Hi.
    unfold address_records. rewrite getlines_image.
    2:{ apply Forall_app. split; [done|]. apply Forall_cons. split; [apply Hline|done]. }
    destruct (decode_address_full line Hlen) as [[k r] Hdec].
    assert (k = address) as ->.
    { rewrite (decode_address_key line k r Hlen Hdec). apply Hm. }
    rewrite (records_middle pre line post address r); [|by split; [apply Hm|]|done|done].
    rewrite (records_middle pre (stored_address (address, d)) post address (persisted d));
      [|apply stored_address_full_width; [apply Ha|done]|by apply decode_stored|done].
    rewrite insert_union_r, insert_insert_eq; [done|].
    apply not_elem_of_list_to_map_1. by apply records_without_address.
Qed.

(** X9: the append and the in-place update write the same layout.  For an
    address the format can carry (at most 39 characters, no newline, no
    space in front) that holds no NUL byte, and whose in-memory record fits
    its columns: an [updateAddress] straight after the [addAddress] of the
    address, which had no live line in a well-formed file, finds the
    appended line, and leaves every file, the index and the configuration
    exactly as the append left them. *)
Theorem update_after_add_changes_nothing (e e2 : env) (address : str) (st : state)
    (ls : list str) :
  can_write e = true -> can_write e2 = true ->
  default [] (files st !! dataFilePath (config st)) = lines_image ls ->
  Forall scannable ls ->
  Forall (fun l => ~ matches address l) ls ->
  storable_address address -> (NUL ∉ address) ->
  fits_columns (map_index address (suspiciousAddresses st)).1 ->
  let st1 := (addAddress e address st).2 in
  (updateAddress e2 address st1).1 = true /\
  files (updateAddress e2 address st1).2 = files st1 /\
  suspiciousAddresses (updateAddress e2 address st1).2 = suspiciousAddresses st1 /\
  config (updateAddress e2 address st1).2 = config st1.
Proof.
  intros Hw Hw2 Hold Hscan Hno Ha Hnul Hfits st1.
  set (d := (map_index address (suspiciousAddresses st)).1) in *.
  set (line := stored_address (address, d)).
  assert (files st1 = <[dataFilePath (config st) := lines_image ls ++ line ++ NL :: []]>
                        (files st) /\
          config st1 = config st /\
          suspiciousAddresses st1 = (map_index address (suspiciousAddresses st)).2)
    as (Hfiles & Hcfg & Hidx).
  { subst st1 d line. unfold addAddress. rewrite Hw.
    cbn [log_msg suspiciousAddresses files config].
    destruct (map_index address (suspiciousAddresses st)) as [d m].
    cbn [fst snd set_files set_addresses files config suspiciousAddresses].
    split; [|done]. by rewrite Hold, address_line_stored. }
  assert (full_width line) as Hfw by (apply stored_address_full_width; [apply Ha|done]).
  assert (take 39 (drop 1 line) = setw 39 address) as Hfield.
  { subst line. unfold stored_address. cbn [fst snd]. change (lit "d") with ["d"].
    cbn [app drop]. rewrite drop_0, take_app_length'; [done|].
    symmetry. apply length_setw, Ha. }
  assert (scannable line) as Hline.
  { split; [apply NL_stored_address, Ha|]. left. split; [done|].
    rewrite Hfield. unfold setw. apply not_elem_of_app. split; [|done].
    intros Hin. by apply elem_of_replicate in Hin as [? _]. }
  assert (matches address line) as Hm.
  { split; [apply Hfw|]. unfold line_address. rewrite Hfield. apply ltrim_setw, Ha. }
  assert (files st1 !! dataFilePath (config st1) = Some (lines_image ls ++ line ++ NL :: []))
    as Hfile by (by rewrite Hcfg, Hfiles, lookup_insert_eq).
  assert (map_index address (suspiciousAddresses st1) = (d, suspiciousAddresses st1)) as Hidx2.
  { rewrite Hidx. apply map_index_again. }
  destruct (updateAddress_found e2 address st1 ls line [] Hw2 Hfile Hscan Hno Hline Hm)
    as (Hret & Hf & Hc & Hi).
  { by rewrite Hidx2. }
  rewrite Hidx2 in Hf, Hi. cbn [fst snd] in Hf, Hi.
  split; [done|]. split; [|done].
  rewrite Hf, (updated_line address line d Hline Hm). fold line.
  by apply insert_id.
Qed.

(** ** What a loaded index looks like *)

Lemma getlines_NL s : Forall (fun l => NL ∉ l) (getlines s).
Proof.
  induction s as [|c s IH]; cbn [getlines]; [constructor|].
  destruct (eqc c NL) eqn:E.
  - constructor; [apply not_elem_of_nil|done].
  - apply eqc_false in E. destruct (getlines s) as [|l ls].
    + constructor; [|constructor]. intros Hin. apply list_elem_of_singleton in Hin. congruence.
    + apply Forall_cons in IH as [Hl Hls]. constructor; [|done].
      apply not_elem_of_cons. split; [congruence|done].
Qed.

(** the C library returns a value of the 64-bit type *)
Lemma strtoull_bound s : (strtoull s <= ULLONG_MAX)%N.
Proof.
  unfold strtoull.
  destruct (match drop_while isspace s with
            | [] => (false, drop_while isspace s)
            | c :: r => if eqc c "-" then (true, r)
                        else if eqc c "+" then (false, r) else (false, drop_while isspace s)
            end) as [neg s2].
  destruct (ULLONG_MAX <? digits_value 0 s2)%N eqn:E; [lia|].
  apply N.ltb_ge in E. destruct neg; [|done].
  pose proof (N.mod_upper_bound (ULLONG_MAX + 1 - digits_value 0 s2) (ULLONG_MAX + 1)).
  unfold ULLONG_MAX in *. lia.
Qed.

(** the key and the record decoded from a line of the file *)
Lemma decode_storable line k d :
  (NL ∉ line) -> length line = 92%nat -> decode_address line = Some (k, d) ->
  storable_address k /\ persisted d = d /\
  (lastActivity d <= ULLONG_MAX)%N /\ (activityScore d <= ULLONG_MAX)%N /\
  (activityCount d <= ULLONG_MAX)%N /\ (refusedCount d <= ULLONG_MAX)%N.
Proof.
  intros Hnl Hlen Hdec. unfold decode_address in Hdec.
  rewrite parse_address_full in Hdec by done. cbn in Hdec. injection Hdec as <- <-.
  split; [|split; [done|]].
  - pose proof (ltrim_suffix (take 39 (drop 1 line))) as Hsuf.
    split; [|split].
    + apply suffix_length in Hsuf. rewrite length_take in Hsuf. lia.
    + intros Hin. apply Hnl. destruct Hsuf as [p Hp].
      apply (subseteq_drop 1 line), (subseteq_take 39 (drop 1 line)).
      rewrite Hp. apply elem_of_app. by right.
    + apply ltrim_idemp.
  - cbn [lastActivity activityScore activityCount refusedCount]. unfold strtoul.
    repeat split; apply strtoull_bound.
Qed.

Lemma elem_of_address_records content k d :
  (k, d) ∈ address_records content ->
  exists line, line ∈ getlines content /\ full_width line /\ decode_address line = Some (k, d).
Proof.
  unfold address_records. intros Hin.
  apply list_elem_of_omap in Hin as (line & Hl & Hdec).
  apply list_elem_of_filter in Hl as [Hfw Hl]. eauto.
Qed.

Lemma loaded_records content (k : str) d :
  (list_to_map (address_records content) : gmap str SuspiciosAddressType) !! k = Some d ->
  storable_address k /\ persisted d = d /\ whitelisted d && blacklisted d = false /\
  (lastActivity d <= ULLONG_MAX)%N /\ (activityScore d <= ULLONG_MAX)%N /\
  (activityCount d <= ULLONG_MAX)%N /\ (refusedCount d <= ULLONG_MAX)%N.
Proof.
  intros Hk. apply elem_of_list_to_map_2 in Hk.
  apply elem_of_address_records in Hk as (line & Hl & [_ Hlen] & Hdec).
  pose proof (getlines_NL content) as Hnl. rewrite Forall_forall in Hnl.
  destruct (decode_storable line k d (Hnl line Hl) Hlen Hdec) as (? & ? & ?).
  split; [done|]. split; [done|]. split; [|done].
  by eapply decode_address_flags.
Qed.

(** X10: whatever bytes the store file holds, every entry of the index
    [loadData] returns has an address the format can carry (at most 39
    characters, no newline, no space in front), has [iptableRule] unset,
    and holds values of the 64-bit type. *)
Theorem loaded_index_is_storable (e : env) (st : state) (content : str) (ok : bool)
    (st' : state) :
  files st !! dataFilePath (config st) = Some content ->
  loadData e st = Some (ok, st') ->
  map_Forall (fun k d =>
      storable_address k /\ iptableRule d = false /\
      (lastActivity d <= ULLONG_MAX)%N /\ (activityScore d <= ULLONG_MAX)%N /\
      (activityCount d <= ULLONG_MAX)%N /\ (refusedCount d <= ULLONG_MAX)%N)
    (suspiciousAddresses st').
Proof.
  intros Hfile Hload k d Hk.
  rewrite (loadData_index e st content ok st' Hfile Hload) in Hk.
  destruct (loaded_records content k d Hk) as (Ha & Hp & _ & Hb).
  split; [done|]. split; [|done]. rewrite <- Hp. done.
Qed.

(** ** Loading leaves the configured paths alone *)

Lemma mark_logFiles_paths p b s lfs lfs' :
  mark_logFiles p b s lfs = Some lfs' -> map lf_path lfs' = map lf_path lfs.
Proof.
  revert lfs'. induction lfs as [|lf lfs IH]; intros lfs'; cbn [mark_logFiles]; [done|].
  destruct (eqs (lf_path lf) p).
  - by intros [= <-].
  - destruct (mark_logFiles p b s lfs) as [l|]; [|done]. cbn [option_map].
    intros [= <-]. cbn [map]. f_equal. by apply IH.
Qed.

Lemma mark_logGroups_paths p b s lgs lgs' :
  mark_logGroups p b s lgs = Some lgs' ->
  map lf_path (concat (map logFiles lgs')) = map lf_path (concat (map logFiles lgs)).
Proof.
  revert lgs'. induction lgs as [|lg lgs IH]; intros lgs'; cbn [mark_logGroups]; [done|].
  destruct (mark_logFiles p b s (logFiles lg)) as [lfs|] eqn:E.
  - intros [= <-]. cbn [map concat logFiles]. rewrite !map_app. f_equal.
    by eapply mark_logFiles_paths.
  - destruct (mark_logGroups p b s lgs) as [l|]; [|done]. cbn [option_map].
    intros [= <-]. cbn [map concat]. rewrite !map_app. f_equal. by apply IH.
Qed.

Lemma loadLine_paths line st dup st' dup' :
  loadLine line (st, dup) = Some (st', dup') ->
  map lf_path (all_logFiles (config st')) = map lf_path (all_logFiles (config st)).
Proof.
  destruct (decide (full_width line)) as [Hfw|Hfw].
  - destruct (decode_address_full line) as [[k d] Hdec]; [apply Hfw|].
    destruct (loadLine_address line st dup k d Hfw Hdec) as (st1 & -> & _ & _ & Hcfg & _).
    intros [= <- _]. by rewrite Hcfg.
  - rewrite <- full_width_test in Hfw. apply not_true_is_false in Hfw.
    unfold loadLine. rewrite Hfw.
    destruct (eqs (take 1 line) (lit "b")); [|by intros [= <- _]].
    destruct (parse_bookmark line) as [[[b s] p]|]; [|done]. cbn [mbind option_bind].
    destruct (mark_logGroups p b s (logGroups (config st))) as [lgs|] eqn:E.
    + intros [= <- _]. cbn [log_msg set_config config]. unfold all_logFiles.
      cbn [logGroups]. by eapply mark_logGroups_paths.
    + by intros [= <- _].
Qed.

Lemma loadLines_paths lines st dup st' dup' :
  loadLines lines (st, dup) = Some (st', dup') ->
  map lf_path (all_logFiles (config st')) = map lf_path (all_logFiles (config st)).
Proof.
  revert st dup. induction lines as [|line lines IH]; intros st dup; cbn [loadLines].
  - by intros [= <- _].
  - destruct (loadLine line (st, dup)) as [[st1 dup1]|] eqn:Hline; [|done].
    cbn [mbind option_bind]. intros Hrest. apply IH in Hrest as ->.
    by eapply loadLine_paths.
Qed.

Lemma loadData_paths e st content ok st' :
  files st !! dataFilePath (config st) = Some content ->
  loadData e st = Some (ok, st') ->
  map lf_path (all_logFiles (config st')) = map lf_path (all_logFiles (config st)) /\
  dataFilePath (config st') = dataFilePath (config st).
Proof.
  intros Hfile Hload.
  destruct (loadData_spec e st content ok st' Hfile Hload) as (st1 & dup & Hl & _ & -> & _).
  split.
  - by apply loadLines_paths in Hl.
  - by apply loadLines_spec in Hl as (_ & _ & -> & _).
Qed.

(** X11: compaction of a loaded store loses nothing.  If [loadData] read
    the store file and the counters it decoded fit their columns, then
    [saveData] followed by a second [loadData] returns success with exactly
    the same index, finds no duplicate, and leaves the file [saveData]
    wrote as it is; nothing has to be assumed about the addresses or the
    flags in the file. *)
Theorem compaction_of_a_loaded_store (e e2 e3 : env) (st : state) (content : str)
    (ok : bool) (st1 : state) :
  files st !! dataFilePath (config st) = Some content ->
  loadData e st = Some (ok, st1) ->
  map_Forall (fun _ d => fits_columns d) (suspiciousAddresses st1) ->
  Forall (fun lf => NL ∉ lf_path lf) (all_logFiles (config st)) ->
  can_write e2 = true ->
  let st2 := (saveData e2 st1).2 in
  exists st3,
    loadData e3 st2 = Some (true, st3) /\
    suspiciousAddresses st3 = suspiciousAddresses st1 /\
    files st3 = files st2.
Proof.
  intros Hfile Hload Hfits Hpaths Hw st2.
  pose proof (loadData_index e st content ok st1 Hfile Hload) as Hidx.
  destruct (loadData_paths e st content ok st1 Hfile Hload) as [Hp _].
  destruct (saveData_spec e2 st1) as (Hidx2 & Hcfg2 & _ & Hsave). rewrite Hw in Hsave.
  destruct Hsave as [_ Hfiles2]. fold st2 in Hidx2, Hcfg2, Hfiles2.
  set (m := suspiciousAddresses st1) in *.
  set (lines := map stored_address (entries m) ++ map stored_bookmark (all_logFiles (config st1))).
  assert (files st2 !! dataFilePath (config st2) = Some (lines_image lines)) as Hfile2.
  { by rewrite Hcfg2, Hfiles2, lookup_insert_eq, store_image_lines. }
  assert (Forall (fun kv => storable_address kv.1 /\ fits_columns kv.2 /\
                            whitelisted kv.2 && blacklisted kv.2 = false) (entries m) /\
          Forall (fun kv => persisted kv.2 = kv.2) (entries m)) as [Hes Hpers].
  { split; apply Forall_forall; intros [k d] Hin; apply elem_of_entries in Hin;
      pose proof (Hfits k d Hin) as Hf; subst m; rewrite Hidx in Hin;
      destruct (loaded_records content k d Hin) as (? & ? & ? & _); done. }
  assert (Forall (fun lf => NL ∉ lf_path lf) (all_logFiles (config st1))) as Hpaths1.
  { apply Forall_forall. intros lf Hin. rewrite Forall_forall in Hpaths.
    assert (lf_path lf ∈ map lf_path (all_logFiles (config st))) as Hin'.
    { rewrite <- Hp. apply list_elem_of_fmap. eauto. }
    apply list_elem_of_fmap in Hin' as (lf' & -> & Hin'). by apply Hpaths. }
  assert (Forall (fun l => NL ∉ l) lines) as Hnl.
  { subst lines. apply Forall_app. split; apply Forall_forall; intros l Hl;
      apply list_elem_of_fmap in Hl as (x & -> & Hx).
    - apply NL_stored_address. rewrite Forall_forall in Hes. apply (Hes x Hx).
    - apply NL_stored_bookmark. rewrite Forall_forall in Hpaths1. by apply Hpaths1. }
  assert (omap decode_address (filter full_width lines) = entries m) as Hrec.
  { subst lines. rewrite records_of_store by done.
    clear -Hpers. induction Hpers as [|[k d] es Hd _ IH]; [done|].
    cbn [fmap list_fmap prod_map fst snd id]. cbn [snd] in Hd. rewrite Hd. f_equal. apply IH. }
  destruct (loadData_total e3 st2 _ Hfile2) as (ok3 & st3 & Hload3).
  { rewrite getlines_image by done. subst lines. apply Forall_app.
    split; apply Forall_forall; intros l Hl; apply list_elem_of_fmap in Hl as (x & -> & Hx).
    - by intros [=].
    - intros _. apply stored_bookmark_long. }
  destruct (loadData_spec e3 st2 _ ok3 st3 Hfile2 Hload3) as (st' & dup & Hl & Hi & _ & _ & Hres).
  rewrite getlines_image in Hl by done.
  assert (dup = false) as ->.
  { eapply loadLines_distinct; [exact Hl| |].
    - rewrite Hrec. apply NoDup_entries.
    - intros k _. apply lookup_empty. }
  destruct Hres as [-> Hf3]. exists st3. split; [done|]. split; [|done].
  rewrite (loadData_index e3 st2 _ true st3 Hfile2 Hload3). unfold address_records.
  rewrite getlines_image, Hrec by done. apply list_to_map_entries.
Qed.

(** ** Bookmarks through a save and a load *)

Lemma map_logFiles_ext f g c :
  (forall lf, lf ∈ all_logFiles c -> f lf = g lf) -> map_logFiles f c = map_logFiles g c.
Proof.
  destruct c as [p lgs]. unfold map_logFiles, all_logFiles. cbn [dataFilePath logGroups].
  intros H. f_equal. induction lgs as [|lg lgs IH]; [done|].
  cbn [map concat] in *. f_equal.
  - f_equal. apply map_ext_in. intros lf Hin. apply H, elem_of_app. left.
    by apply list_elem_of_In.
  - apply IH. intros lf Hin. apply H, elem_of_app. by right.
Qed.

Lemma map_logFiles_id c : map_logFiles (fun lf => lf) c = c.
Proof.
  destruct c as [p lgs]. unfold map_logFiles. cbn [dataFilePath logGroups]. f_equal.
  induction lgs as [|[n lfs ps] lgs IH]; [done|].
  cbn [map name logFiles patterns]. by rewrite map_id, IH.
Qed.

Lemma map_logFiles_compose f g c :
  map_logFiles f (map_logFiles g c) = map_logFiles (fun lf => f (g lf)) c.
Proof.
  destruct c as [p lgs]. unfold map_logFiles. cbn [dataFilePath logGroups]. f_equal.
  rewrite map_map. apply map_ext. intros lg. cbn [name logFiles patterns].
  by rewrite map_map.
Qed.

Lemma paths_map_logFiles f c :
  (forall lf, lf_path (f lf) = lf_path lf) ->
  map lf_path (all_logFiles (map_logFiles f c)) = map lf_path (all_logFiles c).
Proof.
  intros Hf. destruct c as [p lgs]. unfold map_logFiles, all_logFiles.
  cbn [dataFilePath logGroups]. induction lgs as [|lg lgs IH]; [done|].
  cbn [map concat logFiles]. rewrite !map_app, IH. f_equal.
  rewrite map_map. apply map_ext. intros lf. apply Hf.
Qed.

Lemma restore_path lfs lf0 : lf_path (restore lfs lf0) = lf_path lf0.
Proof.
  induction lfs as [|lf lfs IH]; [done|]. cbn [restore].
  destruct (eqs (lf_path lf0) (lf_path lf)) eqn:E; [|done]. by apply eqs_true in E.
Qed.

Lemma restore_other lfs lf0 : lf_path lf0 ∉ map lf_path lfs -> restore lfs lf0 = lf0.
Proof.
  induction lfs as [|lf lfs IH]; [done|]. cbn [restore map]. intros Hn.
  apply not_elem_of_cons in Hn as [Hne Hn].
  destruct (eqs (lf_path lf0) (lf_path lf)) eqn:E; [by apply eqs_true in E|by apply IH].
Qed.

Lemma restore_in lfs lf lf0 :
  NoDup (map lf_path lfs) -> lf ∈ lfs -> lf_path lf0 = lf_path lf -> restore lfs lf0 = lf.
Proof.
  induction lfs as [|x lfs IH]; intros Hnd Hin Hp; [by apply elem_of_nil in Hin|].
  cbn [restore map] in *. apply NoDup_cons in Hnd as [Hx Hnd].
  destruct (eqs (lf_path lf0) (lf_path x)) eqn:E.
  - apply eqs_true in E. apply elem_of_cons in Hin as [->|Hin]; [done|].
    exfalso. apply Hx. rewrite <- E, Hp. apply list_elem_of_fmap. eauto.
  - apply eqs_false in E. apply elem_of_cons in Hin as [->|Hin]; [done|]. by apply IH.
Qed.

(** the inner loop, when no two files share a path *)
Lemma mark_logFiles_restore lf lfs :
  NoDup (map lf_path lfs) ->
  mark_logFiles (lf_path lf) (lf_bookmark lf) (lf_size lf) lfs =
  if bool_decide (lf_path lf ∈ map lf_path lfs) then Some (map (restore [lf]) lfs) else None.
Proof.
  induction lfs as [|x lfs IH]; intros Hnd; cbn [mark_logFiles map restore].
  - by rewrite bool_decide_eq_false_2 by apply not_elem_of_nil.
  - apply NoDup_cons in Hnd as [Hx Hnd]. destruct (eqs (lf_path x) (lf_path lf)) eqn:E.
    + apply eqs_true in E. rewrite bool_decide_eq_true_2 by (rewrite E; apply list_elem_of_here).
      f_equal. rewrite E. destruct lf as [p b s]. cbn [lf_path lf_bookmark lf_size]. f_equal.
      symmetry. etransitivity; [|apply map_id]. apply map_ext_in. intros y Hy. cbn [restore lf_path] in *.
      destruct (eqs (lf_path y) p) eqn:E2; [|done]. apply eqs_true in E2.
      exfalso. apply Hx. rewrite E, <- E2. apply list_elem_of_fmap. eexists. split; [done|].
      by apply list_elem_of_In.
    + apply eqs_false in E. rewrite IH by done.
      destruct (bool_decide (lf_path lf ∈ map lf_path lfs)) eqn:Hin.
      * apply bool_decide_eq_true in Hin.
        rewrite bool_decide_eq_true_2 by (by apply list_elem_of_further). done.
      * apply bool_decide_eq_false in Hin. rewrite bool_decide_eq_false_2; [done|].
        intros H. apply elem_of_cons in H as [H|H]; [by apply E|by apply Hin].
Qed.

(** the outer loop, when no two files share a path *)
Lemma mark_logGroups_restore lf c :
  NoDup (map lf_path (all_logFiles c)) ->
  mark_logGroups (lf_path lf) (lf_bookmark lf) (lf_size lf) (logGroups c) =
  if bool_decide (lf_path lf ∈ map lf_path (all_logFiles c))
  then Some (logGroups (map_logFiles (restore [lf]) c)) else None.
Proof.
  destruct c as [p lgs]. unfold all_logFiles, map_logFiles. cbn [logGroups dataFilePath].
  induction lgs as [|lg lgs IH]; intros Hnd; cbn [mark_logGroups map concat].
  - by rewrite bool_decide_eq_false_2 by apply not_elem_of_nil.
  - cbn [map concat] in Hnd. rewrite map_app in Hnd. apply NoDup_app in Hnd as (Hnd1 & Hdisj & Hnd2).
    rewrite mark_logFiles_restore by done. rewrite map_app.
    destruct (bool_decide (lf_path lf ∈ map lf_path (logFiles lg))) eqn:Hin.
    + apply bool_decide_eq_true in Hin.
      rewrite bool_decide_eq_true_2 by (apply elem_of_app; by left).
      f_equal. f_equal. etransitivity; [symmetry; apply map_id|]. apply map_ext_in.
      intros lg' Hlg'. destruct lg' as [n lfs ps]. cbn [name logFiles patterns]. f_equal.
      etransitivity; [symmetry; apply map_id|]. apply map_ext_in. intros y Hy.
      symmetry. apply restore_other. cbn [map]. intros H.
      apply list_elem_of_singleton in H. apply (Hdisj (lf_path lf) Hin).
      rewrite <- H. apply list_elem_of_fmap. exists y. split; [done|].
      apply list_elem_of_In, in_concat. exists lfs. split; [|done].
      apply in_map_iff. by exists (mkLogGroup n lfs ps).
    + apply bool_decide_eq_false in Hin. rewrite IH by done.
      assert (map (restore [lf]) (logFiles lg) = logFiles lg) as Hsame.
      { etransitivity; [|apply map_id]. apply map_ext_in. intros y Hy.
        apply restore_other. cbn [map]. intros H. apply list_elem_of_singleton in H.
        apply Hin. rewrite <- H. apply list_elem_of_fmap. exists y. split; [done|].
        by apply list_elem_of_In. }
      destruct (bool_decide (lf_path lf ∈ map lf_path (concat (map logFiles lgs)))) eqn:Hin2.
      * apply bool_decide_eq_true in Hin2.
        rewrite bool_decide_eq_true_2 by (apply elem_of_app; by right).
        cbn [option_map]. f_equal. f_equal. rewrite Hsame. by destruct lg.
      * apply bool_decide_eq_false in Hin2. rewrite bool_decide_eq_false_2; [done|].
        intros H. apply elem_of_app in H as [H|H]; [by apply Hin|by apply Hin2].
Qed.

(** the fields the loader takes from a bookmark line [saveData] wrote *)
Lemma parse_bookmark_stored lf :
  (lf_bookmark lf <= ULLONG_MAX)%N -> (lf_size lf <= ULLONG_MAX)%N ->
  parse_bookmark (stored_bookmark lf) =
  Some (lf_bookmark lf, lf_size lf, Util.rtrim (Util.ltrim (lf_path lf))).
Proof.
  intros Hb Hs. unfold parse_bookmark, substr_from, stored_bookmark.
  set (B := setw 20 (to_string (lf_bookmark lf))).
  set (S := setw 20 (to_string (lf_size lf))).
  assert (length B = 20%nat) as HB by (apply length_setw; by apply to_string_fits).
  assert (length S = 20%nat) as HS by (apply length_setw; by apply to_string_fits).
  change (lit "b") with ["b"].
  rewrite !substr_in by (rewrite !length_app, HB, HS; cbn [length]; lia).
  rewrite bool_decide_eq_true_2 by (rewrite !length_app, HB, HS; cbn [length]; lia).
  cbn [mbind option_bind].
  rewrite (field_at ["b"] B (S ++ lf_path lf) 1 20) by done.
  assert (["b"] ++ B ++ S ++ lf_path lf = (["b"] ++ B) ++ S ++ lf_path lf) as Hassoc
    by (by rewrite <- app_assoc).
  rewrite Hassoc at 1.
  rewrite (field_at (["b"] ++ B) S (lf_path lf) 21 20)
    by (done || (rewrite length_app, HB; done)).
  assert (drop 41 (["b"] ++ B ++ S ++ lf_path lf) = lf_path lf) as ->.
  { replace (["b"] ++ B ++ S ++ lf_path lf) with ((["b"] ++ B ++ S) ++ lf_path lf)
      by (by rewrite <- !app_assoc).
    apply drop_app_length'. rewrite !length_app, HB, HS. done. }
  subst B S. by rewrite !read_number.
Qed.

(** one bookmark line of [saveData], read into a configuration in which no
    two log files share a path *)
Lemma loadLine_bookmark lf st dup :
  storable_logFile lf ->
  NoDup (map lf_path (all_logFiles (config st))) ->
  lf_path lf ∈ map lf_path (all_logFiles (config st)) ->
  exists st', loadLine (stored_bookmark lf) (st, dup) = Some (st', dup) /\
    config st' = map_logFiles (restore [lf]) (config st).
Proof.
  intros (_ & Htrim & Hb & Hs) Hnd Hin. unfold loadLine.
  assert (eqs (take 1 (stored_bookmark lf)) (lit "d") = false) as ->.
  { by apply eqs_false. }
  assert (eqs (take 1 (stored_bookmark lf)) (lit "b") = true) as ->.
  { by apply eqs_true. }
  cbn [andb]. rewrite parse_bookmark_stored by done. cbn [mbind option_bind].
  rewrite Htrim, mark_logGroups_restore by done.
  rewrite bool_decide_eq_true_2 by done.
  eexists. split; [reflexivity|]. cbn [log_msg set_config config].
  unfold map_logFiles. by cbn [dataFilePath logGroups].
Qed.

Lemma restore_cons lf lfs lf0 :
  lf_path lf ∉ map lf_path lfs ->
  restore lfs (restore [lf] lf0) = restore (lf :: lfs) lf0.
Proof.
  intros Hn. cbn [restore]. destruct (eqs (lf_path lf0) (lf_path lf)); [|done].
  by apply restore_other.
Qed.

(** the bookmark lines of [saveData], read one after the other *)
Lemma loadLines_bookmarks lfs st dup :
  Forall storable_logFile lfs ->
  NoDup (map lf_path lfs) ->
  NoDup (map lf_path (all_logFiles (config st))) ->
  map lf_path lfs ⊆ map lf_path (all_logFiles (config st)) ->
  exists st', loadLines (map stored_bookmark lfs) (st, dup) = Some (st', dup) /\
    config st' = map_logFiles (restore lfs) (config st).
Proof.
  revert st. induction lfs as [|lf lfs IH]; intros st Hst Hnd Hcfg Hsub; cbn [map loadLines].
  - exists st. split; [done|]. symmetry. apply map_logFiles_id.
  - apply Forall_cons in Hst as [Hlf Hst]. cbn [map] in Hnd, Hsub.
    apply NoDup_cons in Hnd as [Hlfn Hnd].
    destruct (loadLine_bookmark lf st dup Hlf Hcfg) as (st1 & -> & Hc1).
    { apply Hsub. apply list_elem_of_here. }
    cbn [mbind option_bind].
    assert (map lf_path (all_logFiles (config st1)) = map lf_path (all_logFiles (config st)))
      as Hp1 by (rewrite Hc1; apply paths_map_logFiles; intros y; apply restore_path).
    destruct (IH st1 Hst Hnd) as (st' & -> & Hc').
    + by rewrite Hp1.
    + rewrite Hp1. intros x Hx. apply Hsub. by apply list_elem_of_further.
    + exists st'. split; [done|]. rewrite Hc', Hc1, map_logFiles_compose.
      apply map_logFiles_ext. intros y _. by apply restore_cons.
Qed.

(** lines that begin with ['d'] leave the configuration alone *)
Lemma loadLines_addresses_config lines st dup :
  Forall (fun l => head l = Some "d") lines ->
  exists st' dup', loadLines lines (st, dup) = Some (st', dup') /\ config st' = config st.
Proof.
  revert st dup. induction lines as [|line lines IH]; intros st dup Hd; cbn [loadLines].
  - eauto.
  - apply Forall_cons in Hd as [Hline Hd].
    assert (exists st1 dup1, loadLine line (st, dup) = Some (st1, dup1) /\ config st1 = config st)
      as (st1 & dup1 & -> & Hc1).
    { destruct (decide (full_width line)) as [Hfw|Hfw].
      - destruct (decode_address_full line) as [[k d] Hdec]; [apply Hfw|].
        destruct (loadLine_address line st dup k d Hfw Hdec) as (st1 & -> & _ & _ & Hcfg & _).
        eauto.
      - rewrite loadLine_short; [eauto|done|]. intros Hlen. by apply Hfw. }
    cbn [mbind option_bind]. destruct (IH st1 dup1 Hd) as (st' & dup' & -> & Hc').
    exists st', dup'. split; [done|]. by rewrite Hc'.
Qed.

Lemma restore_all_files (L lfs0 lfs : list LogFile) :
  NoDup (map lf_path L) -> lfs ⊆ L -> map unread lfs0 = map unread lfs ->
  map (restore L) lfs0 = lfs.
Proof.
  intros Hnd. revert lfs. induction lfs0 as [|x lfs0 IH]; intros [|y lfs] Hsub Heq; try done.
  cbn [map] in *. injection Heq as Hp Heq. f_equal.
  - apply restore_in; [done| |done]. apply Hsub, list_elem_of_here.
  - apply IH; [|done]. intros z Hz. by apply Hsub, list_elem_of_further.
Qed.

(** reading back all the bookmarks of [c] into a configuration that differs
    from [c] in bookmarks and sizes only gives [c] *)
Lemma restore_all c0 c :
  NoDup (map lf_path (all_logFiles c)) ->
  map_logFiles unread c0 = map_logFiles unread c ->
  map_logFiles (restore (all_logFiles c)) c0 = c.
Proof.
  intros Hnd. set (L := all_logFiles c) in *.
  assert (all_logFiles c ⊆ L) as Hsub by done. clearbody L.
  destruct c0 as [p0 lgs0], c as [p lgs]. unfold map_logFiles, all_logFiles in *.
  cbn [dataFilePath logGroups] in *. intros [= -> Heq]. f_equal.
  revert lgs Hsub Heq. induction lgs0 as [|g0 lgs0 IH]; intros [|g lgs] Hsub Heq; try done.
  cbn [map concat] in *. injection Heq as Hn Hf Hp Heq. f_equal.
  - destruct g as [n lfs ps]. cbn [name logFiles patterns] in *. f_equal; [done| |done].
    apply restore_all_files; [done| |done]. intros z Hz. apply Hsub, elem_of_app. by left.
  - apply IH; [|done]. intros z Hz. apply Hsub, elem_of_app. by right.
Qed.

(** X12: the bookmarks survive a save and a load.  When no two configured
    log files share a path, the paths have no newline and no spaces around
    them, and no address of the index has a newline, the file [saveData]
    writes, loaded into a configuration that differs from the saved one in
    bookmarks and sizes only, restores the saved configuration exactly. *)
Theorem bookmarks_are_restored (e e2 : env) (st : state) (c0 : Config) :
  can_write e = true ->
  map_Forall (fun k _ => NL ∉ k) (suspiciousAddresses st) ->
  NoDup (map lf_path (all_logFiles (config st))) ->
  Forall storable_logFile (all_logFiles (config st)) ->
  map_logFiles unread c0 = map_logFiles unread (config st) ->
  exists ok st',
    loadData e2 (set_config c0 (saveData e st).2) = Some (ok, st') /\
    config st' = config st.
Proof.
  intros Hw Hkeys Hnd Hst Hlayout.
  destruct (saveData_spec e st) as (_ & _ & _ & Hsave). rewrite Hw in Hsave.
  destruct Hsave as [_ Hfiles].
  set (st2 := set_config c0 (saveData e st).2).
  set (c := config st) in *. set (L := all_logFiles c) in *.
  set (A := map stored_address (entries (suspiciousAddresses st))).
  assert (dataFilePath c0 = dataFilePath c) as Hpath.
  { apply (f_equal dataFilePath) in Hlayout. exact Hlayout. }
  assert (map lf_path (all_logFiles c0) = map lf_path L) as Hpaths.
  { unfold L. rewrite <- (paths_map_logFiles unread c0), <- (paths_map_logFiles unread c) by done.
    by rewrite Hlayout. }
  assert (files st2 !! dataFilePath (config st2) = Some (lines_image (A ++ map stored_bookmark L)))
    as Hfile.
  { subst st2. cbn [set_config files config]. rewrite Hpath, Hfiles.
    by rewrite lookup_insert_eq, store_image_lines. }
  assert (Forall (fun l => NL ∉ l) (A ++ map stored_bookmark L)) as Hnl.
  { apply Forall_app. split; apply Forall_forall; intros l Hl;
      apply list_elem_of_fmap in Hl as (x & -> & Hx).
    - apply NL_stored_address. destruct x as [k d]. apply elem_of_entries in Hx.
      apply (Hkeys k d Hx).
    - apply NL_stored_bookmark. rewrite Forall_forall in Hst. apply (Hst x Hx). }
  destruct (loadData_total e2 st2 _ Hfile) as (ok & st' & Hload).
  { rewrite getlines_image by done. apply Forall_app.
    split; apply Forall_forall; intros l Hl; apply list_elem_of_fmap in Hl as (x & -> & Hx).
    - by intros [=].
    - intros _. apply stored_bookmark_long. }
  exists ok, st'. split; [done|].
  destruct (loadData_spec e2 st2 _ ok st' Hfile Hload) as (st1 & dup & Hl & _ & -> & _).
  rewrite getlines_image, loadLines_app in Hl by done.
  set (st3 := set_addresses ∅ _) in Hl.
  destruct (loadLines_addresses_config A st3 false) as (sta & dupa & Ha & Hca).
  { apply Forall_forall. intros l Hl'. by apply list_elem_of_fmap in Hl' as (x & -> & Hx). }
  rewrite Ha in Hl. cbn [mbind option_bind] in Hl.
  assert (config sta = c0) as Hc0 by exact Hca.
  destruct (loadLines_bookmarks L sta dupa Hst Hnd) as (stb & Hb & Hcb).
  - by rewrite Hc0, Hpaths.
  - by rewrite Hc0, Hpaths.
  - rewrite Hb in Hl. injection Hl as <- _. rewrite Hcb, Hc0. by apply restore_all.
Qed.

(** ** Where the bookmarks of a loaded configuration come from *)

Lemma read_from_same lines (lfs : list LogFile) : Forall2 (read_from lines) lfs lfs.
Proof. apply Forall_Forall2_diag, Forall_forall. intros lf _. by left. Qed.

Lemma read_from_trans l1 l2 (A B C : list LogFile) :
  Forall2 (read_from l1) A B -> Forall2 (read_from l2) B C ->
  Forall2 (read_from (l1 ++ l2)) A C.
Proof.
  intros H1. revert C. induction H1 as [|a b A B Hab _ IH]; intros C H2.
  - apply Forall2_nil_inv_l in H2 as ->. constructor.
  - apply Forall2_cons_inv_l in H2 as (c & C' & Hbc & H2 & ->).
    constructor; [|by apply IH].
    destruct Hbc as [->|(line & b' & s & Hin & Hh & Hp & ->)].
    + destruct Hab as [->|(line & b' & s & Hin & Hh & Hp & ->)]; [by left|].
      right. exists line, b', s. split; [|done]. apply elem_of_app. by left.
    + right. exists line, b', s. split; [apply elem_of_app; by right|].
      split; [done|]. destruct Hab as [->|(? & ? & ? & _ & _ & _ & ->)]; done.
Qed.

Lemma mark_logFiles_from line p b s lfs lfs' :
  head line = Some "b" -> parse_bookmark line = Some (b, s, p) ->
  mark_logFiles p b s lfs = Some lfs' ->
  map unread lfs' = map unread lfs /\ Forall2 (read_from [line]) lfs lfs'.
Proof.
  intros Hh Hp. revert lfs'. induction lfs as [|lf lfs IH]; intros lfs'; cbn [mark_logFiles];
    [done|].
  destruct (eqs (lf_path lf) p) eqn:E.
  - apply eqs_true in E. intros [= <-]. split; [done|]. constructor; [|apply read_from_same].
    right. exists line, b, s. rewrite E. split; [apply list_elem_of_here|done].
  - destruct (mark_logFiles p b s lfs) as [l|]; [|done]. cbn [option_map].
    intros [= <-]. destruct (IH l eq_refl) as [Hu Hf]. split.
    + cbn [map]. by rewrite Hu.
    + constructor; [by left|done].
Qed.

(** the configuration with every log file [unread], on its groups *)
Lemma mark_logGroups_from line p b s lgs lgs' :
  head line = Some "b" -> parse_bookmark line = Some (b, s, p) ->
  mark_logGroups p b s lgs = Some lgs' ->
  map (fun lg => mkLogGroup (name lg) (map unread (logFiles lg)) (patterns lg)) lgs' =
  map (fun lg => mkLogGroup (name lg) (map unread (logFiles lg)) (patterns lg)) lgs /\
  Forall2 (read_from [line]) (concat (map logFiles lgs)) (concat (map logFiles lgs')).
Proof.
  intros Hh Hp. revert lgs'. induction lgs as [|lg lgs IH]; intros lgs'; cbn [mark_logGroups];
    [done|].
  destruct (mark_logFiles p b s (logFiles lg)) as [lfs|] eqn:E.
  - intros [= <-]. destruct (mark_logFiles_from line p b s _ _ Hh Hp E) as [Hu Hf].
    cbn [map concat name logFiles patterns]. split; [by rewrite Hu|].
    apply Forall2_app; [done|apply read_from_same].
  - destruct (mark_logGroups p b s lgs) as [l|]; [|done]. cbn [option_map].
    intros [= <-]. destruct (IH l eq_refl) as [Hu Hf]. cbn [map concat]. split.
    + by rewrite Hu.
    + apply Forall2_app; [apply read_from_same|done].
Qed.

Lemma loadLine_from line st dup st' dup' :
  loadLine line (st, dup) = Some (st', dup') ->
  map_logFiles unread (config st') = map_logFiles unread (config st) /\
  Forall2 (read_from [line]) (all_logFiles (config st)) (all_logFiles (config st')).
Proof.
  destruct (decide (full_width line)) as [Hfw|Hfw].
  - destruct (decode_address_full line) as [[k d] Hdec]; [apply Hfw|].
    destruct (loadLine_address line st dup k d Hfw Hdec) as (st1 & -> & _ & _ & Hcfg & _).
    intros [= <- _]. rewrite Hcfg. split; [done|apply read_from_same].
  - rewrite <- full_width_test in Hfw. apply not_true_is_false in Hfw.
    unfold loadLine. rewrite Hfw.
    destruct (eqs (take 1 line) (lit "b")) eqn:Hb;
      [|intros [= <- _]; split; [done|apply read_from_same]].
    apply take1_b in Hb.
    destruct (parse_bookmark line) as [[[b s] p]|] eqn:Hp; [|done]. cbn [mbind option_bind].
    destruct (mark_logGroups p b s (logGroups (config st))) as [lgs|] eqn:E.
    + intros [= <- _]. cbn [log_msg set_config config].
      destruct (mark_logGroups_from line p b s _ _ Hb Hp E) as [Hu Hf].
      unfold map_logFiles, all_logFiles. cbn [dataFilePath logGroups]. by rewrite Hu.
    + intros [= <- _]. cbn [removeFile snd log_msg config].
      split; [done|apply read_from_same].
Qed.

Lemma loadLines_from lines st dup st' dup' :
  loadLines lines (st, dup) = Some (st', dup') ->
  map_logFiles unread (config st') = map_logFiles unread (config st) /\
  Forall2 (read_from lines) (all_logFiles (config st)) (all_logFiles (config st')).
Proof.
  revert st dup. induction lines as [|line lines IH]; intros st dup; cbn [loadLines].
  - intros [= <- _]. split; [done|apply read_from_same].
  - destruct (loadLine line (st, dup)) as [[st1 dup1]|] eqn:Hline; [|done].
    cbn [mbind option_bind]. intros Hrest.
    apply IH in Hrest as [Hu2 Hf2]. apply loadLine_from in Hline as [Hu1 Hf1].
    split; [by rewrite Hu2|].
    change (line :: lines) with ([line] ++ lines). by eapply read_from_trans.
Qed.

(** X13: [loadData] never invents a bookmark and never changes the shape of
    the configuration.  Whatever the store file holds, the configuration
    after the load has the same data file path, groups, patterns and log
    file paths as before, and each of its log files is either as it was or
    carries the bookmark and the size of a ['b'] line of the file whose
    trimmed path is the path of that log file. *)
Theorem loadData_bookmarks_come_from_the_file (e : env) (st : state) (ok : bool)
    (st' : state) :
  loadData e st = Some (ok, st') ->
  map_logFiles unread (config st') = map_logFiles unread (config st) /\
  Forall2 (read_from (getlines (default [] (files st !! dataFilePath (config st)))))
          (all_logFiles (config st)) (all_logFiles (config st')).
Proof.
  intros Hload. destruct (files st !! dataFilePath (config st)) as [content|] eqn:Hfile.
  - destruct (loadData_spec e st content ok st' Hfile Hload) as (st1 & dup & Hl & _ & -> & _).
    apply loadLines_from in Hl. exact Hl.
  - unfold loadData in Hload. set (st0 := log_msg LInfo _ st) in Hload.
    assert (files st0 !! dataFilePath (config st0) = None) as Hnone by exact Hfile.
    rewrite Hnone in Hload.
    set (st1 := log_msg LWarning _ st0) in Hload.
    destruct (saveData_spec e st1) as (_ & Hcfg & _).
    destruct (saveData e st1) as [saved st2]. cbn [snd] in Hcfg.
    assert (config st' = config st) as ->.
    { destruct saved; injection Hload as _ <-; exact Hcfg. }
    split; [done|apply read_from_same].
Qed.

(** ** What the three mutations leave alone *)

(** the only thing [operator[]] does to the index *)
Lemma map_index_effect (k : str) (m : gmap str SuspiciosAddressType) :
  (map_index k m).2 = m \/
  (m !! k = None /\ (map_index k m).2 = <[k := zero_address]> m).
Proof. unfold map_index. destruct (m !! k) eqn:E; cbn [snd]; auto. Qed.

Lemma update_record_index address f m :
  (update_record address f m).2 = (map_index address m).2.
Proof. unfold update_record. by destruct (map_index address m). Qed.

Lemma lookup_other_file (fs : gmap str str) path content p :
  p <> path -> <[path := content]> fs !! p = fs !! p.
Proof. intros Hp. by rewrite lookup_insert_ne. Qed.

(** X14: the three mutations touch nothing but the data file.  None of
    [addAddress], [updateAddress], [removeAddress] changes the
    configuration or a file other than the data file, and the only change
    any of them makes to the in-memory index is the side effect of
    [operator[]], a zero record for an address the index did not hold;
    [removeAddress] leaves the index as it is even when it succeeds, and a
    failed [addAddress] leaves every file as it is. *)
Theorem mutations_touch_only_the_data_file (e : env) (address : str) (st : state) :
  Forall (fun op : env -> str -> state -> bool * state =>
      let st' := (op e address st).2 in
      config st' = config st /\
      (forall p, p <> dataFilePath (config st) -> files st' !! p = files st !! p) /\
      (suspiciousAddresses st' = suspiciousAddresses st \/
       (suspiciousAddresses st !! address = None /\
        suspiciousAddresses st' = <[address := zero_address]> (suspiciousAddresses st))))
    [addAddress; updateAddress; removeAddress] /\
  suspiciousAddresses (removeAddress e address st).2 = suspiciousAddresses st /\
  ((addAddress e address st).1 = false -> files (addAddress e address st).2 = files st).
Proof.
  assert (forall (on_match : match_action) msg msg',
            (forall f m, (on_match f m).2 = m \/
                         (m !! address = None /\ (on_match f m).2 = <[address := zero_address]> m)) ->
            let st0 := log_msg LDebug msg st in
            let r := match open_rw e st0 with
                     | Some f =>
                         let '(f, m, recordFound) :=
                           scan on_match address f (suspiciousAddresses st0) in
                         let st := close_stream f (set_addresses m st0) in
                         if recordFound then (true, st)
                         else (false, log_msg LError msg' st)
                     | None => (false, log_msg LError (lit "Unable to open datafile for update!") st0)
                     end in
            config r.2 = config st /\
            (forall p, p <> dataFilePath (config st) -> files r.2 !! p = files st !! p) /\
            (suspiciousAddresses r.2 = suspiciousAddresses st \/
             (suspiciousAddresses st !! address = None /\
              suspiciousAddresses r.2 = <[address := zero_address]> (suspiciousAddresses st))))
    as Hscan.
  { intros on_match msg msg' Hon st0 r. subst r.
    destruct (open_rw e st0) as [f|]; [|by auto].
    rewrite scan_factor.
    destruct (scan no_action address f (suspiciousAddresses st0)) as [[f0 m0] found].
    change (suspiciousAddresses st0) with (suspiciousAddresses st).
    destruct found.
    - specialize (Hon f0 (suspiciousAddresses st)).
      destruct (on_match f0 (suspiciousAddresses st)) as [f1 m1]. cbn [snd] in Hon.
      cbn [snd close_stream set_files set_addresses log_msg files config suspiciousAddresses].
      split; [done|]. split; [|done]. intros p Hp. by apply lookup_other_file.
    - cbn [snd close_stream set_files set_addresses log_msg files config suspiciousAddresses].
      split; [done|]. split; [|by left]. intros p Hp. by apply lookup_other_file. }
  split; [|split].
  - repeat apply Forall_cons_2; [| | |apply Forall_nil_2].
    + unfold addAddress. destruct (can_write e); [|by auto].
      cbn [log_msg suspiciousAddresses files config].
      pose proof (map_index_effect address (suspiciousAddresses st)) as Hm.
      destruct (map_index address (suspiciousAddresses st)) as [d m]. cbn [snd] in Hm.
      cbn [snd set_files set_addresses files config suspiciousAddresses].
      split; [done|]. split; [|done]. intros p Hp. by apply lookup_other_file.
    + apply Hscan. intros f m. rewrite update_record_index. apply map_index_effect.
    + apply Hscan. intros f m. by left.
  - unfold removeAddress. set (st0 := log_msg LDebug _ st).
    destruct (open_rw e st0) as [f|]; [|done].
    rewrite (scan_factor remove_record).
    destruct (scan no_action address f (suspiciousAddresses st0)) as [[f0 m0] found].
    by destruct found.
  - unfold addAddress. destruct (can_write e); [|done].
    cbn [log_msg suspiciousAddresses files config].
    destruct (map_index address (suspiciousAddresses st)) as [d m]. by intros [=].
Qed.

(** ** The further properties on concrete stores *)

Lemma loadData_without_duplicates_is_read_only_witness :
  let st := Examples.st_missing in
  let content := lines_image Scenarios.lines_missing in
  let st' := Examples.loaded Examples.os st in
  (files st !! dataFilePath (config st) = Some content /\
   NoDup (address_records content).*1 /\
   loadData Examples.os st = Some (true, st')) /\
  true = true /\ files st' = files st.
Proof.
  intros st content st'.
  assert (files st !! dataFilePath (config st) = Some content) as H1
    by (vm_compute; reflexivity).
  assert (NoDup (address_records content).*1) as H2 by by_computation.
  assert (loadData Examples.os st = Some (true, st')) as H3 by (vm_compute; reflexivity).
  split; [exact (conj H1 (conj H2 H3))|].
  exact (loadData_without_duplicates_is_read_only Examples.os st content true st' H1 H2 H3).
Defined.

Lemma loadData_throws_on_short_bookmark_witness :
  let st := Scenarios.st_short_bookmark in
  files st !! dataFilePath (config st) = Some Scenarios.short_bookmark /\
  (loadData Examples.os st = None <->
   Exists (fun line => head line = Some "b" /\ (length line < 41)%nat)
          (getlines Scenarios.short_bookmark)) /\
  loadData Examples.os st = None.
Proof.
  intros st.
  assert (files st !! dataFilePath (config st) = Some Scenarios.short_bookmark) as H1
    by (vm_compute; reflexivity).
  assert (loadData Examples.os st = None) as H2 by (vm_compute; reflexivity).
  split; [exact H1|].
  exact (conj (loadData_throws_on_short_bookmark Examples.os st Scenarios.short_bookmark H1) H2).
Defined.

Lemma removeAddress_alters_at_most_one_byte_witness :
  let st := Examples.st_store in
  let content := lines_image (Scenarios.lines_missing ++ Examples.line1 :: [Examples.bm]) in
  files st !! dataFilePath (config st) = Some content /\
  exists content',
    files (removeAddress Examples.os Examples.addr st).2 =
      <[dataFilePath (config st) := content']> (files st) /\
    length content' = length content /\
    (content' = content \/
     exists i, (i < length content)%nat /\ content' = <[i := "r"]> content).
Proof.
  intros st content.
  assert (files st !! dataFilePath (config st) = Some content) as H1
    by (vm_compute; reflexivity).
  split; [exact H1|].
  exact (removeAddress_alters_at_most_one_byte Examples.os Examples.addr st content H1).
Defined.

Lemma removed_record_is_out_of_reach_witness :
  let st := Examples.st_store in
  let pre := Scenarios.lines_missing in
  let post := [Examples.bm] in
  (can_write Examples.os = true /\
   files st !! dataFilePath (config st) = Some (lines_image (pre ++ Examples.line1 :: post)) /\
   Forall scannable (pre ++ post) /\
   Forall (fun l => ~ matches Examples.addr l) (pre ++ post) /\
   scannable Examples.line1 /\
   matches Examples.addr Examples.line1) /\
  let st1 := (removeAddress Examples.os Examples.addr st).2 in
  ((updateAddress Examples.os Examples.addr st1).1 = false /\
   files (updateAddress Examples.os Examples.addr st1).2 = files st1 /\
   suspiciousAddresses (updateAddress Examples.os Examples.addr st1).2 =
     suspiciousAddresses st1) /\
  ((removeAddress Examples.os Examples.addr st1).1 = false /\
   files (removeAddress Examples.os Examples.addr st1).2 = files st1 /\
   suspiciousAddresses (removeAddress Examples.os Examples.addr st1).2 =
     suspiciousAddresses st1).
Proof.
  intros st pre post.
  assert (can_write Examples.os = true) as H1 by reflexivity.
  assert (files st !! dataFilePath (config st) =
            Some (lines_image (pre ++ Examples.line1 :: post))) as H2
    by (vm_compute; reflexivity).
  assert (Forall scannable (pre ++ post)) as H3 by by_computation.
  assert (Forall (fun l => ~ matches Examples.addr l) (pre ++ post)) as H4 by by_computation.
  assert (scannable Examples.line1) as H5 by by_computation.
  assert (matches Examples.addr Examples.line1) as H6 by by_computation.
  split; [exact (conj H1 (conj H2 (conj H3 (conj H4 (conj H5 H6)))))|].
  exact (removed_record_is_out_of_reach Examples.os Examples.os Examples.addr st pre post
           Examples.line1 H1 H2 H3 H4 H5 H6).
Defined.

Lemma addAddress_then_load_witness :
  let st := Examples.st_missing in
  let ls := Scenarios.lines_missing in
  let d := (map_index Examples.addr (suspiciousAddresses st)).1 in
  (can_write Examples.os = true /\
   default [] (files st !! dataFilePath (config st)) = lines_image ls /\
   Forall (fun l => NL ∉ l) ls /\
   Forall (fun l => head l = Some "b" -> (41 <= length l)%nat) ls /\
   storable_address Examples.addr /\
   fits_columns d /\ whitelisted d && blacklisted d = false) /\
  let st1 := (addAddress Examples.os Examples.addr st).2 in
  files st1 = <[dataFilePath (config st) :=
                  lines_image (ls ++ [stored_address (Examples.addr, d)])]> (files st) /\
  exists ok st',
    loadData Examples.os st1 = Some (ok, st') /\
    suspiciousAddresses st' =
      list_to_map (omap decode_address (filter full_width ls)) ∪
      {[Examples.addr := persisted d]}.
Proof.
  intros st ls d.
  assert (can_write Examples.os = true) as H1 by reflexivity.
  assert (default [] (files st !! dataFilePath (config st)) = lines_image ls) as H2
    by (vm_compute; reflexivity).
  assert (Forall (fun l => NL ∉ l) ls) as H3 by by_computation.
  assert (Forall (fun l => head l = Some "b" -> (41 <= length l)%nat) ls) as H4
    by by_computation.
  assert (storable_address Examples.addr) as H5 by by_computation.
  assert (fits_columns d) as H6 by by_computation.
  assert (whitelisted d && blacklisted d = false) as H7 by (vm_compute; reflexivity).
  split; [exact (conj H1 (conj H2 (conj H3 (conj H4 (conj H5 (conj H6 H7))))))|].
  exact (addAddress_then_load Examples.os Examples.os Examples.addr st ls
           H1 H2 H3 H4 H5 H6 H7).
Defined.

Lemma long_address_is_not_loaded_witness :
  let st := Examples.st_missing in
  let ls := Scenarios.lines_missing in
  (can_write Examples.os = true /\
   default [] (files st !! dataFilePath (config st)) = lines_image ls /\
   Forall (fun l => NL ∉ l) ls /\
   Forall (fun l => head l = Some "b" -> (41 <= length l)%nat) ls /\
   (NL ∉ Scenarios.long_addr) /\ (39 < length Scenarios.long_addr)%nat) /\
  let st1 := (addAddress Examples.os Scenarios.long_addr st).2 in
  (addAddress Examples.os Scenarios.long_addr st).1 = true /\
  (length (default [] (files st1 !! dataFilePath (config st))) >
   length (lines_image ls) + 93)%nat /\
  exists ok st',
    loadData Examples.os st1 = Some (ok, st') /\
    suspiciousAddresses st' = list_to_map (omap decode_address (filter full_width ls)).
Proof.
  intros st ls.
  assert (can_write Examples.os = true) as H1 by reflexivity.
  assert (default [] (files st !! dataFilePath (config st)) = lines_image ls) as H2
    by (vm_compute; reflexivity).
  assert (Forall (fun l => NL ∉ l) ls) as H3 by by_computation.
  assert (Forall (fun l => head l = Some "b" -> (41 <= length l)%nat) ls) as H4
    by by_computation.
  assert (NL ∉ Scenarios.long_addr) as H5 by by_computation.
  assert (39 < length Scenarios.long_addr)%nat as H6 by by_computation.
  split; [exact (conj H1 (conj H2 (conj H3 (conj H4 (conj H5 H6)))))|].
  exact (long_address_is_not_loaded Examples.os Examples.os Scenarios.long_addr st ls
           H1 H2 H3 H4 H5 H6).
Defined.

Lemma updateAddress_then_load_witness :
  let st := Examples.st_store in
  let pre := Scenarios.lines_missing in
  let post := [Examples.bm] in
  let d := (map_index Examples.addr (suspiciousAddresses st)).1 in
  (can_write Examples.os = true /\
   files st !! dataFilePath (config st) = Some (lines_image (pre ++ Examples.line1 :: post)) /\
   Forall scannable (pre ++ Examples.line1 :: post) /\
   Forall (fun l => ~ matches Examples.addr l) pre /\
   matches Examples.addr Examples.line1 /\
   fits_columns d /\ whitelisted d && blacklisted d = false) /\
  let st1 := (updateAddress Examples.os Examples.addr st).2 in
  files st1 = <[dataFilePath (config st) :=
                  lines_image (pre ++ stored_address (Examples.addr, d) :: post)]> (files st) /\
  exists ok st',
    loadData Examples.os st1 = Some (ok, st') /\
    suspiciousAddresses st' =
      <[Examples.addr := persisted d]>
        (list_to_map (address_records (lines_image (pre ++ Examples.line1 :: post)))).
Proof.
  intros st pre post d.
  assert (can_write Examples.os = true) as H1 by reflexivity.
  assert (files st !! dataFilePath (config st) =
            Some (lines_image (pre ++ Examples.line1 :: post))) as H2
    by (vm_compute; reflexivity).
  assert (Forall scannable (pre ++ Examples.line1 :: post)) as H3 by by_computation.
  assert (Forall (fun l => ~ matches Examples.addr l) pre) as H4 by by_computation.
  assert (matches Examples.addr Examples.line1) as H5 by by_computation.
  assert (fits_columns d) as H6 by by_computation.
  assert (whitelisted d && blacklisted d = false) as H7 by (vm_compute; reflexivity).
  split; [exact (conj H1 (conj H2 (conj H3 (conj H4 (conj H5 (conj H6 H7))))))|].
  exact (updateAddress_then_load Examples.os Examples.os Examples.addr st pre post
           Examples.line1 H1 H2 H3 H4 H5 H6 H7).
Defined.

Lemma update_after_add_changes_nothing_witness :
  let st := Examples.st_missing in
  let ls := Scenarios.lines_missing in
  (can_write Examples.os = true /\
   default [] (files st !! dataFilePath (config st)) = lines_image ls /\
   Forall scannable ls /\
   Forall (fun l => ~ matches Examples.addr l) ls /\
   storable_address Examples.addr /\ (NUL ∉ Examples.addr) /\
   fits_columns (map_index Examples.addr (suspiciousAddresses st)).1) /\
  let st1 := (addAddress Examples.os Examples.addr st).2 in
  (updateAddress Examples.os Examples.addr st1).1 = true /\
  files (updateAddress Examples.os Examples.addr st1).2 = files st1 /\
  suspiciousAddresses (updateAddress Examples.os Examples.addr st1).2 =
    suspiciousAddresses st1 /\
  config (updateAddress Examples.os Examples.addr st1).2 = config st1.
Proof.
  intros st ls.
  assert (can_write Examples.os = true) as H1 by reflexivity.
  assert (default [] (files st !! dataFilePath (config st)) = lines_image ls) as H2
    by (vm_compute; reflexivity).
  assert (Forall scannable ls) as H3 by by_computation.
  assert (Forall (fun l => ~ matches Examples.addr l) ls) as H4 by by_computation.
  assert (storable_address Examples.addr) as H5 by by_computation.
  assert (NUL ∉ Examples.addr) as H6 by by_computation.
  assert (fits_columns (map_index Examples.addr (suspiciousAddresses st)).1) as H7
    by by_computation.
  split; [exact (conj H1 (conj H2 (conj H3 (conj H4 (conj H5 (conj H6 H7))))))|].
  exact (update_after_add_changes_nothing Examples.os Examples.os Examples.addr st ls
           H1 H1 H2 H3 H4 H5 H6 H7).
Defined.

Lemma loaded_index_is_storable_witness :
  let st := Examples.st_mixed in
  let st' := Examples.loaded Examples.os st in
  (files st !! dataFilePath (config st) = Some Examples.mixed /\
   loadData Examples.os st = Some (true, st')) /\
  map_Forall (fun k d =>
      storable_address k /\ iptableRule d = false /\
      (lastActivity d <= ULLONG_MAX)%N /\ (activityScore d <= ULLONG_MAX)%N /\
      (activityCount d <= ULLONG_MAX)%N /\ (refusedCount d <= ULLONG_MAX)%N)
    (suspiciousAddresses st').
Proof.
  intros st st'.
  assert (files st !! dataFilePath (config st) = Some Examples.mixed) as H1
    by (vm_compute; reflexivity).
  assert (loadData Examples.os st = Some (true, st')) as H2 by (vm_compute; reflexivity).
  split; [exact (conj H1 H2)|].
  exact (loaded_index_is_storable Examples.os st Examples.mixed true st' H1 H2).
Defined.

Lemma compaction_of_a_loaded_store_witness :
  let st := Examples.st_mixed in
  let st1 := Examples.loaded Examples.os st in
  (files st !! dataFilePath (config st) = Some Examples.mixed /\
   loadData Examples.os st = Some (true, st1) /\
   map_Forall (fun _ d => fits_columns d) (suspiciousAddresses st1) /\
   Forall (fun lf => NL ∉ lf_path lf) (all_logFiles (config st)) /\
   can_write Examples.os = true) /\
  let st2 := (saveData Examples.os st1).2 in
  exists st3,
    loadData Examples.os st2 = Some (true, st3) /\
    suspiciousAddresses st3 = suspiciousAddresses st1 /\
    files st3 = files st2.
Proof.
  intros st st1.
  assert (files st !! dataFilePath (config st) = Some Examples.mixed) as H1
    by (vm_compute; reflexivity).
  assert (loadData Examples.os st = Some (true, st1)) as H2 by (vm_compute; reflexivity).
  assert (map_Forall (fun _ d => fits_columns d) (suspiciousAddresses st1)) as H3
    by by_computation.
  assert (Forall (fun lf => NL ∉ lf_path lf) (all_logFiles (config st))) as H4
    by by_computation.
  assert (can_write Examples.os = true) as H5 by reflexivity.
  split; [exact (conj H1 (conj H2 (conj H3 (conj H4 H5))))|].
  exact (compaction_of_a_loaded_store Examples.os Examples.os Examples.os st Examples.mixed
           true st1 H1 H2 H3 H4 H5).
Defined.

Lemma bookmarks_are_restored_witness :
  let st := Scenarios.st_read in
  let c0 := Scenarios.cfg_restart in
  (can_write Examples.os = true /\
   map_Forall (fun k _ => NL ∉ k) (suspiciousAddresses st) /\
   NoDup (map lf_path (all_logFiles (config st))) /\
   Forall storable_logFile (all_logFiles (config st)) /\
   map_logFiles unread c0 = map_logFiles unread (config st)) /\
  c0 <> config st /\
  exists ok st',
    loadData Examples.os (set_config c0 (saveData Examples.os st).2) = Some (ok, st') /\
    config st' = config st.
Proof.
  intros st c0.
  assert (can_write Examples.os = true) as H1 by reflexivity.
  assert (map_Forall (fun k _ => NL ∉ k) (suspiciousAddresses st)) as H2 by by_computation.
  assert (NoDup (map lf_path (all_logFiles (config st)))) as H3 by by_computation.
  assert (Forall storable_logFile (all_logFiles (config st))) as H4 by by_computation.
  assert (map_logFiles unread c0 = map_logFiles unread (config st)) as H5
    by (vm_compute; reflexivity).
  assert (c0 <> config st) as H6 by (vm_compute; discriminate).
  split; [exact (conj H1 (conj H2 (conj H3 (conj H4 H5))))|].
  split; [exact H6|].
  exact (bookmarks_are_restored Examples.os Examples.os st c0 H1 H2 H3 H4 H5).
Defined.

Lemma loadData_bookmarks_come_from_the_file_witness :
  let st := Examples.st_mixed in
  let st' := Examples.loaded Examples.os st in
  loadData Examples.os st = Some (true, st') /\
  map_logFiles unread (config st') = map_logFiles unread (config st) /\
  Forall2 (read_from (getlines (default [] (files st !! dataFilePath (config st)))))
          (all_logFiles (config st)) (all_logFiles (config st')).
Proof.
  intros st st'.
  assert (loadData Examples.os st = Some (true, st')) as H1 by (vm_compute; reflexivity).
  split; [exact H1|].
  exact (loadData_bookmarks_come_from_the_file Examples.os st true st' H1).
Defined.

(** * The file compaction writes, read line by line *)

(** the lines [getline] returns from the file [saveData] writes *)
Lemma getlines_store (m : gmap str SuspiciosAddressType) (c : Config) :
  map_Forall (fun k _ => NL ∉ k) m ->
  Forall (fun lf => NL ∉ lf_path lf) (all_logFiles c) ->
  getlines (store_image m c) =
  map stored_address (entries m) ++ map stored_bookmark (all_logFiles c).
Proof.
  intros Hm Hc. rewrite store_image_lines. apply getlines_image, Forall_app.
  split; apply Forall_forall; intros l Hl; apply list_elem_of_fmap in Hl as (x & -> & Hx).
  - apply NL_stored_address. destruct x as [k d]. apply elem_of_entries in Hx.
    apply (Hm k d Hx).
  - apply NL_stored_bookmark. rewrite Forall_forall in Hc. by apply Hc.
Qed.

Lemma line_address_stored k d :
  (length k <= 39)%nat -> Util.ltrim k = k -> line_address (stored_address (k, d)) = k.
Proof.
  intros Hlen Htrim. unfold line_address, stored_address. cbn [fst snd].
  change (lit "d") with ["d"]. cbn [app drop]. rewrite drop_0.
  rewrite take_app_length' by (symmetry; by apply length_setw). by apply ltrim_setw.
Qed.

Lemma matches_stored a k d :
  (length k <= 39)%nat -> Util.ltrim k = k -> matches a (stored_address (k, d)) <-> k = a.
Proof.
  intros Hlen Htrim. unfold matches. rewrite line_address_stored by done.
  split; [by intros [_ ?]|]. intros ->. by split.
Qed.

(** the live lines of an address among the address lines of [saveData] *)
Lemma filter_matches_addresses a (es : list (str * SuspiciosAddressType)) :
  Forall (fun kv => storable_address kv.1) es ->
  filter (matches a) (map stored_address es) =
  map stored_address (filter (fun kv => kv.1 = a) es).
Proof.
  induction 1 as [|[k d] es (Hlen & _ & Htrim) _ IH]; [done|]. cbn [map fst] in *.
  destruct (decide (k = a)) as [->|Hne].
  - rewrite !filter_cons_True; [|done|by apply matches_stored]. cbn [map]. by rewrite IH.
  - rewrite !filter_cons_False; [done|done|]. rewrite matches_stored by done. exact Hne.
Qed.

Lemma filter_matches_bookmarks a lfs : filter (matches a) (map stored_bookmark lfs) = [].
Proof.
  induction lfs as [|lf lfs IH]; [done|]. cbn [map].
  rewrite filter_cons_False; [done|]. by intros [[=] _].
Qed.

Lemma filter_key_absent a (es : list (str * SuspiciosAddressType)) :
  a ∉ es.*1 -> filter (fun kv => kv.1 = a) es = [].
Proof.
  induction es as [|[k d] es IH]; [done|]. cbn [fmap list_fmap fst]. intros Hn.
  apply not_elem_of_cons in Hn as [Hne Hn].
  rewrite filter_cons_False; [by apply IH|]. cbn [fst]. congruence.
Qed.

Lemma filter_key_present a d (es : list (str * SuspiciosAddressType)) :
  NoDup es.*1 -> (a, d) ∈ es -> filter (fun kv => kv.1 = a) es = [(a, d)].
Proof.
  induction es as [|[k x] es IH]; intros Hnd Hin; [by apply elem_of_nil in Hin|].
  cbn [fmap list_fmap fst] in Hnd. apply NoDup_cons in Hnd as [Hk Hnd].
  apply elem_of_cons in Hin as [[= <- <-]|Hin].
  - rewrite filter_cons_True by done. f_equal. by apply filter_key_absent.
  - rewrite filter_cons_False; [by apply IH|]. cbn [fst]. intros ->.
    apply Hk. apply list_elem_of_fmap. by exists (a, d).
Qed.

(** the file [saveData] writes has exactly one live line for each address of
    the index, the line of its record, and none for any other address *)
Lemma live_lines_of_store (m : gmap str SuspiciosAddressType) (c : Config) (a : str) :
  map_Forall (fun k _ => storable_address k) m ->
  Forall (fun lf => NL ∉ lf_path lf) (all_logFiles c) ->
  filter (matches a) (getlines (store_image m c)) =
  match m !! a with Some d => [stored_address (a, d)] | None => [] end.
Proof.
  intros Hm Hc. rewrite getlines_store; [|intros k d Hk; apply (Hm k d Hk)|done].
  rewrite filter_app, filter_matches_bookmarks, app_nil_r, filter_matches_addresses.
  2:{ apply Forall_forall. intros [k d] Hin. apply elem_of_entries in Hin.
      apply (Hm k d Hin). }
  destruct (m !! a) as [d|] eqn:Ha.
  - rewrite (filter_key_present a d); [done|apply NoDup_entries|by apply elem_of_entries].
  - rewrite filter_key_absent; [done|]. intros Hin.
    apply list_elem_of_fmap in Hin as ([k d] & -> & Hin). apply elem_of_entries in Hin.
    cbn [fst] in Ha. congruence.
Qed.

(** the addresses the loader decodes from the lines of [saveData], in order *)
Lemma record_keys_of_store (es : list (str * SuspiciosAddressType)) lfs :
  Forall (fun kv => storable_address kv.1) es ->
  (omap decode_address
     (filter full_width (map stored_address es ++ map stored_bookmark lfs))).*1
  `sublist_of` es.*1.
Proof.
  intros Hes. rewrite filter_app.
  assert (filter full_width (map stored_bookmark lfs) = []) as ->.
  { induction lfs as [|lf lfs IH]; [done|]. cbn [map].
    rewrite filter_cons_False; [done|]. by intros [[=] _]. }
  rewrite app_nil_r.
  induction Hes as [|[k d] es (Hlen & _ & Htrim) _ IH]; [done|]. cbn [map fmap list_fmap fst] in *.
  destruct (decide (full_width (stored_address (k, d)))) as [Hfw|Hfw].
  - rewrite filter_cons_True by done.
    destruct (decode_address_full (stored_address (k, d))) as [[k' r] Hdec]; [apply Hfw|].
    rewrite (omap_cons_Some _ _ _ _ Hdec). cbn [fmap list_fmap fst].
    rewrite (decode_address_key _ k' r (proj2 Hfw) Hdec), line_address_stored by done.
    by apply sublist_skip.
  - rewrite filter_cons_False by done. by apply sublist_cons.
Qed.

(** a load of the file [saveData] wrote finds no duplicate and writes
    nothing; it returns every record that fits its columns *)
Lemma reload_of_store (e : env) (st : state) (m : gmap str SuspiciosAddressType) (c : Config) :
  files st !! dataFilePath (config st) = Some (store_image m c) ->
  map_Forall (fun k _ => storable_address k) m ->
  Forall (fun lf => NL ∉ lf_path lf) (all_logFiles c) ->
  exists st2,
    loadData e st = Some (true, st2) /\ files st2 = files st /\
    suspiciousAddresses st2 = list_to_map (address_records (store_image m c)) /\
    forall k d, m !! k = Some d -> fits_columns d ->
                whitelisted d && blacklisted d = false ->
                suspiciousAddresses st2 !! k = Some (persisted d).
Proof.
  intros Hfile Hm Hc.
  assert (Forall (fun kv => storable_address kv.1) (entries m)) as Hes.
  { apply Forall_forall. intros [k d] Hin. apply elem_of_entries in Hin. apply (Hm k d Hin). }
  assert (getlines (store_image m c) =
          map stored_address (entries m) ++ map stored_bookmark (all_logFiles c)) as Hlines.
  { apply getlines_store; [|done]. intros k d Hk. apply (Hm k d Hk). }
  assert (NoDup (address_records (store_image m c)).*1) as Hnd.
  { unfold address_records. rewrite Hlines.
    eapply sublist_NoDup; [apply NoDup_entries|by apply record_keys_of_store]. }
  destruct (loadData_total e st _ Hfile) as (ok & st2 & Hload).
  { rewrite Hlines. apply Forall_app.
    split; apply Forall_forall; intros l Hl; apply list_elem_of_fmap in Hl as (x & -> & Hx).
    - by intros [=].
    - intros _. apply stored_bookmark_long. }
  destruct (loadData_spec e st _ ok st2 Hfile Hload) as (st1 & dup & Hl & _ & _ & _ & Hres).
  assert (dup = false) as ->.
  { eapply loadLines_distinct; [exact Hl|exact Hnd|]. intros k _. apply lookup_empty. }
  destruct Hres as [-> Hfiles]. exists st2. split; [done|]. split; [done|].
  pose proof (loadData_index e st _ true st2 Hfile Hload) as Hidx. split; [done|].
  intros k d Hk Hfits Hflags. rewrite Hidx. apply elem_of_list_to_map_1; [done|].
  unfold address_records. rewrite Hlines. apply list_elem_of_omap.
  exists (stored_address (k, d)). split.
  - apply list_elem_of_filter. split.
    + apply stored_address_full_width; [apply (Hm k d Hk)|done].
    + apply elem_of_app. left. apply list_elem_of_fmap. exists (k, d).
      split; [done|]. by apply elem_of_entries.
  - apply decode_stored; [apply (Hm k d Hk)|done|done].
Qed.

(** the index after a load holds addresses the format can carry *)
Lemma loaded_keys_storable e st content ok st' :
  files st !! dataFilePath (config st) = Some content ->
  loadData e st = Some (ok, st') ->
  map_Forall (fun k _ => storable_address k) (suspiciousAddresses st').
Proof.
  intros Hfile Hload k d Hk.
  rewrite (loadData_index e st content ok st' Hfile Hload) in Hk.
  by destruct (loaded_records content k d Hk) as (? & _).
Qed.

(** C4: when the store file has two lines of full width for one address, the
    index keeps the record of the first; the backup is named
    <data file>_<YYYYMMDDHHMMSS>.bck; [loadData] fails, leaving the files as
    they are, when a file of that name exists or the rename fails; otherwise
    the old file is found under the backup name and compaction runs, or
    fails when the data file cannot be opened.  The file compaction writes
    is deduplicated: read line by line it has, for each address of the
    index, exactly one live line, the line of its record, and no live line
    for any other address; a load of it finds no duplicate, returns success
    and writes nothing, and returns the first record of the duplicated
    address when its counters fit their columns (no configured log-file
    path holding a newline). *)
Theorem duplicate_recovery (e : env) (st : state) (content : str) (ok : bool) (st' : state)
    (pre mid post : list str) (l1 l2 : str) (k : str) (r1 r2 : SuspiciosAddressType) :
  files st !! dataFilePath (config st) = Some content ->
  getlines content = pre ++ l1 :: mid ++ l2 :: post ->
  full_width l1 -> decode_address l1 = Some (k, r1) ->
  full_width l2 -> decode_address l2 = Some (k, r2) ->
  (forall l r', l ∈ pre -> full_width l -> decode_address l <> Some (k, r')) ->
  valid_tm (now e) ->
  loadData e st = Some (ok, st') ->
  let dataFile := dataFilePath (config st) in
  let backup := dataFile ++ lit "_" ++ timestamp (now e) ++ lit ".bck" in
  let written := store_image (suspiciousAddresses st') (config st') in
  suspiciousAddresses st' !! k = Some r1 /\
  match files st !! backup with
  | Some _ => ok = false /\ files st' = files st
  | None =>
      if can_rename e then
        if can_write e then
          ok = true /\
          files st' = <[dataFile := written]> (<[backup := content]> (delete dataFile (files st))) /\
          (Forall (fun lf => NL ∉ lf_path lf) (all_logFiles (config st)) ->
           (forall a,
              filter (matches a) (getlines written) =
              match suspiciousAddresses st' !! a with
              | Some d => [stored_address (a, d)]
              | None => []
              end) /\
           filter (matches k) (getlines written) = [stored_address (k, r1)] /\
           forall e2, exists st2,
             loadData e2 st' = Some (true, st2) /\ files st2 = files st' /\
             (fits_columns r1 -> suspiciousAddresses st2 !! k = Some r1))
        else ok = false /\ files st' = <[backup := content]> (delete dataFile (files st))
      else ok = false /\ files st' = files st
  end.
Proof.
  intros Hfile Hsplit Hfw1 Hdec1 Hfw2 Hdec2 Hfirst Htm Hload dataFile backup written.
  pose proof (loaded_keys_storable e st content ok st' Hfile Hload) as Hkeys.
  pose proof (loadData_index e st content ok st' Hfile Hload) as Hindex.
  destruct (loadData_paths e st content ok st' Hfile Hload) as [Hpaths Hpath].
  destruct (loadData_spec e st content ok st' Hfile Hload)
    as (st1 & dup & Hlines & Hidx & Hcfg & _ & Hres).
  pose proof Hlines as Hspec.
  apply loadLines_spec in Hspec as (Hidx1 & Hfiles1 & Hpath1 & _).
  simpl in Hidx1, Hfiles1, Hpath1. rewrite (left_id_L ∅ (∪)) in Hidx1.
  assert (suspiciousAddresses st' !! k = Some r1) as Hk.
  { rewrite Hidx, Hidx1, Hsplit. by eapply first_record_wins. }
  split; [exact Hk|].
  assert (dup = true) as ->.
  { rewrite Hsplit in Hlines.
    change (pre ++ l1 :: mid ++ l2 :: post) with (pre ++ (l1 :: mid) ++ l2 :: post) in Hlines.
    rewrite app_assoc in Hlines.
    eapply loadLines_duplicate; [exact Hlines|exact Hfw2|exact Hdec2|].
    simpl. rewrite (left_id_L ∅ (∪)). rewrite <- (app_nil_r (pre ++ l1 :: mid)).
    rewrite <- app_assoc. simpl. erewrite first_record_wins; eauto. }
  destruct Hres as [Hok' Hf'].
  assert (files st1 !! dataFilePath (config st1) = Some content) as Hfile1
    by by rewrite Hfiles1, Hpath1.
  pose proof (backup_and_save_spec e st1 content Hfile1) as (_ & _ & _ & Hb).
  rewrite backup_name_format in Hb by done.
  rewrite Hfiles1, Hpath1, <- Hok', <- Hf', <- Hidx, <- Hcfg in Hb.
  fold dataFile backup written in Hb.
  destruct (files st !! backup); [exact Hb|].
  destruct (can_rename e); [|exact Hb]. destruct (can_write e); [|exact Hb].
  destruct Hb as [Hok Hfiles]. split; [exact Hok|]. split; [exact Hfiles|].
  intros Hnl.
  assert (Forall (fun lf => NL ∉ lf_path lf) (all_logFiles (config st'))) as Hnl'.
  { apply Forall_forall. intros lf Hin. rewrite Forall_forall in Hnl.
    assert (lf_path lf ∈ map lf_path (all_logFiles (config st))) as Hin'.
    { rewrite <- Hpaths. apply list_elem_of_fmap. eauto. }
    apply list_elem_of_fmap in Hin' as (lf' & -> & Hin'). by apply Hnl. }
  assert (forall a, filter (matches a) (getlines written) =
                    match suspiciousAddresses st' !! a with
                    | Some d => [stored_address (a, d)]
                    | None => []
                    end) as Hlive.
  { intros a. by apply live_lines_of_store. }
  split; [exact Hlive|]. split; [by rewrite Hlive, Hk|].
  intros e2.
  assert (files st' !! dataFilePath (config st') = Some written) as Hfile'.
  { rewrite Hfiles, Hpath. fold dataFile. by rewrite lookup_insert_eq. }
  destruct (reload_of_store e2 st' _ _ Hfile' Hkeys Hnl') as (st2 & Hl2 & Hf2 & _ & Hrec).
  exists st2. split; [exact Hl2|]. split; [exact Hf2|].
  intros Hfits. rewrite Hindex in Hk.
  destruct (loaded_records content k r1 Hk) as (_ & Hp & Hflags & _).
  rewrite <- Hp. apply Hrec; [by rewrite Hindex|done|done].
Qed.

(** * The tombstone *)

Lemma getlines_lines_app ls tail :
  Forall (fun l => NL ∉ l) ls -> getlines (lines_image ls ++ tail) = ls ++ getlines tail.
Proof.
  induction 1 as [|l ls Hl _ IH]; [done|].
  rewrite lines_image_cons, <- app_assoc. cbn [app].
  rewrite getlines_line by done. by rewrite IH.
Qed.

(** C6 (amended): in a store file whose lines up to and including the first
    live line of the address are lines as the store writes them, whatever
    follows that line, [removeAddress] succeeds and changes one byte, the
    type byte of that line, from ['d'] to ['r']; the length of the file
    stays.  A [loadData] that follows returns an index without the address
    exactly when no later line of full width carries the address, and it
    returns unless a bookmark line cut short follows. *)
Theorem removeAddress_tombstone (e e' : env) (address : str) (st : state)
    (pre : list str) (line rest : str) :
  can_write e = true ->
  files st !! dataFilePath (config st) = Some (lines_image pre ++ line ++ NL :: rest) ->
  Forall scannable pre ->
  Forall (fun l => ~ matches address l) pre ->
  scannable line -> matches address line ->
  let content := lines_image pre ++ line ++ NL :: rest in
  let off := length (lines_image pre) in
  let content' := <[off := "r"]> content in
  let st1 := (removeAddress e address st).2 in
  (removeAddress e address st).1 = true /\
  files st1 = <[dataFilePath (config st) := content']> (files st) /\
  content !! off = Some "d" /\
  length content' = length content /\
  (forall i, i <> off -> content' !! i = content !! i) /\
  (forall ok st2, loadData e' st1 = Some (ok, st2) ->
     (suspiciousAddresses st2 !! address = None <-> address ∉ (address_records rest).*1)) /\
  (Forall (fun l => head l = Some "b" -> (41 <= length l)%nat) (getlines rest) ->
   exists ok st2, loadData e' st1 = Some (ok, st2)).
Proof.
  intros Hw Hfile Hpre Hnopre Hline Hm content off content' st1.
  destruct (removeAddress_found e address st pre line rest Hw Hfile Hpre Hnopre Hline Hm)
    as (Hok & Hfiles & Hcfg & _).
  fold st1 in Hfiles, Hcfg.
  pose proof Hline as [Hnl _].
  destruct line as [|c line0]; [by destruct Hm|].
  destruct Hm as [Hd Haddr]. injection Hd as ->. cbn [drop] in Hfiles. rewrite drop_0 in Hfiles.
  apply not_elem_of_cons in Hnl as [_ Hnl].
  assert (content' = lines_image pre ++ ("r" :: line0) ++ NL :: rest) as Hc'.
  { subst content' content off. cbn [app].
    rewrite <- (Nat.add_0_r (length (lines_image pre))), insert_app_r. done. }
  split; [exact Hok|]. split; [by rewrite Hc'|]. split.
  { subst off content. cbn [app]. by apply list_lookup_middle. }
  split; [apply length_insert|]. split.
  { intros i Hi. by apply list_lookup_insert_ne. }
  assert (files st1 !! dataFilePath (config st1) = Some content') as Hfile1.
  { rewrite Hfiles, Hcfg, Hc'. by rewrite lookup_insert_eq. }
  assert (Forall (fun l => NL ∉ l) pre) as Hnlpre.
  { eapply Forall_impl; [exact Hpre|]. by intros l [? _]. }
  assert (getlines content' = pre ++ ("r" :: line0) :: getlines rest) as Hlines.
  { rewrite Hc', getlines_lines_app by done. f_equal. apply getlines_line.
    apply not_elem_of_cons. split; [done|exact Hnl]. }
  split.
  - intros ok st2 Hload.
    rewrite (loadData_index e' st1 content' ok st2 Hfile1 Hload).
    rewrite <- not_elem_of_list_to_map. unfold address_records. rewrite Hlines.
    rewrite filter_app, filter_cons_False by (by intros [[=] _]).
    rewrite omap_app, fmap_app, not_elem_of_app.
    split; [by intros [_ ?]|]. intros Hrest. split; [|done].
    by apply records_without_address.
  - intros Hrest. apply (loadData_total e' st1 content' Hfile1).
    rewrite Hlines. apply Forall_app. split; [|apply Forall_cons; split].
    + eapply Forall_impl; [exact Hpre|]. apply scannable_loadable.
    + by intros [=].
    + done.
Qed.

(** * The first start *)


(** * Addresses the scan cannot find *)

Lemma take_while_prefix p (s : str) : take_while p s `prefix_of` s.
Proof.
  induction s as [|c s IH]; cbn [take_while]; [done|].
  destruct (p c); [by apply prefix_cons|apply prefix_nil].
Qed.

Lemma take_while_holds p (s : str) : Forall (fun c => p c = true) (take_while p s).
Proof.
  induction s as [|c s IH]; cbn [take_while]; [constructor|].
  destruct (p c) eqn:E; [by constructor|constructor].
Qed.

(** what [f.get(s, 40)] can store *)
Lemma get_n_chunk f :
  (length (get_n f 40).1 <= 39)%nat /\ (NL ∉ (get_n f 40).1).
Proof.
  unfold get_n. destruct (good f); cbn [fst]; [|split; [simpl; lia|apply not_elem_of_nil]].
  split.
  - pose proof (length_take_while (fun c => negb (eqc c NL))
                  (take (40 - 1) (drop (pos f) (buf f)))) as H.
    rewrite length_take in H. lia.
  - intros Hin.
    pose proof (take_while_holds (fun c => negb (eqc c NL))
                  (take (40 - 1) (drop (pos f) (buf f)))) as H.
    rewrite Forall_forall in H. apply H in Hin.
    apply negb_true_iff, eqc_false in Hin. done.
Qed.

(** what the scan compares the address with *)
Lemma compared_storable chunk :
  (length chunk <= 39)%nat -> (NL ∉ chunk) ->
  storable_address (Util.ltrim (c_str chunk)) /\ (NUL ∉ Util.ltrim (c_str chunk)).
Proof.
  intros Hlen Hnl.
  pose proof (ltrim_suffix (c_str chunk)) as [a Ha].
  pose proof (take_while_prefix (fun c => negb (eqc c NUL)) chunk) as [b Hb].
  fold (c_str chunk) in Hb.
  assert (forall x, x ∈ Util.ltrim (c_str chunk) -> x ∈ c_str chunk) as Hsub1.
  { intros x Hx. rewrite Ha. apply elem_of_app. by right. }
  assert (forall x, x ∈ c_str chunk -> x ∈ chunk) as Hsub2.
  { intros x Hx. rewrite Hb. apply elem_of_app. by left. }
  split; [split; [|split]|].
  - apply (f_equal length) in Ha, Hb. rewrite length_app in Ha, Hb. lia.
  - intros Hin. by apply Hnl, Hsub2, Hsub1.
  - apply ltrim_idemp.
  - intros Hin. apply Hsub1 in Hin.
    pose proof (take_while_holds (fun c => negb (eqc c NUL)) chunk) as H.
    rewrite Forall_forall in H. apply H in Hin.
    apply negb_true_iff, eqc_false in Hin. done.
Qed.

Lemma scan_loop_found_storable address fuel f m f0 m0 :
  scan_loop no_action address fuel f m = Some (f0, m0, true) ->
  storable_address address /\ (NUL ∉ address).
Proof.
  revert f. induction fuel as [|fuel IH]; intros f; [done|].
  cbn [scan_loop]. destruct (get f) as [[c|] f1]; [|by intros [= _ _ ?]].
  destruct (eqc c "d"); [|apply IH].
  pose proof (get_n_chunk f1) as [Hlen Hnl].
  destruct (get_n f1 40) as [fAddress f2]. cbn [fst] in Hlen, Hnl.
  destruct (eqs (Util.ltrim (c_str fAddress)) address) eqn:E; [|apply IH].
  apply eqs_true in E. subst address. intros _. by apply compared_storable.
Qed.

(** X15: the scan compares the address with at most 39 characters of the
    file, cut at a newline and at a NUL byte and trimmed on the left.  So
    for an address of more than 39 characters, or one that holds a newline
    or a NUL byte or begins with a space, [updateAddress] and
    [removeAddress] return failure whatever the data file holds, also
    straight after [addAddress] has appended a line for that address. *)
Theorem unstorable_address_is_never_found (e : env) (address : str) (st : state) :
  ~ (storable_address address /\ (NUL ∉ address)) ->
  (updateAddress e address st).1 = false /\ (removeAddress e address st).1 = false.
Proof.
  intros Hno.
  assert (forall f m, (scan no_action address f m).2 = false) as Hscan.
  { intros f m. unfold scan.
    destruct (scan_loop no_action address (S (length (buf f))) f m)
      as [[[f0 m0] [|]]|] eqn:E; [|done|done].
    exfalso. apply Hno. by eapply scan_loop_found_storable. }
  unfold updateAddress, removeAddress.
  set (st1 := log_msg LDebug _ st). set (st2 := log_msg LDebug _ st).
  split.
  - destruct (open_rw e st1) as [f|]; [|done].
    rewrite (scan_factor (update_record address)).
    pose proof (Hscan f (suspiciousAddresses st1)) as H.
    destruct (scan no_action address f (suspiciousAddresses st1)) as [[f0 m0] found].
    cbn [snd] in H. by subst found.
  - destruct (open_rw e st2) as [f|]; [|done].
    rewrite (scan_factor remove_record).
    pose proof (Hscan f (suspiciousAddresses st2)) as H.
    destruct (scan no_action address f (suspiciousAddresses st2)) as [[f0 m0] found].
    cbn [snd] in H. by subst found.
Qed.

(** * The amended properties on concrete stores *)

Lemma duplicate_recovery_witness :
  let st := Examples.st_twice in
  let st' := Examples.loaded Examples.os st in
  let dataFile := dataFilePath (config st) in
  let backup := dataFile ++ lit "_20260102030405.bck" in
  let written := store_image (suspiciousAddresses st') (config st') in
  (files st !! dataFile = Some Examples.twice /\
   getlines Examples.twice = [] ++ Examples.line1 :: [] ++ Examples.line7 :: [] /\
   full_width Examples.line1 /\
   decode_address Examples.line1 = Some (Examples.addr, Examples.rec1) /\
   full_width Examples.line7 /\
   decode_address Examples.line7 = Some (Examples.addr, Examples.rec7) /\
   valid_tm (now Examples.os) /\
   loadData Examples.os st = Some (true, st') /\
   Forall (fun lf => NL ∉ lf_path lf) (all_logFiles (config st)) /\
   fits_columns Examples.rec1) /\
  suspiciousAddresses st' !! Examples.addr = Some Examples.rec1 /\
  files st' = <[dataFile := written]> (<[backup := Examples.twice]> (delete dataFile (files st))) /\
  getlines written =
    [Examples.line1; stored_bookmark (mkLogFile (lit "/var/log/auth.log") 0 0)] /\
  (forall a,
     filter (matches a) (getlines written) =
     match suspiciousAddresses st' !! a with
     | Some d => [stored_address (a, d)]
     | None => []
     end) /\
  filter (matches Examples.addr) (getlines written) =
    [stored_address (Examples.addr, Examples.rec1)] /\
  exists st2,
    loadData Examples.os st' = Some (true, st2) /\ files st2 = files st' /\
    suspiciousAddresses st2 !! Examples.addr = Some Examples.rec1.
Proof.
  intros st st' dataFile backup written.
  assert (files st !! dataFile = Some Examples.twice) as H1 by (vm_compute; reflexivity).
  assert (getlines Examples.twice = [] ++ Examples.line1 :: [] ++ Examples.line7 :: []) as H2
    by (vm_compute; reflexivity).
  assert (full_width Examples.line1) as H3 by by_computation.
  assert (decode_address Examples.line1 = Some (Examples.addr, Examples.rec1)) as H4
    by (vm_compute; reflexivity).
  assert (full_width Examples.line7) as H5 by by_computation.
  assert (decode_address Examples.line7 = Some (Examples.addr, Examples.rec7)) as H6
    by (vm_compute; reflexivity).
  assert (valid_tm (now Examples.os)) as H7 by by_computation.
  assert (loadData Examples.os st = Some (true, st')) as H8 by (vm_compute; reflexivity).
  assert (Forall (fun lf => NL ∉ lf_path lf) (all_logFiles (config st))) as H9
    by by_computation.
  assert (fits_columns Examples.rec1) as H10 by by_computation.
  split; [exact (conj H1 (conj H2 (conj H3 (conj H4 (conj H5 (conj H6 (conj H7
                  (conj H8 (conj H9 H10)))))))))|].
  assert (files st !! (dataFilePath (config st) ++ lit "_" ++ timestamp (now Examples.os) ++
                       lit ".bck") = None) as Hnone by (vm_compute; reflexivity).
  assert (getlines written =
            [Examples.line1; stored_bookmark (mkLogFile (lit "/var/log/auth.log") 0 0)])
    as Hlines by (vm_compute; reflexivity).
  pose proof (duplicate_recovery Examples.os st Examples.twice true st' [] [] []
                Examples.line1 Examples.line7 Examples.addr Examples.rec1 Examples.rec7
                H1 H2 H3 H4 H5 H6
                (fun l r' (Hl : l ∈ []) _ => False_ind _ (proj1 (elem_of_nil l) Hl))
                H7 H8) as (Hfirst & Hrest).
  cbv zeta in Hrest. rewrite Hnone in Hrest.
  destruct Hrest as (_ & Hfiles & Hdedup).
  destruct (Hdedup H9) as (Hlive & Hone & Hreload).
  destruct (Hreload Examples.os) as (st2 & Hl2 & Hf2 & Hr2).
  exact (conj Hfirst (conj Hfiles (conj Hlines (conj Hlive (conj Hone
          (ex_intro _ st2 (conj Hl2 (conj Hf2 (Hr2 H10))))))))).
Defined.

Lemma removeAddress_tombstone_witness :
  let st := Scenarios.st_ragged in
  let pre : list str := [] in
  let rest := Scenarios.ragged_rest in
  let content := lines_image pre ++ Examples.line1 ++ NL :: rest in
  let off := length (lines_image pre) in
  let st1 := (removeAddress Examples.os Examples.addr st).2 in
  (can_write Examples.os = true /\
   files st !! dataFilePath (config st) = Some content /\
   Forall scannable pre /\
   Forall (fun l => ~ matches Examples.addr l) pre /\
   scannable Examples.line1 /\
   matches Examples.addr Examples.line1 /\
   ~ Forall scannable (getlines rest)) /\
  (removeAddress Examples.os Examples.addr st).1 = true /\
  files st1 = <[dataFilePath (config st) := <[off := "r"]> content]> (files st) /\
  content !! off = Some "d" /\
  length (<[off := "r"]> content) = length content /\
  (forall ok st2, loadData Examples.os st1 = Some (ok, st2) ->
     (suspiciousAddresses st2 !! Examples.addr = None <->
      Examples.addr ∉ (address_records rest).*1)) /\
  (Examples.addr ∉ (address_records rest).*1) /\
  exists ok st2, loadData Examples.os st1 = Some (ok, st2).
Proof.
  intros st pre rest content off st1.
  assert (can_write Examples.os = true) as H1 by reflexivity.
  assert (files st !! dataFilePath (config st) = Some content) as H2
    by (vm_compute; reflexivity).
  assert (Forall scannable pre) as H3 by by_computation.
  assert (Forall (fun l => ~ matches Examples.addr l) pre) as H4 by by_computation.
  assert (scannable Examples.line1) as H5 by by_computation.
  assert (matches Examples.addr Examples.line1) as H6 by by_computation.
  assert (~ Forall scannable (getlines rest)) as H7 by by_computation.
  assert (Forall (fun l => head l = Some "b" -> (41 <= length l)%nat) (getlines rest)) as H8
    by by_computation.
  assert (Examples.addr ∉ (address_records rest).*1) as H9 by by_computation.
  split; [exact (conj H1 (conj H2 (conj H3 (conj H4 (conj H5 (conj H6 H7))))))|].
  destruct (removeAddress_tombstone Examples.os Examples.os Examples.addr st pre
              Examples.line1 rest H1 H2 H3 H4 H5 H6)
    as (Hok & Hfiles & Hd & Hlen & _ & Hload & Hret).
  exact (conj Hok (conj Hfiles (conj Hd (conj Hlen (conj Hload (conj H9 (Hret H8))))))).
Defined.


Lemma unstorable_address_is_never_found_witness :
  let st := (addAddress Examples.os Scenarios.long_addr Examples.st_missing).2 in
  (~ (storable_address Scenarios.long_addr /\ (NUL ∉ Scenarios.long_addr))) /\
  (addAddress Examples.os Scenarios.long_addr Examples.st_missing).1 = true /\
  (updateAddress Examples.os Scenarios.long_addr st).1 = false /\
  (removeAddress Examples.os Scenarios.long_addr st).1 = false.
Proof.
  intros st.
  assert (~ (storable_address Scenarios.long_addr /\ (NUL ∉ Scenarios.long_addr))) as H1
    by by_computation.
  assert ((addAddress Examples.os Scenarios.long_addr Examples.st_missing).1 = true) as H2
    by (vm_compute; reflexivity).
  split; [exact H1|]. split; [exact H2|].
  exact (unstorable_address_is_never_found Examples.os Scenarios.long_addr st H1).
Defined.
